(** * hamsoya admin frontend: the client-side cache coherency layer

    A shallow embedding of
      - [src/lib/admin-cache-manager.ts]   (cache keys, invalidation policy,
        optimistic updates, the module-level singleton),
      - [src/hooks/use-admin-realtime.ts]  (the server-sent-event channel, the
        optimistic-update hook),
      - [src/hooks/use-admin-mutations.ts] (the admin mutation hooks),
      - [src/lib/api-client.ts]            ([ApiClient.request], the access
        token cookie, the friendly error messages, methods built on
        [request]),
      - [src/app/api/admin/events/route.ts] (the events that the route sends),
      - the dashboard hook ([useAdminDashboard], [useAdminDashboardOptimistic]),
    together with the part of the query client of [@tanstack/react-query]
    that these files call. *)

From Stdlib Require Import ZArith Sorting.Sorted.
From stdpp Require Import base option list strings pretty sorting gmap fin_maps.

Open Scope Z_scope.
Set Warnings "-register-all".

(** ** JavaScript values *)

(** The values that flow through cache keys and cached payloads.  An object
    keeps its fields in insertion order, as [Object.keys] shows them; a
    well-formed object has no two fields of the same name (field names that
    look like array indices, which JavaScript lists first, are not set
    apart). Numbers are integers here: no property below depends on
    fractions. *)
Inductive JsValue : Type :=
  | JUndefined
  | JNull
  | JBool (b : bool)
  | JNum (n : Z)
  | JStr (s : string)
  | JObj (fields : list (string * JsValue)).

Module Js.

(** [Boolean(v)]: the falsy values are [undefined], [null], [false], [0]
    and the empty string. *)
Definition truthy (v : JsValue) : bool :=
  match v with
  | JUndefined | JNull => false
  | JBool b => b
  | JNum n => negb (n =? 0)
  | JStr s => negb (String.eqb s EmptyString)
  | JObj _ => true
  end.

(** [o[k]], with [undefined] for a missing field. *)
Fixpoint getField (k : string) (fields : list (string * JsValue)) : JsValue :=
  match fields with
  | [] => JUndefined
  | (k', v) :: rest => if String.eqb k k' then v else getField k rest
  end.

(** [a === b] on primitives (objects are compared by reference in
    JavaScript, hence never equal here). *)
Definition strictEqPrim (a b : JsValue) : bool :=
  match a, b with
  | JUndefined, JUndefined => true
  | JNull, JNull => true
  | JBool x, JBool y => Bool.eqb x y
  | JNum x, JNum y => x =? y
  | JStr x, JStr y => String.eqb x y
  | _, _ => false
  end.

(** Insertion of a field into a list of fields sorted by name. *)
Fixpoint insertField (f : string * JsValue) (fs : list (string * JsValue))
  : list (string * JsValue) :=
  match fs with
  | [] => [f]
  | g :: rest =>
      if String.leb (fst f) (fst g) then f :: g :: rest
      else g :: insertField f rest
  end.

(** The order in which [sortFields] puts two fields. *)
Definition fieldLe (f g : string * JsValue) : Prop := String.leb (fst f) (fst g) = true.

(** [Object.keys(o).sort()] followed by rebuilding the object: the fields
    in the order of their names. *)
Definition sortFields (fs : list (string * JsValue)) : list (string * JsValue) :=
  foldr insertField [] fs.

Definition quote : string := String (Ascii.ascii_of_nat 34) EmptyString.
Definition backslash : string := String (Ascii.ascii_of_nat 92) EmptyString.

(** The escaping of [JSON.stringify] for the quote and the backslash. *)
Fixpoint escape (s : string) : string :=
  match s with
  | EmptyString => EmptyString
  | String c rest =>
      if Ascii.eqb c (Ascii.ascii_of_nat 34) then backslash +:+ quote +:+ escape rest
      else if Ascii.eqb c (Ascii.ascii_of_nat 92) then backslash +:+ backslash +:+ escape rest
      else String c (escape rest)
  end.

Definition jsonString (s : string) : string := quote +:+ escape s +:+ quote.

Definition commaSep (items : list string) : string :=
  match items with
  | [] => EmptyString
  | x :: rest => foldl (fun acc y => acc +:+ "," +:+ y) x rest
  end.

End Js.

(** ** The query cache store

    The sources reach the cache through the [QueryClient] of
    [@tanstack/react-query], which is not among them. The store below is the
    one of the specification (cache keys with an order-independent digest of
    the parameters; [get], [set], [invalidate] by key prefix, [evict]),
    written with the names and the calling conventions of the query client. *)

Module QueryClient.

(** The replacer of [hashKey]: every plain object is rebuilt with its keys
    sorted, children after their parent. *)
Fixpoint sortKeys (v : JsValue) : JsValue :=
  match v with
  | JObj fs =>
      JObj (Js.sortFields
              ((fix each (l : list (string * JsValue)) :=
                  match l with
                  | [] => []
                  | (k, x) :: rest => (k, sortKeys x) :: each rest
                  end) fs))
  | _ => v
  end.

(** [JSON.stringify] of a value; [None] where it yields [undefined]. *)
Fixpoint stringify (v : JsValue) : option string :=
  match v with
  | JUndefined => None
  | JNull => Some "null"
  | JBool true => Some "true"
  | JBool false => Some "false"
  | JNum n => Some (pretty n)
  | JStr s => Some (Js.jsonString s)
  | JObj fs =>
      Some ("{" +:+
            Js.commaSep
              ((fix each (l : list (string * JsValue)) :=
                  match l with
                  | [] => []
                  | (k, x) :: rest =>
                      match stringify x with
                      | Some sx => (Js.jsonString k +:+ ":" +:+ sx) :: each rest
                      | None => each rest
                      end
                  end) fs) +:+ "}")
  end.

(** An array element that is [undefined] is written [null]. *)
Definition stringifyElement (v : JsValue) : string :=
  default "null" (stringify v).

(** Modelled from the spec: the digest that identifies a cache key
    ([hashKey(queryKey)] of the query client), a canonical serialization of
    the key that does not depend on the insertion order of object fields:
    [JSON.stringify] of the key with the fields of every object sorted. *)
Definition hashKey (queryKey : list JsValue) : string :=
  "[" +:+ Js.commaSep (map (fun v => stringifyElement (sortKeys v)) queryKey) +:+ "]".

(** [partialMatchKey(a, b)] on two values: equal primitives, or two objects
    where every field of [b] partially matches the same field of [a]. *)
Fixpoint partialMatchValue (b a : JsValue) {struct b} : bool :=
  match b, a with
  | JObj fb, JObj fa =>
      (fix every (l : list (string * JsValue)) :=
         match l with
         | [] => true
         | (k, vb) :: rest => partialMatchValue vb (Js.getField k fa) && every rest
         end) fb
  | _, _ => Js.strictEqPrim a b
  end.

(** Modelled from the spec: the test that the key [a] starts with the
    prefix [b] ([partialMatchKey(a, b)] of the query client): every index of
    [b] matches the same index of [a] ([undefined] past its end). *)
Fixpoint partialMatchKey (a b : list JsValue) : bool :=
  match b with
  | [] => true
  | vb :: b' =>
      match a with
      | [] => partialMatchValue vb JUndefined && partialMatchKey [] b'
      | va :: a' => partialMatchValue vb va && partialMatchKey a' b'
      end
  end.

(** A cached query: its key, [state.data] and [state.isInvalidated]. *)
Record Query : Type := mkQuery {
  queryKey : list JsValue;
  data : option JsValue;
  isInvalidated : bool
}.

Definition invalidate (q : Query) : Query :=
  {| queryKey := queryKey q; data := data q; isInvalidated := true |}.

Definition setData (d : JsValue) (q : Query) : Query :=
  {| queryKey := queryKey q; data := Some d; isInvalidated := false |}.

(** The query cache: a [Map] from [queryHash] to the query. *)
Abbreviation QueryCache := (gmap string Query).

Definition matches (prefix : list JsValue) (q : Query) : bool :=
  partialMatchKey (queryKey q) prefix.

(** Modelled from the spec: [invalidate(keyPrefix)], the query client's
    [invalidateQueries({ queryKey })]: every entry whose key starts with the
    prefix is marked stale; its data stays. *)
Definition invalidateQueries (prefix : list JsValue) (c : QueryCache) : QueryCache :=
  (fun q => if matches prefix q then invalidate q else q) <$> c.

(** Modelled from the spec: [evict], the query client's
    [removeQueries({ queryKey })]: every entry whose key starts with the
    given key is removed from the cache. *)
Definition removeQueries (prefix : list JsValue) (c : QueryCache) : QueryCache :=
  filter (fun hq => matches prefix (snd hq) = false) c.

(** Modelled from the spec: [get(key)], the query client's
    [getQueryData(queryKey)]: the data of the entry with the digest of the
    key, without side effects. *)
Definition getQueryData (key : list JsValue) (c : QueryCache) : option JsValue :=
  c !! hashKey key ≫= data.

(** The second argument of [setQueryData]: a value or a function of the
    previous data. *)
Inductive Updater : Type :=
  | UValue (v : option JsValue)
  | UFunction (f : option JsValue -> option JsValue).

Definition functionalUpdate (u : Updater) (prev : option JsValue) : option JsValue :=
  match u with
  | UValue v => v
  | UFunction f => f prev
  end.

(** Modelled from the spec: [set(key, data)], the query client's
    [setQueryData(queryKey, updater)]: the entry is created if absent and
    its data overwritten, which makes it fresh again. As in the query
    client, nothing happens when the new data is [undefined]. *)
Definition setQueryData (key : list JsValue) (u : Updater) (c : QueryCache) : QueryCache :=
  match functionalUpdate u (getQueryData key c) with
  | None => c
  | Some d =>
      let q := default (mkQuery key None false) (c !! hashKey key) in
      <[hashKey key := setData d q]> c
  end.

End QueryClient.

Import QueryClient.

(** ** src/lib/admin-cache-manager.ts *)

Inductive Resource : Type := orders | products | customers | categories.

Inductive Action : Type := create | update | delete.

Definition resourceName (r : Resource) : string :=
  match r with
  | orders => "orders"
  | products => "products"
  | customers => "customers"
  | categories => "categories"
  end.

Module ADMIN_CACHE_KEYS.

(** [[...].filter(Boolean)]. *)
Definition filterBoolean (parts : list JsValue) : list JsValue :=
  List.filter Js.truthy parts.

Module dashboard.
Definition stats (timeRange : JsValue) : list JsValue :=
  filterBoolean [JStr "admin"; JStr "dashboard"; JStr "stats"; timeRange].
Definition overview : list JsValue := [JStr "admin"; JStr "dashboard"; JStr "overview"].
Definition recentOrders : list JsValue := [JStr "admin"; JStr "dashboard"; JStr "recent-orders"].
Definition topProducts : list JsValue := [JStr "admin"; JStr "dashboard"; JStr "top-products"].
Definition recentCustomers : list JsValue :=
  [JStr "admin"; JStr "dashboard"; JStr "recent-customers"].
Definition salesAnalytics (period chartType : string) : list JsValue :=
  [JStr "admin"; JStr "analytics"; JStr "sales"; JStr period; JStr chartType].
Definition activity (limit : Z) : list JsValue :=
  [JStr "admin"; JStr "activity"; JNum limit].
End dashboard.

(** The four resource blocks have the same shape; [r] selects the block. *)
Definition detail (r : Resource) (id : string) : list JsValue :=
  [JStr "admin"; JStr (resourceName r); JStr "detail"; JStr id].
Definition stats (r : Resource) : list JsValue :=
  [JStr "admin"; JStr (resourceName r); JStr "stats"].
Definition list (r : Resource) (params : JsValue) : Datatypes.list JsValue :=
  filterBoolean [JStr "admin"; JStr (resourceName r); JStr "list"; params].

End ADMIN_CACHE_KEYS.

Module AdminCacheManager.

(** [if (id)] on an optional string: absent and empty ids are falsy. *)
Definition idGiven (id : option string) : option string :=
  match id with
  | Some s => if Js.truthy (JStr s) then Some s else None
  | None => None
  end.

Definition invalidateDashboard (c : QueryCache) : QueryCache :=
  invalidateQueries [JStr "admin"; JStr "dashboard"] c.

Definition invalidateResource (r : Resource) (c : QueryCache) : QueryCache :=
  let c := invalidateQueries [JStr "admin"; JStr (resourceName r)] c in
  invalidateDashboard c.

Definition invalidateAfterMutation (r : Resource) (a : Action) (id : option string)
    (c : QueryCache) : QueryCache :=
  match a with
  | create =>
      let c := invalidateQueries [JStr "admin"; JStr (resourceName r); JStr "list"] c in
      let c := invalidateQueries [JStr "admin"; JStr (resourceName r); JStr "stats"] c in
      invalidateDashboard c
  | update =>
      let c :=
        match idGiven id with
        | Some i =>
            invalidateQueries [JStr "admin"; JStr (resourceName r); JStr "detail"; JStr i] c
        | None => c
        end in
      let c := invalidateQueries [JStr "admin"; JStr (resourceName r); JStr "list"] c in
      invalidateDashboard c
  | delete =>
      let c :=
        match idGiven id with
        | Some i =>
            removeQueries [JStr "admin"; JStr (resourceName r); JStr "detail"; JStr i] c
        | None => c
        end in
      let c := invalidateQueries [JStr "admin"; JStr (resourceName r); JStr "list"] c in
      let c := invalidateQueries [JStr "admin"; JStr (resourceName r); JStr "stats"] c in
      invalidateDashboard c
  end.

(** What [updateOptimistically] returns: the captured data and the
    [rollback] closure, a cache transformer to be run later. *)
Record Handle : Type := mkHandle {
  rollback : QueryCache -> QueryCache;
  previousData : option JsValue
}.

Definition updateOptimistically (queryKey : list JsValue)
    (updateFn : option JsValue -> option JsValue)
    (rollbackFn : option (option JsValue -> option JsValue))
    (c : QueryCache) : Handle * QueryCache :=
  let previousData := getQueryData queryKey c in
  let c := setQueryData queryKey (UFunction updateFn) c in
  ({| rollback := fun c' =>
        match rollbackFn with
        | Some f => setQueryData queryKey (UFunction f) c'
        | None => setQueryData queryKey (UValue previousData) c'
        end;
      previousData := previousData |}, c).

End AdminCacheManager.

(** ** The invalidation table of the specification *)

Module InvalidationPolicy.

Inductive Effect : Type :=
  | Invalidate (prefix : list JsValue)
  | Evict (prefix : list JsValue).

Definition dashboardPrefix : list JsValue := [JStr "admin"; JStr "dashboard"].
Definition listPrefix (r : Resource) : list JsValue :=
  [JStr "admin"; JStr (resourceName r); JStr "list"].
Definition statsPrefix (r : Resource) : list JsValue :=
  [JStr "admin"; JStr (resourceName r); JStr "stats"].
Definition detailPrefix (r : Resource) (id : string) : list JsValue :=
  [JStr "admin"; JStr (resourceName r); JStr "detail"; JStr id].

(** The rows of the table, in the words of the specification. *)
Definition table (r : Resource) (a : Action) (id : string) : list Effect :=
  match a with
  | create => [Invalidate (listPrefix r); Invalidate (statsPrefix r); Invalidate dashboardPrefix]
  | update => [Invalidate (detailPrefix r id); Invalidate (listPrefix r);
               Invalidate dashboardPrefix]
  | delete => [Evict (detailPrefix r id); Invalidate (listPrefix r);
               Invalidate (statsPrefix r); Invalidate dashboardPrefix]
  end.

(** The table without the step on the detail key, which is the first
    step of the update and delete rows. *)
Definition withoutDetail (r : Resource) (a : Action) : list Effect :=
  match a with
  | create => table r create EmptyString
  | _ => tail (table r a EmptyString)
  end.

(** The effects that [invalidateAfterMutation] performs, read off its
    three branches: the step on the detail key is guarded by [if (id)]. *)
Definition performed (r : Resource) (a : Action) (id : option string) : list Effect :=
  match AdminCacheManager.idGiven id with
  | Some i => table r a i
  | None => withoutDetail r a
  end.

Definition evicts (effects : list Effect) (q : Query) : bool :=
  existsb (fun e => match e with Evict p => matches p q | Invalidate _ => false end) effects.

Definition invalidates (effects : list Effect) (q : Query) : bool :=
  existsb (fun e => match e with Invalidate p => matches p q | Evict _ => false end) effects.

(** What a list of effects does to one cache entry: an entry under an
    evicted prefix is gone, an entry under an invalidated prefix is marked,
    any other entry is as it was. *)
Definition onEntry (effects : list Effect) (q : Query) : option Query :=
  if evicts effects q then None
  else if invalidates effects q then Some (invalidate q)
  else Some q.

Definition run (e : Effect) (c : QueryCache) : QueryCache :=
  match e with
  | Invalidate p => invalidateQueries p c
  | Evict p => removeQueries p c
  end.

(** The effects of a list, performed in order. *)
Definition perform (effects : list Effect) (c : QueryCache) : QueryCache :=
  foldl (fun c e => run e c) c effects.

End InvalidationPolicy.

(** ** Notifications *)

(** A call of [toast.success] / [toast.error] (or of [toastService]): the
    level, the title and the description shown. *)
Inductive ToastLevel : Type := Success | Failure.

Record Toast : Type := mkToast {
  level : ToastLevel;
  title : string;
  description : option string
}.

(** How an awaited promise settles. *)
Inductive Outcome : Type :=
  | Resolved (result : option JsValue)
  | Rejected (error : string).

(** ** src/hooks/use-admin-realtime.ts: the event channel *)

Module useAdminRealtime.

Record Options : Type := mkOptions {
  isAdmin : bool;
  enabled : bool;
  reconnectInterval : Z
}.

Definition defaultOptions : Options :=
  {| isAdmin := true; enabled := true; reconnectInterval := 5000 |}.

(** The state of one mounted hook: the two [useState] cells and the three
    refs, and what the hook has asked of its environment so far.
    [EventSource] objects are named by the order of their construction and
    timers by the order of their [setTimeout]: [scheduled] lists the delay
    of every timer ever set, [pending] the timers neither fired nor
    cleared, [reported] the errors handed to [options.onError]. *)
Record State : Type := mkState {
  isConnected : bool;
  connectionError : option string;
  eventSource : option nat;
  reconnectTimeout : option nat;
  reconnectAttempts : Z;
  eventSources : nat;
  scheduled : list Z;
  pending : list nat;
  reported : list string
}.

Definition initial : State :=
  {| isConnected := false; connectionError := None; eventSource := None;
     reconnectTimeout := None; reconnectAttempts := 0;
     eventSources := 0; scheduled := []; pending := []; reported := [] |}.

(** [connect]: unless the gate returns early, a new [EventSource] is
    constructed and becomes the current one; the one before is not closed.
    (The constructor does not throw for the fixed URL, so the [catch] is
    left out.) *)
Definition connect (o : Options) (s : State) : State :=
  if negb (isAdmin o) || negb (enabled o) then s
  else {| isConnected := isConnected s; connectionError := connectionError s;
          eventSource := Some (eventSources s);
          reconnectTimeout := reconnectTimeout s;
          reconnectAttempts := reconnectAttempts s;
          eventSources := S (eventSources s);
          scheduled := scheduled s; pending := pending s; reported := reported s |}.

Definition onopen (s : State) : State :=
  {| isConnected := true; connectionError := None;
     eventSource := eventSource s; reconnectTimeout := reconnectTimeout s;
     reconnectAttempts := 0;
     eventSources := eventSources s; scheduled := scheduled s;
     pending := pending s; reported := reported s |}.

Definition onerror (o : Options) (s : State) : State :=
  if reconnectAttempts s <? 5 then
    let attempts := reconnectAttempts s + 1 in
    let timer := length (scheduled s) in
    {| isConnected := false; connectionError := Some "Connection error";
       eventSource := eventSource s;
       reconnectTimeout := Some timer;
       reconnectAttempts := attempts;
       eventSources := eventSources s;
       scheduled := scheduled s ++ [reconnectInterval o * attempts];
       pending := pending s ++ [timer];
       reported := reported s |}
  else
    {| isConnected := false;
       connectionError := Some "Max reconnection attempts reached";
       eventSource := eventSource s; reconnectTimeout := reconnectTimeout s;
       reconnectAttempts := reconnectAttempts s;
       eventSources := eventSources s;
       scheduled := scheduled s; pending := pending s;
       reported := reported s ++ ["Max reconnection attempts reached"] |}.

Definition clearTimeout (timer : option nat) (pending : list nat) : list nat :=
  match timer with
  | Some t => List.filter (fun t' => negb (Nat.eqb t' t)) pending
  | None => pending
  end.

Definition disconnect (s : State) : State :=
  {| isConnected := false; connectionError := None;
     eventSource := None; reconnectTimeout := None;
     reconnectAttempts := 0;
     eventSources := eventSources s; scheduled := scheduled s;
     pending := clearTimeout (reconnectTimeout s) (pending s);
     reported := reported s |}.

(** [reconnect]: [disconnect()], then [setTimeout(connect, 1000)], a timer
    that no ref remembers. *)
Definition reconnect (s : State) : State :=
  let s := disconnect s in
  {| isConnected := isConnected s; connectionError := connectionError s;
     eventSource := eventSource s; reconnectTimeout := reconnectTimeout s;
     reconnectAttempts := reconnectAttempts s;
     eventSources := eventSources s;
     scheduled := scheduled s ++ [1000];
     pending := pending s ++ [length (scheduled s)];
     reported := reported s |}.

(** A timer fires: it runs [connect] if it was still pending. *)
Definition fire (o : Options) (timer : nat) (s : State) : State :=
  if existsb (Nat.eqb timer) (pending s) then
    connect o
      {| isConnected := isConnected s; connectionError := connectionError s;
         eventSource := eventSource s; reconnectTimeout := reconnectTimeout s;
         reconnectAttempts := reconnectAttempts s;
         eventSources := eventSources s; scheduled := scheduled s;
         pending := clearTimeout (Some timer) (pending s);
         reported := reported s |}
  else s.

(** What can happen to a mounted hook: a connection opens, a connection
    fails, a timer fires, the user asks for a reconnect, the hook is torn
    down. *)
Inductive Event : Type :=
  | Open | Error | TimerFired (timer : nat) | Reconnect | Disconnect.

Definition step (o : Options) (s : State) (e : Event) : State :=
  match e with
  | Open => onopen s
  | Error => onerror o s
  | TimerFired t => fire o t s
  | Reconnect => reconnect s
  | Disconnect => disconnect s
  end.

(** A run under one set of options, that is, between two changes of
    [isAdmin] or [enabled]; [RealtimeRenders] below has the runs in which
    they change. *)
Definition run (o : Options) (s : State) (events : list Event) : State :=
  foldl (step o) s events.

(** The hook once mounted: the effect has called [connect]. *)
Definition mounted (o : Options) : State := connect o initial.

(** [n] consecutive connection failures after mounting: every connection
    fails, and the timer set by a failure (the timers are numbered from 0)
    fires before the next one. *)
Definition failures (n : nat) : list Event :=
  flat_map (fun k => [Error; TimerFired k]) (seq 0 n).

(** The events of a period without success: failures and timers only. *)
Definition failureOnly (e : Event) : bool :=
  match e with
  | Error | TimerFired _ => true
  | Open | Reconnect | Disconnect => false
  end.

Definition maxReached : string := "Max reconnection attempts reached".

(** The state that the channel is in once it has given up: five timers
    set and fired, six connections opened, and [extra] errors reported. *)
Definition givenUp (i : Z) (extra : nat) : State :=
  {| isConnected := false; connectionError := Some maxReached;
     eventSource := Some 5%nat; reconnectTimeout := Some 4%nat;
     reconnectAttempts := 5; eventSources := 6;
     scheduled := [i * 1; i * 2; i * 3; i * 4; i * 5];
     pending := []; reported := replicate extra maxReached |}.

(** *** The message handler *)

Record Env : Type := mkEnv {
  cache : QueryCache;
  toasts : list Toast;
  delivered : list JsValue
}.

Definition withCache (f : QueryCache -> QueryCache) (e : Env) : Env :=
  {| cache := f (cache e); toasts := toasts e; delivered := delivered e |}.

Definition toast (t : Toast) (e : Env) : Env :=
  {| cache := cache e; toasts := toasts e ++ [t]; delivered := delivered e |}.

(** [onEvent?.(data)]: the caller's handler is given the event. *)
Definition onEvent (d : JsValue) (e : Env) : Env :=
  {| cache := cache e; toasts := toasts e; delivered := delivered e ++ [d] |}.

(** [v.k] for [v] other than [null] and [undefined]. *)
Definition get (v : JsValue) (k : string) : JsValue :=
  match v with
  | JObj fs => Js.getField k fs
  | _ => JUndefined
  end.

(** [v?.k]. *)
Definition optGet (v : JsValue) (k : string) : JsValue := get v k.

(** [`${v}`]. *)
Definition toString (v : JsValue) : string :=
  match v with
  | JUndefined => "undefined"
  | JNull => "null"
  | JBool true => "true"
  | JBool false => "false"
  | JNum n => pretty n
  | JStr s => s
  | JObj _ => "[object Object]"
  end.

(** [v === s] for a string literal [s]. *)
Definition equals (v : JsValue) (s : string) : bool := Js.strictEqPrim v (JStr s).

(** The [switch (data.type)] of [eventSource.onmessage]. *)
Definition handle (d : JsValue) (e : Env) : Env :=
  let type := get d "type" in
  if equals type "connected" then e
  else if equals type "stats_update" then
    withCache (invalidateQueries [JStr "admin"; JStr "dashboard"; JStr "stats"]) e
  else if equals type "order_update" then
    let e := withCache (invalidateQueries
                          [JStr "admin"; JStr "dashboard"; JStr "recent-orders"]) e in
    let e := withCache (invalidateQueries [JStr "admin"; JStr "orders"]) e in
    if equals (optGet (get d "data") "action") "created" then
      toast (mkToast Success "New order received!"
               (Some ("Order " +:+ toString (get (get d "data") "order_number")
                      +:+ " has been placed."))) e
    else e
  else if equals type "product_update" then
    let e := withCache (invalidateQueries
                          [JStr "admin"; JStr "dashboard"; JStr "top-products"]) e in
    withCache (invalidateQueries [JStr "admin"; JStr "products"]) e
  else if equals type "customer_update" then
    let e := withCache (invalidateQueries
                          [JStr "admin"; JStr "dashboard"; JStr "recent-customers"]) e in
    withCache (invalidateQueries [JStr "admin"; JStr "customers"]) e
  else e.

(** [eventSource.onmessage], given the result of [JSON.parse(event.data)]
    ([None] when it throws). Reading [data.type] of [null] throws as well;
    the [catch] swallows both. *)
Definition onmessage (parsed : option JsValue) (e : Env) : Env :=
  match parsed with
  | None | Some JNull | Some JUndefined => e
  | Some d => onEvent d (handle d e)
  end.

End useAdminRealtime.

(** ** src/hooks/use-admin-realtime.ts: the optimistic-update hook *)

Module useOptimisticUpdate.

(** What was handed to the caller's [options.onSuccess] / [options.onError]. *)
Inductive Callback : Type :=
  | OnSuccess (result : option JsValue)
  | OnError (error : string) (rollbackData : option JsValue).

Record Env : Type := mkEnv {
  cache : QueryCache;
  pendingUpdates : gmap string (option JsValue);
  toasts : list Toast;
  callbacks : list Callback
}.

(** The frame of a call suspended at [await mutationFn()]: the locals that
    the code after the [await] still reads. *)
Record Suspended : Type := mkSuspended {
  queryKey : list JsValue;
  updateId : string;
  previousData : option JsValue
}.

(** [updateOptimistically] up to the [await]; [updateId] is the id after
    [options?.updateId || Math.random().toString(36)]. *)
Definition updateOptimistically (queryKey : list JsValue)
    (updateFn : option JsValue -> option JsValue) (updateId : string)
    (e : Env) : Suspended * Env :=
  let previousData := getQueryData queryKey (cache e) in
  let c := setQueryData queryKey (UFunction updateFn) (cache e) in
  ({| queryKey := queryKey; updateId := updateId; previousData := previousData |},
   {| cache := c;
      pendingUpdates := <[updateId := previousData]> (pendingUpdates e);
      toasts := toasts e; callbacks := callbacks e |}).

(** What the caller's [options.onSuccess] and [options.onError] do when
    they are called: [None] when the call returns, [Some error] when it
    throws [error]. They are closures of the caller and are only run once
    the mutation has settled, so what they do is given with the outcome of
    the mutation; a callback that was not given returns. *)
Record Callbacks : Type := mkCallbacks {
  onSuccess : option JsValue -> option string;
  onError : string -> option JsValue -> option string
}.

(** Callbacks that return. *)
Definition quiet : Callbacks := mkCallbacks (fun _ => None) (fun _ _ => None).

(** The [catch] block: the rollback, the pending marker, [onError], and,
    unless [onError] throws, the notification and the error thrown on. *)
Definition catchBlock (k : Suspended) (h : Callbacks) (error : string) (e : Env)
  : Outcome * Env :=
  let c := setQueryData (queryKey k) (UValue (previousData k)) (cache e) in
  let pending := base.delete (updateId k) (pendingUpdates e) in
  let called := callbacks e ++ [OnError error (previousData k)] in
  match onError h error (previousData k) with
  | Some thrown =>
      (Rejected thrown,
       {| cache := c; pendingUpdates := pending; toasts := toasts e; callbacks := called |})
  | None =>
      (Rejected error,
       {| cache := c; pendingUpdates := pending;
          toasts := toasts e ++
            [mkToast Failure "Update failed"
               (Some "The change has been reverted. Please try again.")];
          callbacks := called |})
  end.

(** [updateOptimistically] from the [await] on, run when the mutation
    settles, on the environment as it is by then. The result is the
    value returned or the error thrown. [onSuccess] is called inside the
    [try]: when it throws, the [catch] block runs as for a failed
    mutation. *)
Definition resume (k : Suspended) (h : Callbacks) (o : Outcome) (e : Env) : Outcome * Env :=
  match o with
  | Resolved result =>
      let e' :=
        {| cache := setQueryData (queryKey k) (UValue result) (cache e);
           pendingUpdates := base.delete (updateId k) (pendingUpdates e);
           toasts := toasts e;
           callbacks := callbacks e ++ [OnSuccess result] |} in
      match onSuccess h result with
      | None => (Resolved result, e')
      | Some thrown => catchBlock k h thrown e'
      end
  | Rejected error => catchBlock k h error e
  end.

End useOptimisticUpdate.

(** ** src/hooks/use-admin-mutations.ts *)

Module useAdminMutations.

Inductive Hook : Type :=
  | useUpdateOrderStatus | useCreateProduct | useUpdateProduct | useDeleteProduct
  | useCreateCategory | useUpdateCategory | useDeleteCategory
  | useUpdateCustomer | useDeleteCustomer
  | useUpdateSettings | useResetSettings.

Record Env : Type := mkEnv {
  cache : QueryCache;
  toasts : list Toast
}.

Definition withCache (f : QueryCache -> QueryCache) (e : Env) : Env :=
  {| cache := f (cache e); toasts := toasts e |}.

Definition toast (t : Toast) (e : Env) : Env :=
  {| cache := cache e; toasts := toasts e ++ [t] |}.

(** [mutationFn]: the admin gate, then the call of the API client, whose
    settlement is [backend]. *)
Definition mutationFn (isAdmin : bool) (backend : Outcome) : Outcome :=
  if negb isAdmin then Rejected "Admin access required" else backend.

(** The resource prefix that [onSuccess] invalidates. *)
Definition resourcePrefix (h : Hook) : list JsValue :=
  match h with
  | useUpdateOrderStatus => [JStr "admin"; JStr "orders"]
  | useCreateProduct | useUpdateProduct | useDeleteProduct => [JStr "admin"; JStr "products"]
  | useCreateCategory | useUpdateCategory | useDeleteCategory =>
      [JStr "admin"; JStr "categories"]
  | useUpdateCustomer | useDeleteCustomer => [JStr "admin"; JStr "customers"]
  | useUpdateSettings | useResetSettings => [JStr "admin"; JStr "settings"]
  end.

Definition successToast (h : Hook) (status : string) : Toast :=
  match h with
  | useUpdateOrderStatus =>
      mkToast Success "Order status updated" (Some ("Order status changed to " +:+ status))
  | useCreateProduct => mkToast Success "Product created successfully" None
  | useUpdateProduct => mkToast Success "Product updated successfully" None
  | useDeleteProduct => mkToast Success "Product deleted successfully" None
  | useCreateCategory => mkToast Success "Category created successfully" None
  | useUpdateCategory => mkToast Success "Category updated successfully" None
  | useDeleteCategory => mkToast Success "Category deleted successfully" None
  | useUpdateCustomer => mkToast Success "Customer updated successfully" None
  | useDeleteCustomer => mkToast Success "Customer deleted successfully" None
  | useUpdateSettings => mkToast Success "Settings updated successfully" None
  | useResetSettings => mkToast Success "Settings reset to defaults successfully" None
  end.

(** [error?.message || fallback]. *)
Definition messageOr (error fallback : string) : string :=
  if String.eqb error EmptyString then fallback else error.

Definition failureToast (h : Hook) (error : string) : Toast :=
  match h with
  | useUpdateOrderStatus =>
      mkToast Failure "Failed to update order status" (Some (messageOr error "Please try again."))
  | useCreateProduct =>
      mkToast Failure (messageOr error "Failed to create product. Please try again.") None
  | useUpdateProduct =>
      mkToast Failure (messageOr error "Failed to update product. Please try again.") None
  | useDeleteProduct =>
      mkToast Failure (messageOr error "Failed to delete product. Please try again.") None
  | useCreateCategory =>
      mkToast Failure (messageOr error "Failed to create category. Please try again.") None
  | useUpdateCategory =>
      mkToast Failure (messageOr error "Failed to update category. Please try again.") None
  | useDeleteCategory =>
      mkToast Failure (messageOr error "Failed to delete category. Please try again.") None
  | useUpdateCustomer =>
      mkToast Failure (messageOr error "Failed to update customer. Please try again.") None
  | useDeleteCustomer =>
      mkToast Failure (messageOr error "Failed to delete customer. Please try again.") None
  | useUpdateSettings =>
      mkToast Failure (messageOr error "Failed to update settings. Please try again.") None
  | useResetSettings =>
      mkToast Failure (messageOr error "Failed to reset settings. Please try again.") None
  end.

(** [onSuccess]: the settings hooks invalidate their prefix only, the
    others their resource prefix and the dashboard prefix. *)
Definition onSuccess (h : Hook) (status : string) (e : Env) : Env :=
  let e := withCache (invalidateQueries (resourcePrefix h)) e in
  let e :=
    match h with
    | useUpdateSettings | useResetSettings => e
    | _ => withCache (invalidateQueries [JStr "admin"; JStr "dashboard"]) e
    end in
  toast (successToast h status) e.

Definition onError (h : Hook) (error : string) (e : Env) : Env :=
  toast (failureToast h error) e.

(** [useMutation(...).mutate(variables)], as the library runs the three
    callbacks given by a hook: [mutationFn] is awaited, then [onSuccess] or
    [onError] runs; [status] is [variables.status]. *)
Definition mutate (h : Hook) (isAdmin : bool) (status : string) (backend : Outcome)
    (e : Env) : Outcome * Env :=
  match mutationFn isAdmin backend with
  | Resolved d => (Resolved d, onSuccess h status e)
  | Rejected err => (Rejected err, onError h err e)
  end.

End useAdminMutations.

(** ** src/lib/admin-cache-manager.ts: the module-level singleton *)

Module Singleton.

(** The objects involved, by address: [clients] holds the cache of every
    [QueryClient] constructed, [managers] the [queryClient] field of every
    [AdminCacheManager] constructed; [adminCacheManager] is the module
    variable. An address is the position in the list. *)
Record Heap : Type := mkHeap {
  clients : list (gmap string Query);
  managers : list nat;
  adminCacheManager : option nat
}.

Definition empty : Heap := {| clients := []; managers := []; adminCacheManager := None |}.

(** [new QueryClient()]. *)
Definition newQueryClient (h : Heap) : nat * Heap :=
  (length (clients h),
   {| clients := clients h ++ [∅]; managers := managers h;
      adminCacheManager := adminCacheManager h |}).

(** [new AdminCacheManager(queryClient)]. *)
Definition newAdminCacheManager (queryClient : nat) (h : Heap) : nat * Heap :=
  (length (managers h),
   {| clients := clients h; managers := managers h ++ [queryClient];
      adminCacheManager := adminCacheManager h |}).

Definition getAdminCacheManager (queryClient : nat) (h : Heap) : nat * Heap :=
  match adminCacheManager h with
  | None =>
      let '(m, h) := newAdminCacheManager queryClient h in
      (m, {| clients := clients h; managers := managers h; adminCacheManager := Some m |})
  | Some m => (m, h)
  end.

Definition useAdminCacheManager (h : Heap) : nat * Heap :=
  let '(queryClient, h) := newQueryClient h in
  getAdminCacheManager queryClient h.

(** A method of the manager at address [m] that transforms the cache of
    [this.queryClient]. *)
Definition call (m : nat) (method : gmap string Query -> gmap string Query) (h : Heap) : Heap :=
  match managers h !! m with
  | Some qc =>
      {| clients := alter method qc (clients h); managers := managers h;
         adminCacheManager := adminCacheManager h |}
  | None => h
  end.


End Singleton.

(** ** src/lib/api-client.ts *)

Module ApiClient.

Definition API_BASE_URL : string := "/api".

Record ApiError : Type := mkApiError {
  message : string;
  statusCode : option Z;
  errorCode : JsValue;
  userFriendly : bool
}.

(** A [Response]: its status and what [response.json()] resolves to
    ([None] when it rejects). *)
Record Response : Type := mkResponse {
  status : Z;
  json : option JsValue
}.

Definition ok (r : Response) : bool := (200 <=? status r) && (status r <=? 299).

(** What a call of [fetch] does: it resolves to a response, or it throws;
    [fetchTypeError] tells whether the exception is a [TypeError] whose
    message includes the word fetch. *)
Inductive FetchResult : Type :=
  | Responds (r : Response)
  | Throws (fetchTypeError : bool).

(** The world outside the client: what the n-th [fetch] will do, and what
    [getAccessToken] reads from the cookie after n calls of [fetch]. *)
Record Backend : Type := mkBackend {
  network : nat -> FetchResult;
  accessToken : nat -> option string
}.

Record Call : Type := mkCall {
  url : string;
  authorization : option string
}.

(** What the client has done so far: its calls of [fetch], whether it
    called [authStore.logout()], what it assigned to
    [window.location.href]. *)
Record World : Type := mkWorld {
  calls : list Call;
  loggedOut : bool;
  location : option string
}.

Definition start : World := {| calls := []; loggedOut := false; location := None |}.

Definition getAccessToken (b : Backend) (w : World) : option string :=
  accessToken b (length (calls w)).

Definition fetch (b : Backend) (c : Call) (w : World) : FetchResult * World :=
  (network b (length (calls w)),
   {| calls := calls w ++ [c]; loggedOut := loggedOut w; location := location w |}).

(** [haystack.includes(needle)]. *)
Fixpoint includes (needle haystack : string) : bool :=
  String.prefix needle haystack ||
  match haystack with
  | EmptyString => false
  | String _ rest => includes needle rest
  end.

(** [v.k]; [None] is the [TypeError] on [null] and [undefined]. *)
Definition prop (v : JsValue) (k : string) : option JsValue :=
  match v with
  | JUndefined | JNull => None
  | JObj fs => Some (Js.getField k fs)
  | _ => Some JUndefined
  end.

(** [v?.k]. *)
Definition optProp (v : JsValue) (k : string) : JsValue :=
  match v with
  | JObj fs => Js.getField k fs
  | _ => JUndefined
  end.

(** [x && typeof x === 'string'], with the string. *)
Definition nonEmptyString (v : JsValue) : option string :=
  match v with
  | JStr s => if Js.truthy v then Some s else None
  | _ => None
  end.

Definition statusMessage (status : Z) : string :=
  if status =? 400 then "Invalid request. Please check your input and try again."
  else if status =? 401 then "You need to log in to access this feature."
  else if status =? 403 then "You don't have permission to perform this action."
  else if status =? 404 then
    "This email address is not registered. Please check your email or create a new account."
  else if status =? 409 then
    "This action conflicts with existing data. Please refresh and try again."
  else if status =? 422 then "The provided data is invalid. Please check your input."
  else if status =? 429 then "Too many requests. Please wait a moment before trying again."
  else if status =? 500 then "Server error. Please try again later."
  else if (status =? 502) || (status =? 503) || (status =? 504) then
    "Service temporarily unavailable. Please try again later."
  else "Something went wrong. Please try again later.".

(** [x && typeof x === 'string' && !x.includes('HTTP error!')]. *)
Definition plainMessage (v : JsValue) : option string :=
  match nonEmptyString v with
  | Some s => if includes "HTTP error!" s then None else Some s
  | None => None
  end.

(** [getUserFriendlyErrorMessage]; [None] when reading a property throws. *)
Definition getUserFriendlyErrorMessage (status : Z) (errorData : JsValue) : option string :=
  match prop errorData "details" with
  | None => None
  | Some details =>
      match nonEmptyString (optProp details "error") with
      | Some s => Some s
      | None =>
          match plainMessage (optProp errorData "error") with
          | Some s => Some s
          | None =>
              match plainMessage (optProp errorData "message") with
              | Some s => Some s
              | None => Some (statusMessage status)
              end
          end
      end
  end.

(** [a || b]. *)
Definition orElse (a b : JsValue) : JsValue := if Js.truthy a then a else b.

Definition networkError : ApiError :=
  mkApiError "Network error. Please check your internet connection." None
    (JStr "NETWORK_ERROR") true.

Definition unknownError : ApiError :=
  mkApiError "An unexpected error occurred. Please try again." None
    (JStr "UNKNOWN_ERROR") true.

Definition sessionExpired : ApiError :=
  mkApiError "Session expired. Please login again." (Some 401) (JStr "SESSION_EXPIRED") true.

(** The [catch] of [request] for an exception that is not an [ApiError]. *)
Definition caught (fetchTypeError : bool) : ApiError :=
  if fetchTypeError then networkError else unknownError.

(** The error thrown for a response that is not ok. *)
Definition errorOf (r : Response) : ApiError :=
  let errorData := default (JObj []) (json r) in
  match getUserFriendlyErrorMessage (status r) errorData with
  | Some msg =>
      mkApiError msg (Some (status r))
        (orElse (optProp errorData "errorCode")
                (optProp (optProp errorData "details") "errorCode")) true
  | None => unknownError
  end.

(** [return await response.json()]. *)
Definition bodyOf (r : Response) : JsValue + ApiError :=
  match json r with
  | Some v => inl v
  | None => inr unknownError
  end.

(** [refreshTokens]: one POST to the refresh endpoint; [true] exactly
    when it answers with an ok status. *)
Definition refreshTokens (b : Backend) (baseUrl : string) (w : World) : bool * World :=
  let '(r, w) := fetch b (mkCall (baseUrl +:+ "/auth/refresh-token") None) w in
  match r with
  | Responds resp => (ok resp, w)
  | Throws _ => (false, w)
  end.

(** [request(endpoint, options)] for the options its callers pass (a
    method and a body, no headers); [hasWindow] is
    [typeof window !== 'undefined']. *)
Definition request (b : Backend) (hasWindow : bool) (baseUrl endpoint : string)
    (w : World) : (JsValue + ApiError) * World :=
  let url := baseUrl +:+ endpoint in
  let accessToken := getAccessToken b w in
  let '(r, w) := fetch b (mkCall url accessToken) w in
  match r with
  | Throws t => (inr (caught t), w)
  | Responds response =>
      if (status response =? 401)
         && negb (includes "/auth/refresh-token" endpoint)
         && negb (includes "/auth/login" endpoint)
      then
        let '(refreshSuccess, w) := refreshTokens b baseUrl w in
        if refreshSuccess then
          let newAccessToken := getAccessToken b w in
          let retryAuthorization :=
            match newAccessToken with Some t => Some t | None => accessToken end in
          let '(r', w) := fetch b (mkCall url retryAuthorization) w in
          match r' with
          | Throws t => (inr (caught t), w)
          | Responds retryResponse =>
              if ok retryResponse then (bodyOf retryResponse, w)
              else (inr (errorOf retryResponse), w)
          end
        else
          let w :=
            if hasWindow then
              {| calls := calls w; loggedOut := true; location := Some "/login" |}
            else w in
          (inr sessionExpired, w)
      else if negb (ok response) then (inr (errorOf response), w)
      else (bodyOf response, w)
  end.

(** Whether a call of [fetch] resolved to a response with an ok status. *)
Definition answeredOk (r : FetchResult) : bool :=
  match r with
  | Responds resp => ok resp
  | Throws _ => false
  end.

(** What [request] returns for the response, or the exception, of its
    last call of [fetch]. *)
Definition settle (r : FetchResult) : JsValue + ApiError :=
  match r with
  | Responds resp => if ok resp then bodyOf resp else inr (errorOf resp)
  | Throws t => inr (caught t)
  end.

(** How often [fetch] was called on [u]. *)
Definition fetches (u : string) (w : World) : nat :=
  length (List.filter (fun c => String.eqb (url c) u) (calls w)).

End ApiClient.

(** ** The realtime policy: what an incoming event invalidates *)

Module RealtimePolicy.

(** The prefixes invalidated for an event of the given [type]. *)
Definition prefixes (type : JsValue) : list (list JsValue) :=
  match type with
  | JStr t =>
      if String.eqb t "stats_update" then
        [[JStr "admin"; JStr "dashboard"; JStr "stats"]]
      else if String.eqb t "order_update" then
        [[JStr "admin"; JStr "dashboard"; JStr "recent-orders"]; [JStr "admin"; JStr "orders"]]
      else if String.eqb t "product_update" then
        [[JStr "admin"; JStr "dashboard"; JStr "top-products"]; [JStr "admin"; JStr "products"]]
      else if String.eqb t "customer_update" then
        [[JStr "admin"; JStr "dashboard"; JStr "recent-customers"];
         [JStr "admin"; JStr "customers"]]
      else []
  | _ => []
  end.

Definition effects (type : JsValue) : list InvalidationPolicy.Effect :=
  map InvalidationPolicy.Invalidate (prefixes type).

End RealtimePolicy.

(** ** Small caches and events to run the definitions on *)

Module Examples.

Definition entry (key : list JsValue) (d : Z) (stale : bool) : string * Query :=
  (hashKey key, mkQuery key (Some (JNum d)) stale).

(** A cache with one fresh entry of each kind for [orders], and one
    dashboard entry. *)
Definition ordersCache : gmap string Query :=
  list_to_map
    [ entry (ADMIN_CACHE_KEYS.stats orders) 1 false;
      entry (ADMIN_CACHE_KEYS.detail orders "42") 2 false;
      entry (ADMIN_CACHE_KEYS.list orders (JObj [("page", JNum 1); ("limit", JNum 20)])) 3 false;
      entry ADMIN_CACHE_KEYS.dashboard.overview 4 false ].

(** The same cache after an invalidation of the orders: the three entries
    of [orders] are stale, the dashboard entry is fresh. *)
Definition staleOrdersCache : gmap string Query :=
  list_to_map
    [ entry (ADMIN_CACHE_KEYS.stats orders) 1 true;
      entry (ADMIN_CACHE_KEYS.detail orders "42") 2 true;
      entry (ADMIN_CACHE_KEYS.list orders (JObj [("page", JNum 1); ("limit", JNum 20)])) 3 true;
      entry ADMIN_CACHE_KEYS.dashboard.overview 4 false ].

(** A cache whose only entry is the detail of the order with the empty id. *)
Definition emptyIdCache : gmap string Query :=
  list_to_map [ entry (ADMIN_CACHE_KEYS.detail orders EmptyString) 1 false ].

Definition orderUpdate : JsValue :=
  JObj [("type", JStr "order_update"); ("timestamp", JStr "2025-01-01T00:00:00Z")].

Definition pageThenLimit : JsValue := JObj [("page", JNum 1); ("limit", JNum 20)].
Definition limitThenPage : JsValue := JObj [("limit", JNum 20); ("page", JNum 1)].

(** A backend that answers 401 once, accepts the token refresh, and then
    answers the request. *)
Definition refreshingBackend : ApiClient.Backend :=
  {| ApiClient.network := fun n =>
       match n with
       | O => ApiClient.Responds (ApiClient.mkResponse 401 (Some (JObj [])))
       | S O => ApiClient.Responds (ApiClient.mkResponse 200 (Some (JObj [])))
       | _ => ApiClient.Responds (ApiClient.mkResponse 200 (Some (JNum 7)))
       end;
     ApiClient.accessToken := fun n =>
       match n with
       | O | S O => Some "expired-token"
       | _ => Some "fresh-token"
       end |}.

End Examples.

(** ** The dashboard hook: seeding and optimistic updaters

    [useAdminDashboard] and [useAdminDashboardOptimistic], which call the
    cache keys and the cache manager above. *)

Module useAdminDashboard.

Module ADMIN_QUERY_KEYS.
Definition stats : list JsValue := [JStr "admin"; JStr "dashboard"; JStr "stats"].
Definition overview : list JsValue := [JStr "admin"; JStr "dashboard"; JStr "overview"].
Definition recentOrders : list JsValue := [JStr "admin"; JStr "dashboard"; JStr "recent-orders"].
Definition topProducts : list JsValue := [JStr "admin"; JStr "dashboard"; JStr "top-products"].
Definition recentCustomers : list JsValue :=
  [JStr "admin"; JStr "dashboard"; JStr "recent-customers"].
End ADMIN_QUERY_KEYS.

(** [initialData]; a field is [None] when it is [undefined]. *)
Record AdminDashboardData : Type := mkData {
  stats : option JsValue;
  overview : option JsValue;
  recentOrders : option JsValue;
  topProducts : option JsValue;
  recentCustomers : option JsValue
}.

(** The seeding block of [useAdminDashboard]: the five [setQueryData] calls
    that it makes when it is given initial data and the user is an admin.
    The [useQuery] calls follow in [render]. *)
Definition seed (isAdmin : bool) (initialData : option AdminDashboardData)
    (timeRange : string) (c : QueryCache) : QueryCache :=
  match initialData with
  | Some d =>
      if isAdmin then
        let c := setQueryData (ADMIN_CACHE_KEYS.dashboard.stats (JStr timeRange))
                   (UValue (stats d)) c in
        let c := setQueryData ADMIN_CACHE_KEYS.dashboard.overview (UValue (overview d)) c in
        let c := setQueryData ADMIN_CACHE_KEYS.dashboard.recentOrders
                   (UValue (recentOrders d)) c in
        let c := setQueryData ADMIN_CACHE_KEYS.dashboard.topProducts
                   (UValue (topProducts d)) c in
        setQueryData ADMIN_CACHE_KEYS.dashboard.recentCustomers (UValue (recentCustomers d)) c
      else c
  | None => c
  end.

(** The key under which the stats query of [useAdminDashboard] reads. *)
Definition statsQueryKey (timeRange : string) : list JsValue :=
  ADMIN_CACHE_KEYS.dashboard.stats (JStr timeRange).

(** [useQuery] belongs to the query client, which is not among the
    sources: what mounting a query with a key and an [initialData] does to
    the cache is a parameter. *)
Definition UseQuery : Type := list JsValue -> option JsValue -> QueryCache -> QueryCache.

(** The four [useQuery] calls of [useAdminDashboard], each with its
    [queryKey] and its [initialData] ([initialData?.stats] and so on). There
    is no query for the recent customers. *)
Definition queries (initialData : option AdminDashboardData) (timeRange : string)
  : list (list JsValue * option JsValue) :=
  [ (statsQueryKey timeRange, initialData ≫= stats);
    (ADMIN_QUERY_KEYS.overview, initialData ≫= overview);
    (ADMIN_QUERY_KEYS.recentOrders, initialData ≫= recentOrders);
    (ADMIN_QUERY_KEYS.topProducts, initialData ≫= topProducts) ].

Definition mountAll (useQuery : UseQuery) (c : QueryCache)
    (qs : list (list JsValue * option JsValue)) : QueryCache :=
  foldl (fun c q => useQuery (fst q) (snd q) c) c qs.

(** The first render of [useAdminDashboard], as far as the cache goes: the
    seeding block, then the four [useQuery] calls. (Whether a query is
    enabled decides on fetching, which comes later.) *)
Definition render (useQuery : UseQuery) (isAdmin : bool)
    (initialData : option AdminDashboardData) (timeRange : string) (c : QueryCache)
  : QueryCache :=
  mountAll useQuery (seed isAdmin initialData timeRange c) (queries initialData timeRange).

(** What is assumed of [useQuery]: mounting a query leaves every other
    entry as it is, keeps the data of a query that has data, adds no data
    when [initialData] is [undefined], and gives a query that was not in
    the cache its [initialData] as data. *)
Record MountsQueries (useQuery : UseQuery) : Prop := mkMountsQueries {
  mount_other : forall key init (c : QueryCache) (h : string),
    h <> hashKey key -> useQuery key init c !! h = c !! h;
  mount_keeps : forall key init (c : QueryCache) v,
    getQueryData key c = Some v -> getQueryData key (useQuery key init c) = Some v;
  mount_undefined : forall key (c : QueryCache),
    getQueryData key (useQuery key None c) = getQueryData key c;
  mount_new : forall key init (c : QueryCache),
    c !! hashKey key = None -> getQueryData key (useQuery key init c) = init
}.

(** A [useQuery] that does this and no more: a query that is not in the
    cache is added with its [initialData]. *)
Definition mountQuery : UseQuery := fun key init c =>
  match c !! hashKey key with
  | Some _ => c
  | None => <[hashKey key := mkQuery key init false]> c
  end.

Definition invalidateAll (c : QueryCache) : QueryCache :=
  invalidateQueries [JStr "admin"; JStr "dashboard"] c.

(** [useAdminDashboardOptimistic]. *)
Definition updateStatsOptimistically (updater : option JsValue -> option JsValue)
    (c : QueryCache) : QueryCache :=
  setQueryData ADMIN_QUERY_KEYS.stats (UFunction updater) c.

Definition updateOrdersOptimistically (updater : option JsValue -> option JsValue)
    (c : QueryCache) : QueryCache :=
  setQueryData ADMIN_QUERY_KEYS.recentOrders (UFunction updater) c.

Definition updateProductsOptimistically (updater : option JsValue -> option JsValue)
    (c : QueryCache) : QueryCache :=
  setQueryData ADMIN_QUERY_KEYS.topProducts (UFunction updater) c.

End useAdminDashboard.

(** ** src/app/api/admin/events/route.ts: the events that the route sends *)

Module EventsRoute.

(** The three objects handed to [sendEvent]; [timestamp] is
    [new Date().toISOString()]. *)
Definition connected (timestamp : string) : JsValue :=
  JObj [("type", JStr "connected"); ("timestamp", JStr timestamp);
        ("message", JStr "Connected to admin dashboard events")].

Definition statsUpdate (timestamp : string) : JsValue :=
  JObj [("type", JStr "stats_update"); ("timestamp", JStr timestamp);
        ("data", JObj [("heartbeat", JBool true)])].

Definition orderUpdate (timestamp : string) : JsValue :=
  JObj [("type", JStr "order_update"); ("timestamp", JStr timestamp);
        ("data", JObj [("action", JStr "heartbeat")])].

(** What the stream carries: the connection event, then heartbeats. *)
Inductive Sent : Type := Connected | StatsTick | OrderTick.

Definition payload (e : Sent) (timestamp : string) : JsValue :=
  match e with
  | Connected => connected timestamp
  | StatsTick => statsUpdate timestamp
  | OrderTick => orderUpdate timestamp
  end.

End EventsRoute.

(** ** src/lib/admin-cache-manager.ts: cleanup *)

Module CacheCleanup.

(** What [cleanup] reads of a query besides its key:
    [state.dataUpdatedAt] (0 for a query that never had data) and
    [getObserversCount()]. *)
Record Usage : Type := mkUsage {
  dataUpdatedAt : Z;
  observers : nat
}.

Definition oneHour : Z := 60 * 60 * 1000.

(** The test of the loop body; a query without a usage record is taken as
    never updated and unobserved. *)
Definition expired (now : Z) (usage : gmap string Usage) (hash : string) : bool :=
  let u := default (mkUsage 0 0) (usage !! hash) in
  (dataUpdatedAt u <? now - oneHour) && Nat.eqb (observers u) 0.

(** The keys for which the loop calls [removeQueries]: those of the
    queries of [getAll()] that pass the test. *)
Definition expiredKeys (now : Z) (usage : gmap string Usage) (c : QueryCache)
  : list (list JsValue) :=
  omap (fun hq => if expired now usage (fst hq) then Some (queryKey (snd hq)) else None)
       (map_to_list c).

(** [cleanup()], with [Date.now()] read as [now]. *)
Definition cleanup (now : Z) (usage : gmap string Usage) (c : QueryCache) : QueryCache :=
  foldl (fun c key => removeQueries key c) c (expiredKeys now usage c).

End CacheCleanup.

(** ** src/lib/admin-cache-manager.ts: repeated use of the singleton hook *)

Module SingletonUse.

(** [n] components calling [useAdminCacheManager], one after the other:
    the managers they receive, and the heap afterwards. *)
Fixpoint mount (n : nat) (h : Singleton.Heap) : list nat * Singleton.Heap :=
  match n with
  | O => ([], h)
  | S n' =>
      let '(m, h) := Singleton.useAdminCacheManager h in
      let '(ms, h) := mount n' h in
      (m :: ms, h)
  end.

End SingletonUse.

(** ** src/hooks/use-admin-realtime.ts: the counters of the optimistic hook *)

Module PendingUpdates.

Definition pendingUpdatesCount (e : useOptimisticUpdate.Env) : nat :=
  size (useOptimisticUpdate.pendingUpdates e).

Definition hasPendingUpdates (e : useOptimisticUpdate.Env) : bool :=
  negb (Nat.eqb (pendingUpdatesCount e) 0).

End PendingUpdates.

(** ** src/hooks/use-admin-mutations.ts: the resource of a hook *)

Module HookResource.

(** The resource whose prefix a hook invalidates; the settings hooks have
    none among the resources of the cache manager. *)
Definition resourceOf (h : useAdminMutations.Hook) : option Resource :=
  match h with
  | useAdminMutations.useUpdateOrderStatus => Some orders
  | useAdminMutations.useCreateProduct | useAdminMutations.useUpdateProduct
  | useAdminMutations.useDeleteProduct => Some products
  | useAdminMutations.useCreateCategory | useAdminMutations.useUpdateCategory
  | useAdminMutations.useDeleteCategory => Some categories
  | useAdminMutations.useUpdateCustomer | useAdminMutations.useDeleteCustomer => Some customers
  | useAdminMutations.useUpdateSettings | useAdminMutations.useResetSettings => None
  end.

End HookResource.

(** ** src/lib/api-client.ts: the methods built on [request] *)

Module ApiMethods.

Import ApiClient.

(** [get(endpoint)]: [request] with the method GET. *)
Definition get (b : Backend) (hasWindow : bool) (baseUrl endpoint : string) (w : World)
  : (JsValue + ApiError) * World :=
  request b hasWindow baseUrl endpoint w.

(** [put(endpoint, data)]: [request] with the method PUT and the body. *)
Definition put (b : Backend) (hasWindow : bool) (baseUrl endpoint : string) (w : World)
  : (JsValue + ApiError) * World :=
  request b hasWindow baseUrl endpoint w.

(** [timeRange ? `?timeRange=${timeRange}` : ''] *)
Definition timeRangeParams (timeRange : option string) : string :=
  match timeRange with
  | Some t => if Js.truthy (JStr t) then "?timeRange=" +:+ t else EmptyString
  | None => EmptyString
  end.

(** The fallback object of [getAdminOrderStatsEnhanced]; [timestamp] is
    [new Date().toISOString()]. *)
Definition orderStatsFallback (timestamp : string) : JsValue :=
  JObj [("success", JBool true);
        ("data", JObj [("totalOrders", JNum 0); ("pendingOrders", JNum 0);
                       ("confirmedOrders", JNum 0); ("deliveredOrders", JNum 0);
                       ("cancelledOrders", JNum 0); ("totalRevenue", JNum 0);
                       ("averageOrderValue", JNum 0); ("ordersGrowthRate", JNum 0)]);
        ("message", JStr "Order statistics (fallback data)");
        ("timestamp", JStr timestamp)].

(** [getAdminOrderStatsEnhanced(timeRange)]: the [catch] turns every error
    into the fallback object. *)
Definition getAdminOrderStatsEnhanced (b : Backend) (hasWindow : bool) (baseUrl : string)
    (timeRange : option string) (timestamp : string) (w : World) : JsValue * World :=
  match get b hasWindow baseUrl ("/admin/orders/stats" +:+ timeRangeParams timeRange) w with
  | (inl v, w) => (v, w)
  | (inr _, w) => (orderStatsFallback timestamp, w)
  end.

(** [updateAdminOrderStatusEnhanced(id, status, notes)]: the [catch]
    throws the error on. *)
Definition updateAdminOrderStatusEnhanced (b : Backend) (hasWindow : bool) (baseUrl : string)
    (id : string) (w : World) : (JsValue + ApiError) * World :=
  match put b hasWindow baseUrl ("/admin/orders/" +:+ id +:+ "/status") w with
  | (inl v, w) => (inl v, w)
  | (inr err, w) => (inr err, w)
  end.

End ApiMethods.

(** ** The dashboard block of the registry, by prefix *)

Module RegistryShape.

(** The keys of the dashboard block of the registry that lie under the
    dashboard prefix, and the two that do not. *)
Definition underDashboard (key : list JsValue) : Prop :=
  (exists timeRange, key = ADMIN_CACHE_KEYS.dashboard.stats timeRange)
  \/ key = ADMIN_CACHE_KEYS.dashboard.overview
  \/ key = ADMIN_CACHE_KEYS.dashboard.recentOrders
  \/ key = ADMIN_CACHE_KEYS.dashboard.topProducts
  \/ key = ADMIN_CACHE_KEYS.dashboard.recentCustomers.

Definition analyticsOrActivity (key : list JsValue) : Prop :=
  (exists period chartType, key = ADMIN_CACHE_KEYS.dashboard.salesAnalytics period chartType)
  \/ (exists limit, key = ADMIN_CACHE_KEYS.dashboard.activity limit).

End RegistryShape.

(** ** Well-formed values *)

Module JsShape.

(** No object, at any depth, has two fields of the same name. *)
Fixpoint wellFormed (v : JsValue) : Prop :=
  match v with
  | JObj fs =>
      NoDup fs.*1
      /\ (fix each (l : list (string * JsValue)) : Prop :=
            match l with
            | [] => True
            | (_, x) :: rest => wellFormed x /\ each rest
            end) fs
  | _ => True
  end.

End JsShape.

(** ** A cache to run [cleanup] on *)

Module CleanupExample.

Definition bare : list JsValue := ADMIN_CACHE_KEYS.dashboard.stats JUndefined.
Definition ranged : list JsValue := ADMIN_CACHE_KEYS.dashboard.stats (JStr "30").

(** The stats entry without a time range was last updated at time 0 and has
    no observer; the stats entry of the time range 30 was updated a minute
    before [now] and is observed. *)
Definition now : Z := 10 * CacheCleanup.oneHour.

Definition cache : gmap string Query :=
  list_to_map [ Examples.entry bare 1 false; Examples.entry ranged 2 false ].

Definition usage : gmap string CacheCleanup.Usage :=
  list_to_map [ (hashKey bare, CacheCleanup.mkUsage 0 0);
                (hashKey ranged, CacheCleanup.mkUsage (now - 60000) 1) ].

End CleanupExample.

(** ** src/hooks/use-admin-realtime.ts: the channel across renders *)

Module RealtimeRenders.

Import useAdminRealtime.

(** What can happen to the hook over its life, when [isAdmin] and [enabled]
    change. A handler or timer callback is a closure of the render that
    made it and reads the options of that render: an event comes with the
    options of its closure. [EffectRerun] is the effect with the
    dependencies [isAdmin, enabled] running again after one of them
    changed: the cleanup of the run before calls [disconnect], the body
    calls [connect] under the new options. *)
Inductive Occurrence : Type :=
  | Handled (o : Options) (e : Event)
  | EffectRerun (o : Options).

Definition occur (s : State) (x : Occurrence) : State :=
  match x with
  | Handled o e => step o s e
  | EffectRerun o => connect o (disconnect s)
  end.

Definition runRenders (s : State) (xs : list Occurrence) : State := foldl occur s xs.

Definition isRerun (x : Occurrence) : bool :=
  match x with
  | Handled _ _ => false
  | EffectRerun _ => true
  end.

(** How often the effect ran again. *)
Definition reruns (xs : list Occurrence) : nat := length (List.filter isRerun xs).

End RealtimeRenders.

(** ** The access token cookie ([ApiClient.getAccessToken]) *)

Module AccessToken.

(** [s.includes(sub)]. *)
Fixpoint includes (sub s : string) : bool :=
  String.prefix sub s ||
  match s with
  | EmptyString => false
  | String _ rest => includes sub rest
  end.

(** [s.split(sep)] for a non-empty separator: the pieces between the
    occurrences of [sep], found from the left. [skip] counts the characters
    of a found separator that are still to be passed, [acc] is the piece
    being read. *)
Fixpoint splitFrom (sep : string) (skip : nat) (acc s : string) : list string :=
  match s with
  | EmptyString => [acc]
  | String c rest =>
      match skip with
      | S k => splitFrom sep k acc rest
      | O =>
          if String.prefix sep s
          then acc :: splitFrom sep (Nat.pred (String.length sep)) EmptyString rest
          else splitFrom sep 0 (acc +:+ String c EmptyString) rest
      end
  end.

Definition split (sep s : string) : list string := splitFrom sep 0 EmptyString s.

(** What the browser supplies: [JSON.parse(atob(segment))], [None] when
    either call throws, and the number a string stands for when it is
    compared with a number ([None] for [NaN]). *)
Record Platform : Type := mkPlatform {
  decode : string -> option JsValue;
  toNumber : string -> option Z
}.

(** [payload.exp]; [None] when reading the property throws, which it does
    on [null] and [undefined]. A primitive has no such property. *)
Definition expOf (payload : JsValue) : option JsValue :=
  match payload with
  | JUndefined | JNull => None
  | JObj fields => Some (Js.getField "exp" fields)
  | JBool _ | JNum _ | JStr _ => Some JUndefined
  end.

(** [exp < now], with [exp] converted to a number. *)
Definition lessThan (P : Platform) (exp : JsValue) (now : Z) : bool :=
  match exp with
  | JNum n => n <? now
  | JBool b => (if b then 1 else 0) <? now
  | JNull => 0 <? now
  | JStr s =>
      match toNumber P s with
      | Some n => n <? now
      | None => false
      end
  | JUndefined | JObj _ => false
  end.

(** What a call leaves behind: the token it returns ([None] for [null]) and
    whether [deleteAccessTokenCookie] ran. *)
Record Answer : Type := mkAnswer {
  token : option string;
  cookieDeleted : bool
}.

Definition nothing : Answer := mkAnswer None false.
Definition removed : Answer := mkAnswer None true.

(** [cookieValue.split('.')[1]] as [atob] receives it: a missing segment
    is [undefined], which [atob] reads as the string of that name. *)
Definition payloadSegment (cookieValue : string) : string :=
  default "undefined" (split "." cookieValue !! 1%nat).

(** The [try] block of [getAccessToken] for a non-empty cookie value, and
    the [return] after it. *)
Definition checkToken (P : Platform) (cookieValue : string) (now : Z) : Answer :=
  match decode P (payloadSegment cookieValue) with
  | None => removed
  | Some payload =>
      match expOf payload with
      | None => removed
      | Some exp =>
          if Js.truthy exp && lessThan P exp now then removed
          else mkAnswer (Some cookieValue) false
      end
  end.

(** [getAccessToken()]: [cookie] is [document.cookie], [now] the time in
    seconds. [pop] and [shift] find an element here, since [parts] has two
    and [split] never returns an empty array. *)
Definition getAccessToken (P : Platform) (hasDocument : bool) (cookie : string) (now : Z)
  : Answer :=
  if negb hasDocument then nothing
  else
    let parts := split "; accessToken=" ("; " +:+ cookie) in
    if (length parts =? 2)%nat then
      let cookieValue :=
        default EmptyString (head (split ";" (default EmptyString (last parts)))) in
      if negb (String.eqb cookieValue EmptyString) then checkToken P cookieValue now
      else nothing
    else nothing.

End AccessToken.

(** A platform and a cookie jar used in examples. *)
Module TokenExample.

Definition platform : AccessToken.Platform :=
  AccessToken.mkPlatform
    (fun seg => if String.eqb seg "b" then Some (JObj [("exp", JNum 2000)]) else None)
    (fun _ => None).

Definition jar : string := "theme=dark; accessToken=a.b.c; lang=en".

End TokenExample.

(** * Properties *)

(** ** The query cache *)

Section QueryCacheFacts.

Implicit Types (c : gmap string Query) (q : Query) (p : list JsValue) (h : string).

Lemma lookup_invalidateQueries p c h :
  invalidateQueries p c !! h = (fun q => if matches p q then invalidate q else q) <$> c !! h.
Proof. unfold invalidateQueries. by rewrite lookup_fmap. Qed.

Lemma lookup_removeQueries p c h :
  removeQueries p c !! h = c !! h ≫= fun q => if matches p q then None else Some q.
Proof.
  unfold removeQueries. rewrite map_lookup_filter.
  destruct (c !! h) as [q|]; simpl; [|done].
  case_guard as Hg; simpl in *; by destruct (matches p q).
Qed.

Lemma matches_invalidate p q : matches p (invalidate q) = matches p q.
Proof. reflexivity. Qed.

Lemma invalidate_idemp q : invalidate (invalidate q) = invalidate q.
Proof. reflexivity. Qed.

Lemma invalidate_stale q : isInvalidated q = true -> invalidate q = q.
Proof. destruct q as [k d i]; simpl; intros ->; reflexivity. Qed.

Lemma getQueryData_setQueryData key v c :
  getQueryData key (setQueryData key (UValue (Some v)) c) = Some v.
Proof. unfold getQueryData, setQueryData; simpl. by rewrite lookup_insert_eq. Qed.

Lemma getQueryData_setQueryData_undefined key c :
  setQueryData key (UValue None) c = c.
Proof. reflexivity. Qed.

Lemma getQueryData_update key f c v :
  f (getQueryData key c) = Some v ->
  getQueryData key (setQueryData key (UFunction f) c) = Some v.
Proof.
  intros Hf. unfold setQueryData; simpl. rewrite Hf.
  unfold getQueryData. by rewrite lookup_insert_eq.
Qed.

End QueryCacheFacts.

(** ** The invalidation policy *)

Section PolicyFacts.

Import InvalidationPolicy.
Implicit Types (c : gmap string Query) (q : Query) (effects : list Effect).

Lemma evicts_invalidate effects q : evicts effects (invalidate q) = evicts effects q.
Proof. reflexivity. Qed.

Lemma invalidates_invalidate effects q :
  invalidates effects (invalidate q) = invalidates effects q.
Proof. reflexivity. Qed.

(** Running a list of effects in order acts on every entry on its own:
    whatever the order, an entry under some evicted prefix is removed, an
    entry under some invalidated prefix is marked. *)
Lemma lookup_run_effects effects c h :
  perform effects c !! h = c !! h ≫= onEntry effects.
Proof.
  unfold perform. revert c. induction effects as [|e effects IH]; intros c; simpl.
  - by destruct (c !! h).
  - rewrite IH. destruct e as [p|p]; simpl.
    + rewrite lookup_invalidateQueries.
      destruct (c !! h) as [q|]; simpl; [|done].
      unfold onEntry; simpl.
      destruct (matches p q) eqn:Hm; simpl; [|done].
      rewrite evicts_invalidate, invalidates_invalidate.
      destruct (evicts effects q); [done|].
      by destruct (invalidates effects q).
    + rewrite lookup_removeQueries.
      destruct (c !! h) as [q|]; simpl; [|done].
      unfold onEntry; simpl.
      by destruct (matches p q).
Qed.

Lemma onEntry_idemp effects q : onEntry effects q ≫= onEntry effects = onEntry effects q.
Proof.
  unfold onEntry. destruct (evicts effects q) eqn:He; [done|].
  destruct (invalidates effects q) eqn:Hi; simpl.
  - by rewrite evicts_invalidate, He, invalidates_invalidate, Hi.
  - by rewrite He, Hi.
Qed.

Lemma run_effects_idemp effects c :
  perform effects (perform effects c)
  = perform effects c.
Proof.
  apply map_eq; intros h. rewrite !lookup_run_effects.
  destruct (c !! h) as [q|]; simpl; [|done]. apply onEntry_idemp.
Qed.

Lemma invalidateAfterMutation_performed r a id c :
  AdminCacheManager.invalidateAfterMutation r a id c
  = perform (performed r a id) c.
Proof.
  unfold AdminCacheManager.invalidateAfterMutation, performed, perform.
  destruct a; destruct (AdminCacheManager.idGiven id); reflexivity.
Qed.

Lemma idGiven_nonempty (id : string) :
  id <> EmptyString -> AdminCacheManager.idGiven (Some id) = Some id.
Proof. destruct id; [congruence|reflexivity]. Qed.

End PolicyFacts.

(** ** Invalidation after a mutation *)

Section InvalidateAfterMutation.

Import InvalidationPolicy.
Implicit Types (c : gmap string Query) (r : Resource) (a : Action).

Lemma stats_entry_survives_update r (id : string) q :
  queryKey q = statsPrefix r -> onEntry (table r update id) q = Some q.
Proof.
  intros Hk. unfold onEntry, evicts, invalidates, matches; simpl. rewrite Hk.
  destruct r; reflexivity.
Qed.

(** C1, as amended: for every resource, action and non-empty id,
    [invalidateAfterMutation] performs exactly the effects of the table
    row, in the order of the row; entry by entry, an entry under the
    evicted detail prefix is removed, an entry under an invalidated prefix
    is marked stale with its key and data kept, and every other entry,
    present or absent, is as before; in particular an update leaves the
    [{resource}.stats] entry as it was. With an absent or empty id the
    step on the detail key is not performed and the rest of the row is. *)
Theorem invalidateAfterMutation_follows_table r a (id : string) c :
  id <> EmptyString ->
  AdminCacheManager.invalidateAfterMutation r a (Some id) c
    = perform (table r a id) c
  /\ (forall h, AdminCacheManager.invalidateAfterMutation r a (Some id) c !! h
                = c !! h ≫= onEntry (table r a id))
  /\ (forall h q, c !! h = Some q -> queryKey q = statsPrefix r ->
        AdminCacheManager.invalidateAfterMutation r update (Some id) c !! h = Some q)
  /\ AdminCacheManager.invalidateAfterMutation r a None c
      = perform (withoutDetail r a) c
  /\ AdminCacheManager.invalidateAfterMutation r a (Some EmptyString) c
      = perform (withoutDetail r a) c.
Proof.
  intros Hid.
  assert (Hrow : forall a', AdminCacheManager.invalidateAfterMutation r a' (Some id) c
                   = perform (table r a' id) c).
  { intros a'. rewrite invalidateAfterMutation_performed.
    unfold performed. by rewrite idGiven_nonempty. }
  split; [apply Hrow|]. split; [|split; [|split]].
  - intros h. rewrite Hrow. apply lookup_run_effects.
  - intros h q Hq Hk. rewrite Hrow, lookup_run_effects, Hq; simpl.
    by apply stats_entry_survives_update.
  - by rewrite invalidateAfterMutation_performed.
  - by rewrite invalidateAfterMutation_performed.
Qed.

Lemma invalidateAfterMutation_follows_table_witness :
  "42" <> EmptyString
  /\ AdminCacheManager.invalidateAfterMutation orders delete (Some "42") Examples.ordersCache
     = perform (table orders delete "42") Examples.ordersCache.
Proof.
  assert (Hid : "42" <> EmptyString) by discriminate.
  split; [exact Hid|].
  exact (proj1 (invalidateAfterMutation_follows_table orders delete "42"
                  Examples.ordersCache Hid)).
Defined.

(** C1, as stated, fails at the empty id: the update row says that
    [orders.detail.{id}] is invalidated, and the code leaves that entry
    fresh, because [if (id)] is false for the empty string. *)
Lemma invalidateAfterMutation_empty_id_counterexample :
  let h := hashKey (ADMIN_CACHE_KEYS.detail orders EmptyString) in
  (isInvalidated <$>
     (perform (table orders update EmptyString) Examples.emptyIdCache) !! h)
    = Some true
  /\ (isInvalidated <$>
       (AdminCacheManager.invalidateAfterMutation orders update (Some EmptyString)
          Examples.emptyIdCache) !! h) = Some false.
Proof. split; vm_compute; reflexivity. Qed.

End InvalidateAfterMutation.

(** ** Realtime events *)

Section RealtimeEvents.

Import InvalidationPolicy useAdminRealtime.

Lemma equals_eq (t s : string) : equals (JStr t) s = String.eqb t s.
Proof. reflexivity. Qed.

(** The cache after the [switch]: the prefixes of the realtime policy,
    invalidated in order. *)
Lemma cache_handle d e :
  cache (handle d e)
  = perform (RealtimePolicy.effects (get d "type")) (cache e).
Proof.
  unfold handle, RealtimePolicy.effects, RealtimePolicy.prefixes, perform.
  destruct (get d "type") as [| |b|n|t|fs]; try reflexivity.
  rewrite !equals_eq.
  destruct (String.eqb t "connected") eqn:E0.
  { apply String.eqb_eq in E0; subst t; reflexivity. }
  destruct (String.eqb t "stats_update") eqn:E1; [reflexivity|].
  destruct (String.eqb t "order_update") eqn:E2.
  { by destruct (equals _ "created"). }
  destruct (String.eqb t "product_update") eqn:E3; [reflexivity|].
  destruct (String.eqb t "customer_update") eqn:E4; reflexivity.
Qed.

Lemma cache_onmessage d e :
  d <> JNull -> d <> JUndefined ->
  cache (onmessage (Some d) e)
  = perform (RealtimePolicy.effects (get d "type")) (cache e).
Proof.
  intros Hn Hu. destruct d; try congruence; simpl; apply cache_handle.
Qed.

(** Whatever arrives, the handler changes the cache by a list of
    invalidations that depends on the message only. *)
Lemma cache_onmessage_effects parsed :
  exists effects, forall e,
    cache (onmessage parsed e) = perform effects (cache e).
Proof.
  destruct parsed as [d|]; [|by exists []].
  destruct d; try (by exists []);
    eexists; intros e; simpl; apply cache_handle.
Qed.

(** C2, as amended: an [order_update] event invalidates the prefix
    [admin.dashboard.recent-orders] and the whole prefix [admin.orders];
    [product_update] invalidates [admin.dashboard.top-products] and
    [admin.products]; [customer_update] invalidates
    [admin.dashboard.recent-customers] and [admin.customers];
    [stats_update] invalidates [admin.dashboard.stats] only; any other
    type invalidates nothing. Entry by entry: an entry under one of these
    prefixes is marked stale, every other entry is as before, and nothing
    is removed. *)
Theorem onmessage_invalidates_event_prefixes (d : JsValue) (e : Env) :
  d <> JNull -> d <> JUndefined ->
  cache (onmessage (Some d) e)
    = foldl (fun c p => invalidateQueries p c) (cache e)
        (RealtimePolicy.prefixes (get d "type"))
  /\ (forall h, cache (onmessage (Some d) e) !! h
                = cache e !! h ≫= onEntry (RealtimePolicy.effects (get d "type")))
  /\ RealtimePolicy.prefixes (JStr "order_update")
      = [[JStr "admin"; JStr "dashboard"; JStr "recent-orders"]; [JStr "admin"; JStr "orders"]]
  /\ RealtimePolicy.prefixes (JStr "product_update")
      = [[JStr "admin"; JStr "dashboard"; JStr "top-products"]; [JStr "admin"; JStr "products"]]
  /\ RealtimePolicy.prefixes (JStr "customer_update")
      = [[JStr "admin"; JStr "dashboard"; JStr "recent-customers"];
         [JStr "admin"; JStr "customers"]]
  /\ RealtimePolicy.prefixes (JStr "stats_update")
      = [[JStr "admin"; JStr "dashboard"; JStr "stats"]].
Proof.
  intros Hn Hu. split; [|split; [|by repeat split]].
  - rewrite cache_onmessage by done. unfold RealtimePolicy.effects, perform.
    generalize (cache e). induction (RealtimePolicy.prefixes _) as [|p ps IH]; intros c;
      simpl; [done|apply IH].
  - intros h. rewrite cache_onmessage by done. apply lookup_run_effects.
Qed.

Lemma onmessage_invalidates_event_prefixes_witness :
  Examples.orderUpdate <> JNull /\ Examples.orderUpdate <> JUndefined
  /\ cache (onmessage (Some Examples.orderUpdate) (mkEnv Examples.ordersCache [] []))
     = foldl (fun c p => invalidateQueries p c) Examples.ordersCache
         (RealtimePolicy.prefixes (get Examples.orderUpdate "type")).
Proof.
  assert (Hn : Examples.orderUpdate <> JNull) by discriminate.
  assert (Hu : Examples.orderUpdate <> JUndefined) by discriminate.
  split; [exact Hn|]. split; [exact Hu|].
  exact (proj1 (onmessage_invalidates_event_prefixes Examples.orderUpdate
                  (mkEnv Examples.ordersCache [] []) Hn Hu)).
Defined.

(** C2, as stated, fails: on a cache with a fresh [orders.stats] entry and
    a fresh [dashboard.overview] entry, the [order_update] event marks the
    first stale and leaves the second fresh, and the update of an order
    does the opposite. *)
Lemma order_update_event_counterexample :
  let viaEvent := cache (onmessage (Some Examples.orderUpdate)
                           (mkEnv Examples.ordersCache [] [])) in
  let viaMutation :=
    AdminCacheManager.invalidateAfterMutation orders update (Some "42") Examples.ordersCache in
  let stats := hashKey (ADMIN_CACHE_KEYS.stats orders) in
  let overview := hashKey ADMIN_CACHE_KEYS.dashboard.overview in
  (isInvalidated <$> viaEvent !! stats) = Some true
  /\ (isInvalidated <$> viaMutation !! stats) = Some false
  /\ (isInvalidated <$> viaEvent !! overview) = Some false
  /\ (isInvalidated <$> viaMutation !! overview) = Some true.
Proof. repeat split; vm_compute; reflexivity. Qed.

End RealtimeEvents.

(** ** Idempotence of invalidation *)

Section Idempotence.

Import InvalidationPolicy.

(** C8: invalidating a prefix twice in a row is the same as invalidating
    it once; invalidating a prefix whose matching entries are all stale
    already changes nothing, and a stale entry is never changed by an
    invalidation; hence the invalidation of a mutation, and the handling of
    a realtime message, leave the cache the same when applied a second
    time. *)
Theorem invalidation_idempotent (p : list JsValue) (c : gmap string Query) :
  invalidateQueries p (invalidateQueries p c) = invalidateQueries p c
  /\ ((forall h q, c !! h = Some q -> matches p q = true -> isInvalidated q = true) ->
      invalidateQueries p c = c)
  /\ (forall h q, c !! h = Some q -> isInvalidated q = true ->
        invalidateQueries p c !! h = Some q)
  /\ (forall r a id,
        AdminCacheManager.invalidateAfterMutation r a id
          (AdminCacheManager.invalidateAfterMutation r a id c)
        = AdminCacheManager.invalidateAfterMutation r a id c)
  /\ (forall parsed e, useAdminRealtime.cache e = c ->
        useAdminRealtime.cache
          (useAdminRealtime.onmessage parsed (useAdminRealtime.onmessage parsed e))
        = useAdminRealtime.cache (useAdminRealtime.onmessage parsed e)).
Proof.
  split; [|split; [|split; [|split]]].
  - apply (run_effects_idemp [Invalidate p]).
  - intros Hstale. apply map_eq; intros h. rewrite lookup_invalidateQueries.
    destruct (c !! h) as [q|] eqn:Hq; simpl; [|done].
    destruct (matches p q) eqn:Hm; [|done].
    by rewrite invalidate_stale by eauto.
  - intros h q Hq Hstale. rewrite lookup_invalidateQueries, Hq; simpl.
    destruct (matches p q); [|done]. by rewrite invalidate_stale.
  - intros r a id. rewrite !invalidateAfterMutation_performed. apply run_effects_idemp.
  - intros parsed e _. destruct (cache_onmessage_effects parsed) as [effects Heff].
    rewrite !Heff. apply run_effects_idemp.
Qed.

Lemma orders_stale_in_staleOrdersCache h q :
  Examples.staleOrdersCache !! h = Some q ->
  matches [JStr "admin"; JStr "orders"] q = true -> isInvalidated q = true.
Proof.
  intros Hq Hm.
  unfold Examples.staleOrdersCache in Hq. cbn [list_to_map foldr Examples.entry] in Hq.
  repeat (apply lookup_insert_Some in Hq as [[_ <-]|[_ Hq]];
          [first [reflexivity|discriminate Hm]|]).
  by rewrite lookup_empty in Hq.
Defined.

Lemma invalidation_idempotent_witness :
  (forall h q, Examples.staleOrdersCache !! h = Some q ->
               matches [JStr "admin"; JStr "orders"] q = true -> isInvalidated q = true)
  /\ (exists q, Examples.staleOrdersCache !! hashKey (ADMIN_CACHE_KEYS.detail orders "42")
                = Some q
                /\ matches [JStr "admin"; JStr "orders"] q = true)
  /\ invalidateQueries [JStr "admin"; JStr "orders"] Examples.staleOrdersCache
     = Examples.staleOrdersCache.
Proof.
  split; [apply orders_stale_in_staleOrdersCache|]. split.
  - eexists. split; [vm_compute; reflexivity|reflexivity].
  - exact (proj1 (proj2 (invalidation_idempotent [JStr "admin"; JStr "orders"]
                           Examples.staleOrdersCache))
             orders_stale_in_staleOrdersCache).
Defined.

End Idempotence.

(** ** Optimistic updates *)

Section OptimisticUpdates.

Import useOptimisticUpdate.

(** The cache and the pending updates after the [catch] block do not depend
    on what [onError] does. *)
Lemma catchBlock_cache (k : Suspended) (h : Callbacks) (error : string) (e : Env) :
  cache (snd (catchBlock k h error e))
  = setQueryData (queryKey k) (UValue (previousData k)) (cache e).
Proof. unfold catchBlock. by destruct (onError h error (previousData k)). Qed.

Lemma catchBlock_pendingUpdates (k : Suspended) (h : Callbacks) (error : string) (e : Env) :
  pendingUpdates (snd (catchBlock k h error e))
  = base.delete (updateId k) (pendingUpdates e).
Proof. unfold catchBlock. by destruct (onError h error (previousData k)). Qed.

(** Where the rollback does restore: if the key holds the value [v] when an
    optimistic update starts and the awaited mutation fails, then the value
    under the key after the rollback is [v] again, whatever the update
    function wrote and whatever happened to the cache while the mutation
    was pending. The [rollback] closure of the cache manager restores [v]
    in the same way when no [rollbackFn] was given. *)
Lemma rollback_restores_present_value (key : list JsValue)
    (updateFn : option JsValue -> option JsValue) (updateId error : string)
    (h : Callbacks) (v : JsValue) (e later : Env) :
  getQueryData key (cache e) = Some v ->
  let k := fst (updateOptimistically key updateFn updateId e) in
  previousData k = Some v
  /\ getQueryData key (cache (snd (resume k h (Rejected error) later))) = Some v
  /\ (onError h error (Some v) = None -> fst (resume k h (Rejected error) later) = Rejected error)
  /\ (forall c' : gmap string Query,
        getQueryData key
          (AdminCacheManager.rollback
             (fst (AdminCacheManager.updateOptimistically key updateFn None (cache e))) c')
        = Some v).
Proof.
  intros Hv. cbv zeta. cbn [updateOptimistically fst previousData resume].
  split; [exact Hv|]. split; [|split; [|intros c']].
  - rewrite catchBlock_cache. cbn [queryKey previousData]. rewrite Hv.
    apply getQueryData_setQueryData.
  - intros Hq. unfold catchBlock. cbn [previousData]. by rewrite Hv, Hq.
  - simpl. rewrite Hv. apply getQueryData_setQueryData.
Qed.

(** C3: the rollback misses a key that held nothing. When no data is cached
    under the key as an optimistic update starts and the update function
    gives the value [v], a failed mutation leaves [v] under the key: the
    [catch] block writes back the captured [undefined], which
    [setQueryData] ignores. The value after the rollback is not the value
    before the update, while the notification says that the change has
    been reverted. The [rollback] closure of the cache manager misses the
    same case. *)
Theorem rollback_misses_absent_entry (key : list JsValue)
    (updateFn : option JsValue -> option JsValue) (updateId error : string)
    (h : Callbacks) (v : JsValue) (e : Env) :
  getQueryData key (cache e) = None -> updateFn None = Some v ->
  let started := updateOptimistically key updateFn updateId e in
  let settled := resume (fst started) h (Rejected error) (snd started) in
  previousData (fst started) = None
  /\ getQueryData key (cache (snd started)) = Some v
  /\ getQueryData key (cache (snd settled)) = Some v
  /\ getQueryData key (cache (snd settled)) <> getQueryData key (cache e)
  /\ (onError h error None = None ->
      fst settled = Rejected error
      /\ toasts (snd settled)
         = toasts e ++ [mkToast Failure "Update failed"
                          (Some "The change has been reverted. Please try again.")])
  /\ getQueryData key
       (AdminCacheManager.rollback
          (fst (AdminCacheManager.updateOptimistically key updateFn None (cache e)))
          (snd (AdminCacheManager.updateOptimistically key updateFn None (cache e))))
     = Some v.
Proof.
  intros Hnone Hf. cbv zeta.
  assert (Hspec : getQueryData key (setQueryData key (UFunction updateFn) (cache e)) = Some v).
  { apply getQueryData_update. by rewrite Hnone. }
  assert (Hback : getQueryData key
                    (setQueryData key (UValue None)
                       (setQueryData key (UFunction updateFn) (cache e))) = Some v).
  { by unfold setQueryData at 1. }
  cbn [updateOptimistically fst snd previousData resume cache].
  split; [exact Hnone|]. split; [exact Hspec|].
  rewrite catchBlock_cache. cbn [queryKey previousData cache]. rewrite Hnone.
  split; [exact Hback|]. split; [by rewrite Hback|]. split.
  - intros Hq. unfold catchBlock. cbn [previousData toasts]. by rewrite ?Hnone, Hq.
  - cbn [AdminCacheManager.updateOptimistically fst snd AdminCacheManager.rollback].
    by rewrite ?Hnone.
Qed.

Lemma rollback_misses_absent_entry_witness :
  let key := ADMIN_CACHE_KEYS.detail orders "77" in
  let e := mkEnv Examples.ordersCache ∅ [] [] in
  let started := updateOptimistically key (fun _ => Some (JNum 7)) "u1" e in
  getQueryData key (cache e) = None
  /\ getQueryData key (cache (snd (resume (fst started) quiet (Rejected "boom") (snd started))))
     = Some (JNum 7).
Proof.
  split; [vm_compute; reflexivity|].
  refine (proj1 (proj2 (proj2 (rollback_misses_absent_entry
            (ADMIN_CACHE_KEYS.detail orders "77") (fun _ => Some (JNum 7)) "u1" "boom"
            quiet (JNum 7) (mkEnv Examples.ordersCache ∅ [] []) _ eq_refl)))).
  vm_compute; reflexivity.
Defined.

(** C4: when a first optimistic update has applied its speculative value
    [v1] to a key and a second optimistic update on the same key starts
    before the first mutation settles, the second update captures [v1] as
    its previous value. *)
Theorem second_update_captures_first_speculative_value (key : list JsValue)
    (f1 f2 : option JsValue -> option JsValue) (id1 id2 : string)
    (v1 : JsValue) (e : Env) :
  f1 (getQueryData key (cache e)) = Some v1 ->
  let e1 := snd (updateOptimistically key f1 id1 e) in
  let k2 := fst (updateOptimistically key f2 id2 e1) in
  previousData k2 = Some v1.
Proof.
  intros Hf; simpl. by apply getQueryData_update.
Qed.

Lemma second_update_captures_first_speculative_value_witness :
  let key := ADMIN_CACHE_KEYS.detail orders "42" in
  let e := mkEnv Examples.ordersCache ∅ [] [] in
  let f1 := fun _ : option JsValue => Some (JNum 9) in
  let f2 := fun _ : option JsValue => Some (JNum 10) in
  f1 (getQueryData key (cache e)) = Some (JNum 9)
  /\ previousData (fst (updateOptimistically key f2 "u2"
                          (snd (updateOptimistically key f1 "u1" e)))) = Some (JNum 9).
Proof.
  split; [reflexivity|].
  exact (second_update_captures_first_speculative_value
           (ADMIN_CACHE_KEYS.detail orders "42")
           (fun _ => Some (JNum 9)) (fun _ => Some (JNum 10)) "u1" "u2" (JNum 9)
           (mkEnv Examples.ordersCache ∅ [] []) eq_refl).
Defined.

End OptimisticUpdates.

(** ** The admin mutation hooks *)

Section MutationHooks.

Import useAdminMutations.

(** C9: when the mutation of an admin mutation hook fails (the backend
    call rejects, or the admin gate throws), the hook returns the error,
    shows the failure notification and performs no invalidation: the cache
    is exactly as it was before the mutation began. The invalidations are
    those of [onSuccess], which runs when the mutation succeeds, and only
    then. *)
Theorem failed_mutation_leaves_cache (h : Hook) (isAdmin : bool) (status error : string)
    (backend : Outcome) (e : Env) :
  mutationFn isAdmin backend = Rejected error ->
  cache (snd (mutate h isAdmin status backend e)) = cache e
  /\ toasts (snd (mutate h isAdmin status backend e)) = toasts e ++ [failureToast h error]
  /\ fst (mutate h isAdmin status backend e) = Rejected error
  /\ cache (onError h error e) = cache e
  /\ (forall d, cache (snd (mutate h true status (Resolved d) e))
                = cache (onSuccess h status e))
  /\ (forall q k, cache e !! k = Some q -> matches (resourcePrefix h) q = true ->
        isInvalidated <$> cache (onSuccess h status e) !! k = Some true).
Proof.
  intros Hfail. unfold mutate. rewrite Hfail.
  split; [done|]. split; [done|]. split; [done|]. split; [done|]. split; [done|].
  intros q k Hq Hm. unfold onSuccess.
  assert (Hres : isInvalidated <$> invalidateQueries (resourcePrefix h) (cache e) !! k
                 = Some true).
  { rewrite lookup_invalidateQueries, Hq; simpl. by rewrite Hm. }
  assert (Hdash : forall p, isInvalidated <$>
                    invalidateQueries p (invalidateQueries (resourcePrefix h) (cache e)) !! k
                  = Some true).
  { intros p. rewrite lookup_invalidateQueries.
    destruct (invalidateQueries _ (cache e) !! k) as [q'|]; simpl in *; [|discriminate].
    destruct (matches p q'); [reflexivity|exact Hres]. }
  destruct h; simpl; first [exact Hres | apply Hdash].
Qed.

Lemma failed_mutation_leaves_cache_witness :
  mutationFn true (Rejected "Order not found") = Rejected "Order not found"
  /\ cache (snd (mutate useUpdateOrderStatus true "shipped" (Rejected "Order not found")
                   (mkEnv Examples.ordersCache [])))
     = Examples.ordersCache.
Proof.
  split; [reflexivity|].
  exact (proj1 (failed_mutation_leaves_cache useUpdateOrderStatus true "shipped"
                  "Order not found" (Rejected "Order not found")
                  (mkEnv Examples.ordersCache []) eq_refl)).
Defined.

End MutationHooks.

(** ** Cache keys *)

Section CacheKeys.

Implicit Types (fs : list (string * JsValue)) (f g : string * JsValue).

Lemma string_leb_trans (s1 s2 s3 : string) :
  String.leb s1 s2 = true -> String.leb s2 s3 = true -> String.leb s1 s3 = true.
Proof.
  unfold String.leb. revert s2 s3.
  induction s1 as [|a s1 IH]; intros [|b s2] [|c s3]; simpl; try done.
  unfold Ascii.compare.
  destruct (N.compare_spec (Ascii.N_of_ascii a) (Ascii.N_of_ascii b)) as [Hab|Hab|Hab];
    try done;
    destruct (N.compare_spec (Ascii.N_of_ascii b) (Ascii.N_of_ascii c)) as [Hbc|Hbc|Hbc];
    try done; intros H1 H2.
  - rewrite Hab, Hbc, N.compare_refl. by eapply IH.
  - rewrite Hab. by apply N.compare_lt_iff in Hbc as ->.
  - rewrite <- Hbc. by apply N.compare_lt_iff in Hab as ->.
  - assert (Hac : (Ascii.N_of_ascii a < Ascii.N_of_ascii c)%N) by (by etrans).
    by apply N.compare_lt_iff in Hac as ->.
Qed.

#[local] Instance fieldLe_trans : Transitive Js.fieldLe.
Proof. intros f g k. apply string_leb_trans. Qed.

Lemma insertField_perm f fs : Js.insertField f fs ≡ₚ f :: fs.
Proof.
  induction fs as [|g fs IH]; simpl; [done|].
  destruct (String.leb (fst f) (fst g)); [done|].
  rewrite IH. apply Permutation_swap.
Qed.

Lemma sortFields_perm fs : Js.sortFields fs ≡ₚ fs.
Proof.
  induction fs as [|f fs IH]; simpl; [done|].
  by rewrite insertField_perm, IH.
Qed.

Lemma insertField_sorted f fs : Sorted Js.fieldLe fs -> Sorted Js.fieldLe (Js.insertField f fs).
Proof.
  induction 1 as [|g fs Hs IH Hhd]; simpl; [by repeat constructor|].
  destruct (String.leb (fst f) (fst g)) eqn:Hle.
  - by repeat constructor.
  - constructor; [done|].
    assert (Hgf : Js.fieldLe g f).
    { destruct (String.leb_total (fst f) (fst g)); [congruence|done]. }
    destruct Hhd as [|k fs' Hgk]; simpl; [by constructor|].
    destruct (String.leb (fst f) (fst k)); by constructor.
Qed.

Lemma sortFields_sorted fs : Sorted Js.fieldLe (Js.sortFields fs).
Proof.
  induction fs as [|f fs IH]; simpl; [constructor|by apply insertField_sorted].
Qed.

Lemma field_unique fs k (x y : JsValue) :
  NoDup fs.*1 -> (k, x) ∈ fs -> (k, y) ∈ fs -> x = y.
Proof.
  induction fs as [|[k' z] fs IH]; csimpl; intros Hnd Hx Hy.
  - by apply elem_of_nil in Hx.
  - apply NoDup_cons in Hnd as [Hk Hnd].
    apply elem_of_cons in Hx as [Hx|Hx]; apply elem_of_cons in Hy as [Hy|Hy];
      simplify_eq; try done.
    + destruct Hk. apply list_elem_of_fmap. by exists (k', y).
    + destruct Hk. apply list_elem_of_fmap. by exists (k', x).
    + by apply IH.
Qed.

(** Two objects with the same fields, in whatever order, sort to the same
    list of fields. *)
Lemma sortFields_permutation fs1 fs2 :
  NoDup fs1.*1 -> fs1 ≡ₚ fs2 -> Js.sortFields fs1 = Js.sortFields fs2.
Proof.
  intros Hnd Hp.
  apply (Sorted_unique_strong Js.fieldLe); try apply sortFields_sorted.
  - intros [k1 x1] [k2 x2] H1 H2 Hle Hge.
    rewrite sortFields_perm in H1. rewrite sortFields_perm, <- Hp in H2.
    assert (k1 = k2) by (by apply String.leb_antisym); subst.
    f_equal. by eapply field_unique.
  - by rewrite !sortFields_perm.
Qed.

Lemma sortKeys_object fs :
  sortKeys (JObj fs) = JObj (Js.sortFields (prod_map id sortKeys <$> fs)).
Proof.
  simpl. do 2 f_equal. induction fs as [|[k x] fs IH]; [done|]. by rewrite IH.
Qed.

Lemma sortKeys_permutation fs1 fs2 :
  NoDup fs1.*1 -> fs1 ≡ₚ fs2 -> sortKeys (JObj fs1) = sortKeys (JObj fs2).
Proof.
  intros Hnd Hp. rewrite !sortKeys_object. f_equal.
  apply sortFields_permutation; [|by rewrite Hp].
  rewrite <- list_fmap_compose.
  by replace (fst ∘ prod_map id sortKeys) with (@fst string JsValue).
Qed.

(** C7, as amended: the key builder is a function of its inputs, and it
    puts [params] into the key as it is, fields in insertion order; for
    two [params] objects with the same fields in different insertion
    orders the built keys resolve to the same cache key, because the query
    client hashes a key with the fields of every object sorted by name:
    the two keys have the same hash, hence name the same cache entry. *)
Theorem list_key_hash_ignores_insertion_order (r : Resource)
    (fs1 fs2 : list (string * JsValue)) (c : gmap string Query) :
  NoDup fs1.*1 -> fs1 ≡ₚ fs2 ->
  ADMIN_CACHE_KEYS.list r (JObj fs1)
    = [JStr "admin"; JStr (resourceName r); JStr "list"; JObj fs1]
  /\ hashKey (ADMIN_CACHE_KEYS.list r (JObj fs1)) = hashKey (ADMIN_CACHE_KEYS.list r (JObj fs2))
  /\ c !! hashKey (ADMIN_CACHE_KEYS.list r (JObj fs1))
     = c !! hashKey (ADMIN_CACHE_KEYS.list r (JObj fs2))
  /\ getQueryData (ADMIN_CACHE_KEYS.list r (JObj fs1)) c
     = getQueryData (ADMIN_CACHE_KEYS.list r (JObj fs2)) c.
Proof.
  intros Hnd Hp.
  assert (Hh : hashKey (ADMIN_CACHE_KEYS.list r (JObj fs1))
               = hashKey (ADMIN_CACHE_KEYS.list r (JObj fs2))).
  { unfold hashKey, ADMIN_CACHE_KEYS.list, ADMIN_CACHE_KEYS.filterBoolean.
    cbn [List.filter Js.truthy negb String.eqb map].
    destruct r; cbn [resourceName String.eqb Ascii.eqb Bool.eqb negb map];
      by rewrite (sortKeys_permutation fs1 fs2). }
  split; [by destruct r|]. split; [done|]. unfold getQueryData. by rewrite Hh.
Qed.

Lemma list_key_hash_ignores_insertion_order_witness :
  NoDup [("page", JNum 1); ("limit", JNum 20)].*1
  /\ [("page", JNum 1); ("limit", JNum 20)] ≡ₚ [("limit", JNum 20); ("page", JNum 1)]
  /\ hashKey (ADMIN_CACHE_KEYS.list orders Examples.pageThenLimit)
     = hashKey (ADMIN_CACHE_KEYS.list orders Examples.limitThenPage).
Proof.
  assert (Hnd : NoDup [("page", JNum 1); ("limit", JNum 20)].*1).
  { apply NoDup_cons; split; [by intros ?%list_elem_of_singleton|apply NoDup_singleton]. }
  split; [exact Hnd|]. split; [apply Permutation_swap|].
  exact (proj1 (proj2 (list_key_hash_ignores_insertion_order orders
                         [("page", JNum 1); ("limit", JNum 20)]
                         [("limit", JNum 20); ("page", JNum 1)] ∅
                         Hnd (Permutation_swap _ _ _)))).
Defined.

(** C7, as stated, fails on the built keys themselves: the builder does
    not reorder [params], so two insertion orders give two different key
    arrays, with different plain serializations. *)
Lemma list_key_insertion_order_counterexample :
  Examples.pageThenLimit <> Examples.limitThenPage
  /\ ADMIN_CACHE_KEYS.list orders Examples.pageThenLimit
     <> ADMIN_CACHE_KEYS.list orders Examples.limitThenPage
  /\ map stringifyElement (ADMIN_CACHE_KEYS.list orders Examples.pageThenLimit)
     <> map stringifyElement (ADMIN_CACHE_KEYS.list orders Examples.limitThenPage).
Proof. repeat split; vm_compute; discriminate. Qed.

End CacheKeys.

(** ** The reconnect policy of the event channel *)

Section Reconnect.

Import useAdminRealtime.

Lemma failures_S n : failures (S n) = failures n ++ [Error; TimerFired n].
Proof. unfold failures. by rewrite seq_S, flat_map_app; simpl. Qed.

Lemma run_failures_S o s n :
  run o s (failures (S n)) = fire o n (onerror o (run o s (failures n))).
Proof. unfold run. by rewrite failures_S, foldl_app. Qed.

Lemma run_failures_beyond i extra :
  run (mkOptions true true i) (mounted (mkOptions true true i)) (failures (6 + extra))
  = givenUp i (S extra).
Proof.
  induction extra as [|extra IH].
  - reflexivity.
  - replace (6 + S extra)%nat with (S (6 + extra)) by lia.
    rewrite run_failures_S, IH. unfold givenUp at 2.
    rewrite (replicate_S_end (S extra)). reflexivity.
Qed.

Lemma onerror_attempts_bounded o s :
  0 <= reconnectAttempts s <= 5 -> 0 <= reconnectAttempts (onerror o s) <= 5.
Proof.
  unfold onerror. destruct (reconnectAttempts s <? 5) eqn:Hlt; simpl; [|done].
  apply Z.ltb_lt in Hlt. lia.
Qed.

Lemma step_attempts_bounded o s e :
  0 <= reconnectAttempts s <= 5 -> 0 <= reconnectAttempts (step o s e) <= 5.
Proof.
  destruct e as [| |t| |]; simpl; try (intros _; lia).
  - apply onerror_attempts_bounded.
  - unfold fire, connect. destruct (existsb _ _); [|done].
    by destruct (negb (isAdmin o) || negb (enabled o)).
Qed.

Lemma run_attempts_bounded o events s :
  0 <= reconnectAttempts s <= 5 -> 0 <= reconnectAttempts (run o s events) <= 5.
Proof.
  revert s. induction events as [|e events IH]; intros s Hs; simpl; [done|].
  by apply IH, step_attempts_bounded.
Qed.

Lemma failure_run_counts_timers o events s :
  forallb failureOnly events = true ->
  Z.of_nat (length (scheduled (run o s events))) - reconnectAttempts (run o s events)
  = Z.of_nat (length (scheduled s)) - reconnectAttempts s.
Proof.
  revert s. induction events as [|e events IH]; intros s Hev; simpl in *; [done|].
  apply andb_prop in Hev as [He Hev]. rewrite (IH _ Hev).
  destruct e as [| |t| |]; try discriminate; simpl.
  - unfold onerror. destruct (reconnectAttempts s <? 5); simpl; [|done].
    rewrite length_app; simpl. lia.
  - unfold fire, connect. destruct (existsb _ _); [|done].
    by destruct (negb (isAdmin o) || negb (enabled o)).
Qed.

(** C6: with reconnect interval [i], a connection error below five
    attempts increments the attempt number and schedules a reconnect after
    [i * attemptNumber]; at five attempts it schedules nothing, sets the
    error state [Max reconnection attempts reached] and reports it;
    [onopen] resets the attempt number to 0; the attempt number never
    leaves 0..5, and a run of failures without a success sets at most five
    timers. Hence after [n] consecutive failures following the mount the
    delays scheduled are [i*1, ..., i*min(n,5)], strictly increasing for a
    positive interval, the connections opened are the first one and
    [min(n,5)] reconnects, never a sixth, and from the sixth failure on the
    channel is in the persistent error state. *)
Theorem reconnect_backoff (o : Options) (s : State) (n : nat) :
  isAdmin o = true -> enabled o = true ->
  let i := reconnectInterval o in
  let final := run o (mounted o) (failures n) in
  (reconnectAttempts s < 5 ->
     reconnectAttempts (onerror o s) = reconnectAttempts s + 1
     /\ scheduled (onerror o s) = scheduled s ++ [i * (reconnectAttempts s + 1)]
     /\ pending (onerror o s) = pending s ++ [length (scheduled s)])
  /\ (5 <= reconnectAttempts s ->
       scheduled (onerror o s) = scheduled s
       /\ pending (onerror o s) = pending s
       /\ connectionError (onerror o s) = Some maxReached
       /\ reported (onerror o s) = reported s ++ [maxReached])
  /\ reconnectAttempts (onopen s) = 0
  /\ (forall events, 0 <= reconnectAttempts (run o initial events) <= 5)
  /\ (forall events, forallb failureOnly events = true ->
        (length (scheduled (run o initial events)) <= 5)%nat)
  /\ scheduled final = (fun k => i * Z.of_nat k) <$> seq 1 (n `min` 5)
  /\ (0 < i -> Sorted Z.lt (scheduled final))
  /\ eventSources final = S (n `min` 5)
  /\ pending final = []
  /\ ((5 < n)%nat -> connectionError final = Some maxReached
                     /\ reported final = replicate (n - 5) maxReached).
Proof.
  intros Hadmin Henabled i final.
  split; [|split; [|split; [|split; [|split]]]].
  - intros Hlt. unfold onerror. apply Z.ltb_lt in Hlt. by rewrite Hlt.
  - intros Hge. unfold onerror. apply Z.ltb_ge in Hge. by rewrite Hge.
  - reflexivity.
  - intros events. by apply run_attempts_bounded.
  - intros events Hev.
    pose proof (failure_run_counts_timers o events initial Hev) as Hcount.
    pose proof (run_attempts_bounded o events initial) as Hbound.
    simpl in *. lia.
  - destruct o as [adm en i']; simpl in *; subst adm en i.
    destruct (decide (n <= 5)%nat) as [Hn|Hn].
    + assert (Hcases : n = 0%nat \/ n = 1%nat \/ n = 2%nat \/ n = 3%nat
                       \/ n = 4%nat \/ n = 5%nat) by lia.
      destruct Hcases as [->|[->|[->|[->|[->| ->]]]]]; subst final;
        (split; [reflexivity|split; [intros Hi; simpl; repeat constructor; lia|]]);
        (split; [reflexivity|split; [reflexivity|lia]]).
    + assert (Hex : exists extra, n = (6 + extra)%nat) by (exists (n - 6)%nat; lia).
      destruct Hex as [extra ->]. subst final.
      rewrite run_failures_beyond.
      replace ((6 + extra) `min` 5)%nat with 5%nat by lia.
      split; [reflexivity|split; [intros Hi; simpl; repeat constructor; lia|]].
      split; [reflexivity|split; [reflexivity|]].
      intros _. split; [reflexivity|].
      by replace (6 + extra - 5)%nat with (S extra) by lia.
Qed.

Lemma reconnect_backoff_witness :
  isAdmin defaultOptions = true /\ enabled defaultOptions = true
  /\ scheduled (run defaultOptions (mounted defaultOptions) (failures 7))
     = (fun k => 5000 * Z.of_nat k) <$> seq 1 (7 `min` 5).
Proof.
  split; [reflexivity|]. split; [reflexivity|].
  exact (proj1 (proj2 (proj2 (proj2 (proj2 (proj2
           (reconnect_backoff defaultOptions initial 7 eq_refl eq_refl))))))).
Defined.

End Reconnect.

(** ** The cache manager singleton *)

Section SingletonFacts.

Import Singleton.

Lemma useAdminCacheManager_registered h m :
  adminCacheManager h = Some m ->
  useAdminCacheManager h
  = (m, {| clients := clients h ++ [∅]; managers := managers h;
           adminCacheManager := Some m |}).
Proof. intros Hm. unfold useAdminCacheManager, getAdminCacheManager; simpl. by rewrite Hm. Qed.



End SingletonFacts.

(** ** Unauthorized responses in the API client *)

Section Unauthorized.

Import ApiClient.

Lemma length_snoc {A} (l : list A) (x : A) : length (l ++ [x]) = S (length l).
Proof. rewrite length_app; simpl; lia. Qed.

(** C5, as amended: when the backend answers a request with 401 and the
    endpoint is neither the refresh nor the login endpoint, the client
    first calls the token refresh endpoint, once. If the refresh does not
    answer with an ok status, the request is not retried: the client logs
    out, redirects to [/login] (in a browser) and throws the session
    expired error. If the refresh succeeds, the client retries the request
    exactly once, with the new token when there is one, and returns or
    throws according to that answer alone, without logout, even when the
    answer is 401 again. For the refresh and login endpoints a 401 is
    thrown as an ordinary API error, without refresh, retry or logout. *)
Theorem unauthorized_refreshes_then_retries_once (b : Backend) (hasWindow : bool)
    (baseUrl endpoint : string) (w : World) (resp : Response) :
  network b (length (calls w)) = Responds resp -> status resp = 401 ->
  let n := length (calls w) in
  let exempt := includes "/auth/refresh-token" endpoint || includes "/auth/login" endpoint in
  let first := mkCall (baseUrl +:+ endpoint) (accessToken b n) in
  let refresh := mkCall (baseUrl +:+ "/auth/refresh-token") None in
  let retry := mkCall (baseUrl +:+ endpoint)
                 (match accessToken b (S (S n)) with
                  | Some t => Some t
                  | None => accessToken b n
                  end) in
  let result := fst (request b hasWindow baseUrl endpoint w) in
  let w' := snd (request b hasWindow baseUrl endpoint w) in
  (exempt = true ->
     result = inr (errorOf resp) /\ calls w' = calls w ++ [first]
     /\ loggedOut w' = loggedOut w /\ location w' = location w)
  /\ (exempt = false -> answeredOk (network b (S n)) = false ->
       result = inr sessionExpired /\ calls w' = calls w ++ [first; refresh]
       /\ loggedOut w' = (if hasWindow then true else loggedOut w)
       /\ location w' = (if hasWindow then Some "/login" else location w))
  /\ (exempt = false -> answeredOk (network b (S n)) = true ->
       result = settle (network b (S (S n)))
       /\ calls w' = calls w ++ [first; refresh; retry]
       /\ loggedOut w' = loggedOut w /\ location w' = location w).
Proof.
  intros Hfirst H401. cbv zeta. unfold request, fetch. rewrite Hfirst, H401.
  change (401 =? 401) with true. cbn [andb].
  rewrite <- negb_orb.
  destruct (includes "/auth/refresh-token" endpoint || includes "/auth/login" endpoint)
    eqn:Hex; cbn [negb].
  - split; [intros _|split; intros; discriminate].
    unfold ok. rewrite H401. by cbn.
  - split; [intros; discriminate|].
    unfold refreshTokens, fetch; cbn [calls].
    rewrite !length_snoc.
    split; intros _ Hok.
    + destruct (network b (S (length (calls w)))) as [r|t]; simpl in Hok.
      * rewrite Hok. destruct hasWindow; cbn; by rewrite <- app_assoc.
      * destruct hasWindow; cbn; by rewrite <- app_assoc.
    + destruct (network b (S (length (calls w)))) as [r|t]; simpl in Hok; [|discriminate].
      rewrite Hok. unfold getAccessToken; cbn [calls].
      rewrite !length_snoc.
      destruct (network b (S (S (length (calls w))))) as [r2|t2]; cbn.
      * destruct (ok r2); cbn; by rewrite <- !app_assoc.
      * by rewrite <- !app_assoc.
Qed.

Lemma unauthorized_refreshes_then_retries_once_witness :
  network Examples.refreshingBackend (length (calls start))
    = Responds (mkResponse 401 (Some (JObj [])))
  /\ status (mkResponse 401 (Some (JObj []))) = 401
  /\ fst (request Examples.refreshingBackend true "/api" "/admin/orders" start)
     = settle (network Examples.refreshingBackend 2).
Proof.
  split; [reflexivity|]. split; [reflexivity|].
  exact (proj1 (proj2 (proj2
           (unauthorized_refreshes_then_retries_once Examples.refreshingBackend true
              "/api" "/admin/orders" start (mkResponse 401 (Some (JObj [])))
              eq_refl eq_refl)) eq_refl eq_refl)).
Defined.

(** C5, as stated, fails: against a backend that answers 401 and then
    accepts the token refresh, the client fetches the same URL a second
    time by itself and returns that answer, and no logout or redirect
    takes place. *)
Lemma unauthorized_retry_counterexample :
  let outcome := request Examples.refreshingBackend true "/api" "/admin/orders" start in
  network Examples.refreshingBackend 0 = Responds (mkResponse 401 (Some (JObj [])))
  /\ fetches "/api/admin/orders" (snd outcome) = 2%nat
  /\ fst outcome = inl (JNum 7)
  /\ loggedOut (snd outcome) = false
  /\ location (snd outcome) = None.
Proof. repeat split; vm_compute; reflexivity. Qed.

End Unauthorized.

(** * Further properties of the cache layer *)

(** ** Keys of the registry under the invalidation policy *)

Section RegistryKeys.

Import InvalidationPolicy.
Implicit Types (c : gmap string Query) (q : Query) (r : Resource) (a : Action).

Lemma resourceName_eqb_ne r r' :
  r <> r' -> String.eqb (resourceName r) (resourceName r') = false.
Proof. by destruct r, r'. Qed.

Lemma resourceName_not_dashboard r : String.eqb (resourceName r) "dashboard" = false.
Proof. by destruct r. Qed.

Lemma list_key_cases r params :
  ADMIN_CACHE_KEYS.list r params
  = if Js.truthy params then listPrefix r ++ [params] else listPrefix r.
Proof.
  unfold ADMIN_CACHE_KEYS.list, ADMIN_CACHE_KEYS.filterBoolean, listPrefix.
  cbn [List.filter Js.truthy negb String.eqb].
  destruct r; cbn [resourceName List.filter Js.truthy negb String.eqb Ascii.eqb Bool.eqb];
    by destruct (Js.truthy params).
Qed.

(** X1. Whatever the parameters, falsy ones included, the entry of a list key
    of a resource is marked stale, data kept, by the invalidation of every
    mutation of that resource, with or without an id. *)
Theorem list_entry_stale_after_any_mutation r a (id : option string) (params : JsValue)
    c (h : string) q :
  c !! h = Some q -> queryKey q = ADMIN_CACHE_KEYS.list r params ->
  AdminCacheManager.invalidateAfterMutation r a id c !! h = Some (invalidate q).
Proof.
  intros Hq Hk.
  rewrite invalidateAfterMutation_performed, lookup_run_effects, Hq; simpl.
  assert (Hlist : matches (listPrefix r) q = true).
  { unfold matches. rewrite Hk, list_key_cases.
    destruct (Js.truthy params); simpl; rewrite !String.eqb_refl; done. }
  assert (Hdet : forall i, matches (detailPrefix r i) q = false).
  { intros i. unfold matches. rewrite Hk, list_key_cases.
    destruct (Js.truthy params); simpl; rewrite !String.eqb_refl; done. }
  unfold onEntry, performed, withoutDetail.
  destruct a, (AdminCacheManager.idGiven id); simpl;
    rewrite ?Hdet, ?Hlist; simpl; reflexivity.
Qed.

Lemma list_entry_stale_after_any_mutation_witness :
  let key := ADMIN_CACHE_KEYS.list orders Examples.pageThenLimit in
  Examples.ordersCache !! hashKey key = Some (mkQuery key (Some (JNum 3)) false)
  /\ AdminCacheManager.invalidateAfterMutation orders create None Examples.ordersCache
       !! hashKey key
     = Some (mkQuery key (Some (JNum 3)) true).
Proof.
  assert (Hq : Examples.ordersCache
                 !! hashKey (ADMIN_CACHE_KEYS.list orders Examples.pageThenLimit)
               = Some (mkQuery (ADMIN_CACHE_KEYS.list orders Examples.pageThenLimit)
                         (Some (JNum 3)) false)) by (vm_compute; reflexivity).
  split; [exact Hq|].
  exact (list_entry_stale_after_any_mutation orders create None Examples.pageThenLimit
           Examples.ordersCache _ _ Hq eq_refl).
Defined.

(** X2. The detail entry of the item [id] is marked stale by an update of [id]
    and removed by a delete of [id]; the detail entry of any other item of
    the resource is left exactly as it was by both, and by a create. *)
Theorem detail_entry_under_mutations r (id id' : string) c (h : string) q :
  id <> EmptyString ->
  c !! h = Some q -> queryKey q = ADMIN_CACHE_KEYS.detail r id' ->
  (id' = id ->
     AdminCacheManager.invalidateAfterMutation r update (Some id) c !! h = Some (invalidate q)
     /\ AdminCacheManager.invalidateAfterMutation r delete (Some id) c !! h = None)
  /\ (id' <> id -> forall a,
        AdminCacheManager.invalidateAfterMutation r a (Some id) c !! h = Some q)
  /\ (forall i, AdminCacheManager.invalidateAfterMutation r create i c !! h = Some q).
Proof.
  intros Hid Hq Hk.
  assert (Hlist : matches (listPrefix r) q = false).
  { unfold matches. rewrite Hk; simpl. by rewrite String.eqb_refl. }
  assert (Hstats : matches (statsPrefix r) q = false).
  { unfold matches. rewrite Hk; simpl. by rewrite String.eqb_refl. }
  assert (Hdash : matches dashboardPrefix q = false).
  { unfold matches. rewrite Hk; simpl. by rewrite resourceName_not_dashboard. }
  assert (Hdet : forall i, matches (detailPrefix r i) q = String.eqb id' i).
  { intros i. unfold matches. rewrite Hk; simpl.
    rewrite String.eqb_refl. simpl.
    by rewrite andb_true_r. }
  split; [|split].
  - intros ->. split;
      rewrite invalidateAfterMutation_performed, lookup_run_effects, Hq; simpl;
      unfold onEntry, performed; rewrite idGiven_nonempty by done; simpl;
      rewrite ?Hdet, ?Hlist, ?Hstats, ?Hdash, String.eqb_refl; reflexivity.
  - intros Hne a.
    rewrite invalidateAfterMutation_performed, lookup_run_effects, Hq; simpl.
    unfold onEntry, performed; rewrite idGiven_nonempty by done.
    apply String.eqb_neq in Hne.
    destruct a; simpl; rewrite ?Hdet, ?Hlist, ?Hstats, ?Hdash, ?Hne; reflexivity.
  - intros i.
    rewrite invalidateAfterMutation_performed, lookup_run_effects, Hq; simpl.
    unfold onEntry, performed, withoutDetail.
    destruct (AdminCacheManager.idGiven i); simpl;
      rewrite ?Hlist, ?Hstats, ?Hdash; reflexivity.
Qed.

Lemma detail_entry_under_mutations_witness :
  let key := ADMIN_CACHE_KEYS.detail orders "42" in
  "42" <> EmptyString
  /\ Examples.ordersCache !! hashKey key = Some (mkQuery key (Some (JNum 2)) false)
  /\ AdminCacheManager.invalidateAfterMutation orders delete (Some "42") Examples.ordersCache
       !! hashKey key = None.
Proof.
  assert (Hid : "42" <> EmptyString) by discriminate.
  assert (Hq : Examples.ordersCache !! hashKey (ADMIN_CACHE_KEYS.detail orders "42")
               = Some (mkQuery (ADMIN_CACHE_KEYS.detail orders "42") (Some (JNum 2)) false))
    by (vm_compute; reflexivity).
  split; [exact Hid|]. split; [exact Hq|].
  exact (proj2 (proj1 (detail_entry_under_mutations orders "42" "42" Examples.ordersCache
                         _ _ Hid Hq eq_refl) eq_refl)).
Defined.

End RegistryKeys.

(** ** Dashboard keys, other resources, and how invalidations compose *)

Section PolicyComposition.

Import InvalidationPolicy RegistryShape.
Implicit Types (c : gmap string Query) (q : Query) (r : Resource) (a : Action)
  (effects : list Effect).

Lemma dashboard_stats_cases (timeRange : JsValue) :
  ADMIN_CACHE_KEYS.dashboard.stats timeRange
  = if Js.truthy timeRange
    then [JStr "admin"; JStr "dashboard"; JStr "stats"; timeRange]
    else [JStr "admin"; JStr "dashboard"; JStr "stats"].
Proof.
  unfold ADMIN_CACHE_KEYS.dashboard.stats, ADMIN_CACHE_KEYS.filterBoolean.
  cbn [List.filter Js.truthy negb String.eqb Ascii.eqb Bool.eqb].
  by destruct (Js.truthy timeRange).
Qed.

Lemma onEntry_performed r a id q :
  (forall i, matches (detailPrefix r i) q = false) ->
  matches (listPrefix r) q = false -> matches (statsPrefix r) q = false ->
  onEntry (performed r a id) q
  = if matches dashboardPrefix q then Some (invalidate q) else Some q.
Proof.
  intros Hdet Hlist Hstats. unfold onEntry, performed, withoutDetail.
  destruct a, (AdminCacheManager.idGiven id); simpl;
    rewrite ?Hdet, ?Hlist, ?Hstats; simpl; by destruct (matches dashboardPrefix q).
Qed.

(** X3. Every mutation of every resource, with or without an id, marks stale
    the entries of the dashboard keys [stats(timeRange)], [overview],
    [recentOrders], [topProducts] and [recentCustomers]; it never touches
    an entry of the keys [salesAnalytics(period, chartType)] and
    [activity(limit)], which the registry files under the dashboard block
    but which do not start with the dashboard prefix. *)
Theorem dashboard_keys_after_any_mutation r a (id : option string) c (h : string) q :
  c !! h = Some q ->
  (underDashboard (queryKey q) ->
     AdminCacheManager.invalidateAfterMutation r a id c !! h = Some (invalidate q)
     /\ AdminCacheManager.invalidateDashboard c !! h = Some (invalidate q))
  /\ (analyticsOrActivity (queryKey q) ->
       AdminCacheManager.invalidateAfterMutation r a id c !! h = Some q
       /\ AdminCacheManager.invalidateDashboard c !! h = Some q
       /\ AdminCacheManager.invalidateResource r c !! h = Some q).
Proof.
  intros Hq.
  assert (Hgen : forall key, queryKey q = key ->
            (exists rest, key = JStr "admin" :: JStr "dashboard" :: rest)
            \/ (exists rest, key = JStr "admin" :: JStr "analytics" :: rest)
            \/ (exists rest, key = JStr "admin" :: JStr "activity" :: rest) ->
            (forall i, matches (detailPrefix r i) q = false)
            /\ matches (listPrefix r) q = false /\ matches (statsPrefix r) q = false
            /\ matches [JStr "admin"; JStr (resourceName r)] q = false).
  { intros key Hk [[rest ->]|[[rest ->]|[rest ->]]]; unfold matches; rewrite Hk;
      repeat split; intros; by destruct r. }
  split.
  - intros Hunder.
    assert (Hshape : exists rest, queryKey q = JStr "admin" :: JStr "dashboard" :: rest).
    { destruct Hunder as [[tr ->]|[->|[->|[->| ->]]]]; eexists; reflexivity. }
    destruct Hshape as [rest Hk].
    destruct (Hgen _ Hk (or_introl (ex_intro _ rest eq_refl))) as (Hdet & Hlist & Hstats & _).
    assert (Hdash : matches dashboardPrefix q = true) by (unfold matches; by rewrite Hk).
    split.
    + rewrite invalidateAfterMutation_performed, lookup_run_effects, Hq; simpl.
      by rewrite (onEntry_performed r a id q Hdet Hlist Hstats), Hdash.
    + unfold AdminCacheManager.invalidateDashboard. fold dashboardPrefix.
      rewrite lookup_invalidateQueries, Hq; simpl. by rewrite Hdash.
  - intros Hother.
    assert (Hshape : (exists rest, queryKey q = JStr "admin" :: JStr "analytics" :: rest)
                     \/ (exists rest, queryKey q = JStr "admin" :: JStr "activity" :: rest)).
    { destruct Hother as [(p & ct & ->)|(l & ->)]; [left|right]; eexists; reflexivity. }
    assert (Hdash : matches dashboardPrefix q = false).
    { unfold matches. by destruct Hshape as [[rest ->]|[rest ->]]. }
    destruct (Hgen _ eq_refl (or_intror Hshape)) as (Hdet & Hlist & Hstats & Hres).
    split; [|split].
    + rewrite invalidateAfterMutation_performed, lookup_run_effects, Hq; simpl.
      by rewrite (onEntry_performed r a id q Hdet Hlist Hstats), Hdash.
    + unfold AdminCacheManager.invalidateDashboard. fold dashboardPrefix.
      rewrite lookup_invalidateQueries, Hq; simpl. by rewrite Hdash.
    + unfold AdminCacheManager.invalidateResource, AdminCacheManager.invalidateDashboard.
      fold dashboardPrefix.
      rewrite !lookup_invalidateQueries, Hq; simpl. by rewrite Hres, Hdash.
Qed.

Lemma dashboard_keys_after_any_mutation_witness :
  let key := ADMIN_CACHE_KEYS.dashboard.overview in
  Examples.ordersCache !! hashKey key = Some (mkQuery key (Some (JNum 4)) false)
  /\ AdminCacheManager.invalidateAfterMutation products delete (Some "7") Examples.ordersCache
       !! hashKey key
     = Some (mkQuery key (Some (JNum 4)) true).
Proof.
  assert (Hq : Examples.ordersCache !! hashKey ADMIN_CACHE_KEYS.dashboard.overview
               = Some (mkQuery ADMIN_CACHE_KEYS.dashboard.overview (Some (JNum 4)) false))
    by (vm_compute; reflexivity).
  split; [exact Hq|].
  refine (proj1 (proj1 (dashboard_keys_after_any_mutation products delete (Some "7")
                          Examples.ordersCache _ _ Hq) _)).
  right; left; reflexivity.
Defined.

(** X4. The keys of one resource are out of reach of the mutations of another:
    a list, detail or stats entry of [r'] is exactly as it was after the
    invalidation of any mutation of a different resource [r]. *)
Theorem other_resource_untouched r r' a (id : option string) (params : JsValue)
    (id' : string) c (h : string) q :
  r <> r' -> c !! h = Some q ->
  queryKey q = ADMIN_CACHE_KEYS.list r' params
  \/ queryKey q = ADMIN_CACHE_KEYS.detail r' id'
  \/ queryKey q = ADMIN_CACHE_KEYS.stats r' ->
  AdminCacheManager.invalidateAfterMutation r a id c !! h = Some q.
Proof.
  intros Hne Hq Hk.
  assert (Hshape : exists rest, queryKey q = JStr "admin" :: JStr (resourceName r') :: rest).
  { destruct Hk as [->|[->| ->]]; rewrite ?list_key_cases;
      try destruct (Js.truthy params); eexists; reflexivity. }
  destruct Hshape as [rest Hshape].
  assert (Hname : String.eqb (resourceName r') (resourceName r) = false)
    by (apply resourceName_eqb_ne; congruence).
  rewrite invalidateAfterMutation_performed, lookup_run_effects, Hq; simpl.
  rewrite onEntry_performed.
  - replace (matches dashboardPrefix q) with false; [done|].
    unfold matches. rewrite Hshape; simpl. by destruct r'.
  - intros i. unfold matches. rewrite Hshape; simpl. by rewrite Hname.
  - unfold matches. rewrite Hshape; simpl. by rewrite Hname.
  - unfold matches. rewrite Hshape; simpl. by rewrite Hname.
Qed.

Lemma other_resource_untouched_witness :
  let key := ADMIN_CACHE_KEYS.stats orders in
  products <> orders
  /\ Examples.ordersCache !! hashKey key = Some (mkQuery key (Some (JNum 1)) false)
  /\ AdminCacheManager.invalidateAfterMutation products create None Examples.ordersCache
       !! hashKey key
     = Some (mkQuery key (Some (JNum 1)) false).
Proof.
  assert (Hne : products <> orders) by discriminate.
  assert (Hq : Examples.ordersCache !! hashKey (ADMIN_CACHE_KEYS.stats orders)
               = Some (mkQuery (ADMIN_CACHE_KEYS.stats orders) (Some (JNum 1)) false))
    by (vm_compute; reflexivity).
  split; [exact Hne|]. split; [exact Hq|].
  exact (other_resource_untouched products orders create None JUndefined EmptyString
           Examples.ordersCache _ _ Hne Hq (or_intror (or_intror eq_refl))).
Defined.

End PolicyComposition.

(** ** Invalidations absorb, commute and keep the data *)

Section PolicyAlgebra.

Import InvalidationPolicy.
Implicit Types (c : gmap string Query) (q : Query) (r : Resource) (a : Action)
  (effects : list Effect).

Lemma partialMatchKey_app (key p p' : list JsValue) :
  partialMatchKey key (p ++ p') = true -> partialMatchKey key p = true.
Proof.
  revert key. induction p as [|v p IH]; intros key; simpl; [done|].
  destruct key as [|va key]; intros [Hv Hrest]%andb_prop; rewrite Hv; simpl; by apply IH.
Qed.

Lemma matches_app p p' q : matches (p ++ p') q = true -> matches p q = true.
Proof. apply partialMatchKey_app. Qed.

Lemma perform_app effects1 effects2 c :
  perform (effects1 ++ effects2) c = perform effects2 (perform effects1 c).
Proof. unfold perform. by rewrite foldl_app. Qed.

Lemma perform_absorb effects1 effects2 c :
  (forall q, evicts effects2 q = false) ->
  (forall q, invalidates effects2 q = true -> invalidates effects1 q = true) ->
  perform effects2 (perform effects1 c) = perform effects1 c.
Proof.
  intros Hev Hinv. apply map_eq; intros h. rewrite !lookup_run_effects.
  destruct (c !! h) as [q|]; simpl; [|done].
  unfold onEntry. destruct (evicts effects1 q) eqn:He1; [done|].
  destruct (invalidates effects1 q) eqn:Hi1; simpl.
  - rewrite Hev. by destruct (invalidates effects2 (invalidate q)).
  - rewrite Hev. destruct (invalidates effects2 q) eqn:Hi2; [|done].
    apply Hinv in Hi2. congruence.
Qed.

Lemma perform_comm effects1 effects2 c :
  perform effects1 (perform effects2 c) = perform effects2 (perform effects1 c).
Proof.
  apply map_eq; intros h. rewrite !lookup_run_effects.
  destruct (c !! h) as [q|]; simpl; [|done].
  unfold onEntry.
  destruct (evicts effects1 q) eqn:He1, (evicts effects2 q) eqn:He2,
    (invalidates effects1 q) eqn:Hi1, (invalidates effects2 q) eqn:Hi2; simpl;
    rewrite ?evicts_invalidate, ?invalidates_invalidate, ?He1, ?He2, ?Hi1, ?Hi2; simpl;
    rewrite ?evicts_invalidate, ?invalidates_invalidate, ?He1, ?He2, ?Hi1, ?Hi2;
    reflexivity.
Qed.

Lemma perform_data effects c (h : string) :
  perform effects c !! h ≫= data
  = c !! h ≫= fun q => if evicts effects q then None else data q.
Proof.
  rewrite lookup_run_effects. destruct (c !! h) as [q|]; simpl; [|done].
  unfold onEntry. destruct (evicts effects q); [done|].
  by destruct (invalidates effects q).
Qed.

Lemma evicts_invalidations (ps : list (list JsValue)) q :
  evicts (Invalidate <$> ps) q = false.
Proof. induction ps as [|p ps IH]; [done|]. exact IH. Qed.

Lemma invalidateResource_perform r c :
  AdminCacheManager.invalidateResource r c
  = perform [Invalidate [JStr "admin"; JStr (resourceName r)]; Invalidate dashboardPrefix] c.
Proof. reflexivity. Qed.

Lemma performed_within_resource r a id q :
  a <> delete ->
  evicts (performed r a id) q = false
  /\ (invalidates (performed r a id) q = true ->
      invalidates [Invalidate [JStr "admin"; JStr (resourceName r)];
                   Invalidate dashboardPrefix] q = true).
Proof.
  intros Ha. unfold performed, withoutDetail.
  destruct a, (AdminCacheManager.idGiven id); try congruence; simpl; (split; [done|]);
    rewrite !orb_false_r; intros Hm;
    repeat (apply orb_prop in Hm as [Hm|Hm]);
    try (by rewrite Hm, ?orb_true_r);
    (apply (matches_app [JStr "admin"; JStr (resourceName r)]) in Hm; by rewrite Hm).
Qed.

Lemma invalidateResource_absorbs r a id c :
  a <> delete ->
  AdminCacheManager.invalidateAfterMutation r a id (AdminCacheManager.invalidateResource r c)
  = AdminCacheManager.invalidateResource r c.
Proof.
  intros Ha. rewrite invalidateAfterMutation_performed, invalidateResource_perform.
  apply perform_absorb; intros q; by apply performed_within_resource.
Qed.

(** X5. [invalidateResource] marks stale exactly the entries under the prefix
    of the resource or under the dashboard prefix and removes nothing. It
    covers the invalidation of a create or an update of that resource:
    running that invalidation after it changes nothing. With any action, the
    two can be run in either order. *)
Theorem invalidateResource_covers_mutations r a (id : option string) c :
  (forall h : string,
     AdminCacheManager.invalidateResource r c !! h
     = (fun q => if matches [JStr "admin"; JStr (resourceName r)] q
                    || matches dashboardPrefix q
                 then invalidate q else q) <$> c !! h)
  /\ AdminCacheManager.invalidateAfterMutation r create id
       (AdminCacheManager.invalidateResource r c)
     = AdminCacheManager.invalidateResource r c
  /\ AdminCacheManager.invalidateAfterMutation r update id
       (AdminCacheManager.invalidateResource r c)
     = AdminCacheManager.invalidateResource r c
  /\ AdminCacheManager.invalidateAfterMutation r a id
       (AdminCacheManager.invalidateResource r c)
     = AdminCacheManager.invalidateResource r
         (AdminCacheManager.invalidateAfterMutation r a id c).
Proof.
  split; [|split; [|split]].
  - intros h. rewrite invalidateResource_perform, lookup_run_effects.
    destruct (c !! h) as [q|]; simpl; [|done].
    unfold onEntry; simpl. rewrite orb_false_r.
    by destruct (matches _ q), (matches dashboardPrefix q).
  - by apply invalidateResource_absorbs.
  - by apply invalidateResource_absorbs.
  - rewrite !invalidateAfterMutation_performed, !invalidateResource_perform.
    apply perform_comm.
Qed.

(** X6. The invalidation of a local mutation and the handling of a realtime
    message commute: the cache is the same whichever of the two runs
    first. *)
Theorem mutation_and_event_commute r a (id : option string) (parsed : option JsValue)
    (e : useAdminRealtime.Env) :
  AdminCacheManager.invalidateAfterMutation r a id
    (useAdminRealtime.cache (useAdminRealtime.onmessage parsed e))
  = useAdminRealtime.cache
      (useAdminRealtime.onmessage parsed
         (useAdminRealtime.withCache (AdminCacheManager.invalidateAfterMutation r a id) e)).
Proof.
  destruct (cache_onmessage_effects parsed) as [effects Heff].
  rewrite !Heff; simpl. rewrite !invalidateAfterMutation_performed. apply perform_comm.
Qed.

(** X7. Invalidation keeps the cached data readable: for every key,
    [getQueryData] returns the same after the invalidation of a create or
    an update, after [invalidateResource], [invalidateDashboard] and after
    the handling of any realtime message; after the invalidation of a delete
    it returns the same or, for an evicted entry, nothing. *)
Theorem invalidation_keeps_data r (id : option string) (key : list JsValue) c :
  getQueryData key (AdminCacheManager.invalidateAfterMutation r create id c)
    = getQueryData key c
  /\ getQueryData key (AdminCacheManager.invalidateAfterMutation r update id c)
     = getQueryData key c
  /\ (getQueryData key (AdminCacheManager.invalidateAfterMutation r delete id c)
        = getQueryData key c
      \/ AdminCacheManager.invalidateAfterMutation r delete id c !! hashKey key = None)
  /\ getQueryData key (AdminCacheManager.invalidateResource r c) = getQueryData key c
  /\ getQueryData key (AdminCacheManager.invalidateDashboard c) = getQueryData key c
  /\ (forall parsed e, useAdminRealtime.cache e = c ->
        getQueryData key (useAdminRealtime.cache (useAdminRealtime.onmessage parsed e))
        = getQueryData key c).
Proof.
  assert (Hkeep : forall effects, (forall q, evicts effects q = false) ->
            getQueryData key (perform effects c) = getQueryData key c).
  { intros effects Hev. unfold getQueryData. rewrite perform_data.
    destruct (c !! hashKey key) as [q|]; simpl; [|done]. by rewrite Hev. }
  split; [|split; [|split; [|split; [|split]]]].
  - rewrite invalidateAfterMutation_performed. apply Hkeep.
    intros q. by apply performed_within_resource.
  - rewrite invalidateAfterMutation_performed. apply Hkeep.
    intros q. by apply performed_within_resource.
  - rewrite invalidateAfterMutation_performed. unfold getQueryData.
    rewrite perform_data, lookup_run_effects.
    destruct (c !! hashKey key) as [q|]; simpl; [|by left].
    unfold onEntry. destruct (evicts _ q); [by right|by left].
  - rewrite invalidateResource_perform. by apply Hkeep.
  - apply (Hkeep [Invalidate dashboardPrefix]). done.
  - intros parsed e <-. destruct parsed as [d|]; [|done].
    destruct d; try done; simpl; unfold getQueryData;
      rewrite cache_handle; apply Hkeep; intros q; apply evicts_invalidations.
Qed.

End PolicyAlgebra.

(** ** The mutation hooks and the cache manager *)

Section HooksAndManager.

Import useAdminMutations HookResource.

(** X8. On success, a hook for orders, products, categories or customers
    invalidates exactly what [invalidateResource] of the cache manager
    invalidates for that resource, so that the manager's invalidation for a
    create or an update would change nothing afterwards; a settings hook
    leaves every entry outside the settings prefix as it was, dashboard
    entries included. *)
Theorem hook_success_is_invalidateResource (h : Hook) (status : string) (e : Env) :
  (forall r, resourceOf h = Some r ->
     cache (onSuccess h status e) = AdminCacheManager.invalidateResource r (cache e)
     /\ forall id,
          AdminCacheManager.invalidateAfterMutation r create id (cache (onSuccess h status e))
            = cache (onSuccess h status e)
          /\ AdminCacheManager.invalidateAfterMutation r update id
               (cache (onSuccess h status e))
             = cache (onSuccess h status e))
  /\ (resourceOf h = None -> forall (k : string) q,
        cache e !! k = Some q -> matches [JStr "admin"; JStr "settings"] q = false ->
        cache (onSuccess h status e) !! k = Some q)
  /\ toasts (onSuccess h status e) = toasts e ++ [successToast h status].
Proof.
  split; [|split; [|by destruct h]].
  - intros r Hr.
    assert (Hc : cache (onSuccess h status e)
                 = AdminCacheManager.invalidateResource r (cache e)).
    { destruct h; simpl in Hr; simplify_eq; reflexivity. }
    split; [exact Hc|]. intros id. rewrite Hc.
    split; by apply invalidateResource_absorbs.
  - intros Hr k q Hq Hm. destruct h; simpl in Hr; try discriminate;
      simpl; rewrite lookup_invalidateQueries, Hq; simpl; by rewrite Hm.
Qed.

Lemma hook_success_is_invalidateResource_witness :
  resourceOf useDeleteProduct = Some products
  /\ cache (onSuccess useDeleteProduct EmptyString (mkEnv Examples.ordersCache []))
     = AdminCacheManager.invalidateResource products Examples.ordersCache.
Proof.
  split; [reflexivity|].
  exact (proj1 (proj1 (hook_success_is_invalidateResource useDeleteProduct EmptyString
                         (mkEnv Examples.ordersCache [])) products eq_refl)).
Defined.

End HooksAndManager.

(** ** More on optimistic updates *)

Section OptimisticMore.

Import useOptimisticUpdate PendingUpdates.

Lemma resume_pendingUpdates (k : Suspended) (h : Callbacks) (o : Outcome) (e : Env) :
  pendingUpdates (snd (resume k h o e)) = base.delete (updateId k) (pendingUpdates e).
Proof.
  destruct o as [result|error]; cbn [resume].
  - destruct (onSuccess h result); [|done].
    rewrite catchBlock_pendingUpdates. cbn [pendingUpdates]. apply delete_delete_eq.
  - apply catchBlock_pendingUpdates.
Qed.


(** X9. The pending-update marker makes a round trip: starting an optimistic
    update under an id that is not pending raises the count by one and sets
    [hasPendingUpdates]; when the mutation settles, in success or in
    failure, and whatever the callbacks do, the map of pending updates is
    again what it was before the update started. *)
Theorem pending_marker_round_trip (key : list JsValue)
    (updateFn : option JsValue -> option JsValue) (updateId : string)
    (h : Callbacks) (o : Outcome) (e : Env) :
  pendingUpdates e !! updateId = None ->
  let started := updateOptimistically key updateFn updateId e in
  pendingUpdatesCount (snd started) = S (pendingUpdatesCount e)
  /\ hasPendingUpdates (snd started) = true
  /\ pendingUpdates (snd (resume (fst started) h o (snd started))) = pendingUpdates e.
Proof.
  intros Hfresh; cbv zeta. split; [|split].
  - unfold pendingUpdatesCount; simpl. by apply map_size_insert_None.
  - unfold hasPendingUpdates, pendingUpdatesCount; simpl.
    by rewrite map_size_insert_None.
  - rewrite resume_pendingUpdates. simpl. by rewrite delete_insert_id.
Qed.

Lemma pending_marker_round_trip_witness :
  let e := mkEnv Examples.ordersCache ∅ [] [] in
  let key := ADMIN_CACHE_KEYS.detail orders "42" in
  let started := updateOptimistically key (fun _ => Some (JNum 9)) "u1" e in
  pendingUpdates e !! "u1" = None
  /\ pendingUpdates (snd (resume (fst started) quiet (Rejected "boom") (snd started))) = ∅.
Proof.
  split; [reflexivity|].
  exact (proj2 (proj2 (pending_marker_round_trip (ADMIN_CACHE_KEYS.detail orders "42")
                         (fun _ => Some (JNum 9)) "u1" quiet (Rejected "boom")
                         (mkEnv Examples.ordersCache ∅ [] []) eq_refl))).
Defined.





End OptimisticMore.

(** ** More on the event channel *)

Section ChannelMore.

Import useAdminRealtime.

Lemma clearTimeout_length timer (l : list nat) :
  (length (clearTimeout timer l) <= length l)%nat.
Proof.
  destruct timer as [t|]; simpl; [apply List.filter_length_le|lia].
Qed.

Lemma clearTimeout_pending_length t (l : list nat) :
  existsb (Nat.eqb t) l = true -> (S (length (clearTimeout (Some t) l)) <= length l)%nat.
Proof.
  unfold clearTimeout.
  induction l as [|x l IH]; cbn [existsb List.filter length]; [discriminate|].
  destruct (t =? x)%nat eqn:Htx.
  - apply Nat.eqb_eq in Htx as ->. rewrite Nat.eqb_refl. cbn [orb negb].
    intros _. pose proof (List.filter_length_le (fun t' => negb (t' =? x)%nat) l). lia.
  - rewrite Nat.eqb_sym, Htx. cbn [orb negb length]. intros Hin. specialize (IH Hin). lia.
Qed.



(** X13. Every connection after the first comes from a timer or from the
    effect running again: over the life of a mounted hook, whatever the
    options of the closures that handle the events, the connections opened
    and the timers still pending together never exceed one plus the number
    of timers ever set plus the number of times the effect ran again. A run
    under one set of options is the case without such a rerun. The reruns
    count: switching [enabled] off and on again opens a second connection
    without any timer. *)
Theorem connections_bounded_by_timers_and_reruns (o : Options)
    (xs : list RealtimeRenders.Occurrence) :
  let s := RealtimeRenders.runRenders (mounted o) xs in
  (eventSources s + length (pending s)
   <= 1 + length (scheduled s) + RealtimeRenders.reruns xs)%nat
  /\ (forall events,
        RealtimeRenders.runRenders (mounted o) (map (RealtimeRenders.Handled o) events)
        = run o (mounted o) events
        /\ RealtimeRenders.reruns (map (RealtimeRenders.Handled o) events) = 0%nat)
  /\ (forall off, isAdmin o = true -> enabled o = true ->
        isAdmin off = false \/ enabled off = false ->
        let s' := RealtimeRenders.runRenders (mounted o)
                    [RealtimeRenders.EffectRerun off; RealtimeRenders.EffectRerun o] in
        eventSources s' = 2%nat /\ scheduled s' = []).
Proof.
  cbv zeta. split; [|split].
  - assert (Hconnect : forall o' s k,
              (eventSources s + length (pending s) <= k + length (scheduled s))%nat ->
              (eventSources (connect o' s) + length (pending (connect o' s))
               <= S k + length (scheduled (connect o' s)))%nat).
    { intros o' s k Hs. unfold connect.
      destruct (negb (isAdmin o') || negb (enabled o')); simpl; lia. }
    assert (Hinv : forall ys s k,
              (eventSources s + length (pending s) <= k + length (scheduled s))%nat ->
              (eventSources (RealtimeRenders.runRenders s ys)
               + length (pending (RealtimeRenders.runRenders s ys))
               <= k + length (scheduled (RealtimeRenders.runRenders s ys))
                  + RealtimeRenders.reruns ys)%nat).
    { induction ys as [|y ys IH]; intros s k Hs.
      - unfold RealtimeRenders.reruns. simpl. lia.
      - destruct y as [o' ev|o'].
        + change (RealtimeRenders.reruns (RealtimeRenders.Handled o' ev :: ys))
            with (RealtimeRenders.reruns ys).
          change (RealtimeRenders.runRenders s (RealtimeRenders.Handled o' ev :: ys))
            with (RealtimeRenders.runRenders (step o' s ev) ys).
          apply IH. destruct ev as [| |t| |]; simpl.
          * done.
          * unfold onerror. destruct (reconnectAttempts s <? 5); simpl; [|done].
            rewrite !length_app; simpl. lia.
          * unfold fire. destruct (existsb (Nat.eqb t) (pending s)) eqn:Hin; [|done].
            pose proof (clearTimeout_pending_length t (pending s) Hin) as Hlen.
            unfold connect. destruct (negb (isAdmin o') || negb (enabled o'));
              simpl in *; lia.
          * rewrite !length_app; simpl.
            pose proof (clearTimeout_length (reconnectTimeout s) (pending s)). lia.
          * pose proof (clearTimeout_length (reconnectTimeout s) (pending s)). lia.
        + change (RealtimeRenders.reruns (RealtimeRenders.EffectRerun o' :: ys))
            with (S (RealtimeRenders.reruns ys)).
          change (RealtimeRenders.runRenders s (RealtimeRenders.EffectRerun o' :: ys))
            with (RealtimeRenders.runRenders (connect o' (disconnect s)) ys).
          assert (Hd : (eventSources (disconnect s) + length (pending (disconnect s))
                        <= k + length (scheduled (disconnect s)))%nat).
          { simpl. pose proof (clearTimeout_length (reconnectTimeout s) (pending s)). lia. }
          pose proof (IH _ _ (Hconnect o' _ _ Hd)). lia. }
    apply Hinv. unfold mounted, connect.
    destruct (negb (isAdmin o) || negb (enabled o)); simpl; lia.
  - intros events. split.
    + unfold RealtimeRenders.runRenders, run. generalize (mounted o).
      induction events as [|ev events IH]; intros s; [done|]. simpl. apply IH.
    + unfold RealtimeRenders.reruns. induction events as [|ev events IH]; [done|]. exact IH.
  - intros off Hadmin Henabled Hoff.
    assert (Hgate : negb (isAdmin off) || negb (enabled off) = true).
    { by destruct Hoff as [-> | ->]; rewrite ?orb_true_r. }
    assert (Hclosed : forall s, connect off s = s).
    { intros s. unfold connect. by rewrite Hgate. }
    unfold RealtimeRenders.runRenders. cbn [foldl RealtimeRenders.occur].
    rewrite Hclosed. unfold mounted, connect. rewrite Hadmin, Henabled. by cbn.
Qed.

Lemma pending_after_failures (i : Z) (n : nat) :
  pending (run (mkOptions true true i) (mounted (mkOptions true true i)) (failures n)) = [].
Proof.
  destruct (decide (n <= 5)%nat) as [Hn|Hn].
  - assert (Hcases : n = 0%nat \/ n = 1%nat \/ n = 2%nat \/ n = 3%nat
                     \/ n = 4%nat \/ n = 5%nat) by lia.
    by destruct Hcases as [->|[->|[->|[->|[->| ->]]]]].
  - assert (Hex : exists extra, n = (6 + extra)%nat) by (exists (n - 6)%nat; lia).
    destruct Hex as [extra ->]. by rewrite run_failures_beyond.
Qed.

(** X14. Teardown after a period of failures: when the hook is disconnected
    after [n] consecutive failures and one more failure whose timer has not
    fired yet, no timer is pending any more, so that no timer event opens a
    connection afterwards; the attempt number is 0 and the error state is
    cleared. *)
Theorem disconnect_after_failures_cancels_reconnect (o : Options) (n : nat) :
  isAdmin o = true -> enabled o = true ->
  let s := disconnect (onerror o (run o (mounted o) (failures n))) in
  pending s = [] /\ (forall t, fire o t s = s)
  /\ reconnectAttempts s = 0 /\ connectionError s = None /\ isConnected s = false
  /\ eventSource s = None.
Proof.
  intros Hadmin Henabled. destruct o as [adm en i]; simpl in *; subst adm en.
  assert (Hp : pending (disconnect (onerror (mkOptions true true i)
                 (run (mkOptions true true i) (mounted (mkOptions true true i))
                    (failures n)))) = []).
  { simpl. unfold onerror.
    destruct (reconnectAttempts _ <? 5); simpl; rewrite pending_after_failures; simpl;
      [by rewrite Nat.eqb_refl|].
    by destruct (reconnectTimeout _). }
  cbv zeta. split; [exact Hp|]. split; [|done].
  intros t. unfold fire. by rewrite Hp.
Qed.

Lemma disconnect_after_failures_cancels_reconnect_witness :
  isAdmin defaultOptions = true /\ enabled defaultOptions = true
  /\ pending (disconnect (onerror defaultOptions
                (run defaultOptions (mounted defaultOptions) (failures 2)))) = [].
Proof.
  split; [reflexivity|]. split; [reflexivity|].
  exact (proj1 (disconnect_after_failures_cancels_reconnect defaultOptions 2
                  eq_refl eq_refl)).
Defined.

(** X15. [disconnect] cancels only the timer set last. When two failures arrive
    before the timer of the first has fired, the timer of the first is still
    pending after [disconnect], and when it fires the torn-down hook opens a
    new connection. *)
Theorem disconnect_leaves_earlier_timer (o : Options) (s : State) :
  isAdmin o = true -> enabled o = true -> reconnectAttempts s < 4 ->
  let first := length (scheduled s) in
  let torn := disconnect (onerror o (onerror o s)) in
  existsb (Nat.eqb first) (pending torn) = true
  /\ eventSources (fire o first torn) = S (eventSources torn)
  /\ eventSource (fire o first torn) = Some (eventSources torn)
  /\ eventSource torn = None.
Proof.
  intros Hadmin Henabled Hlt. cbv zeta.
  assert (H1 : (reconnectAttempts s <? 5) = true) by (apply Z.ltb_lt; lia).
  assert (H2 : (reconnectAttempts s + 1 <? 5) = true) by (apply Z.ltb_lt; lia).
  assert (Hin : existsb (Nat.eqb (length (scheduled s)))
                  (pending (disconnect (onerror o (onerror o s)))) = true).
  { unfold onerror. rewrite H1; simpl. rewrite H2; simpl.
    rewrite length_app; simpl.
    rewrite <- app_assoc, List.filter_app, existsb_app. cbn [app List.filter].
    replace (length (scheduled s) =? length (scheduled s) + 1)%nat with false
      by (symmetry; apply Nat.eqb_neq; lia).
    rewrite Nat.eqb_refl. cbn [negb existsb]. by rewrite Nat.eqb_refl, orb_true_r. }
  split; [exact Hin|].
  unfold fire. rewrite Hin. unfold connect. rewrite Hadmin, Henabled. by simpl.
Qed.

Lemma disconnect_leaves_earlier_timer_witness :
  isAdmin defaultOptions = true /\ enabled defaultOptions = true
  /\ reconnectAttempts (mounted defaultOptions) < 4
  /\ eventSources (fire defaultOptions 0
                     (disconnect (onerror defaultOptions
                                    (onerror defaultOptions (mounted defaultOptions)))))
     = 2%nat.
Proof.
  split; [reflexivity|]. split; [reflexivity|]. split; [reflexivity|].
  exact (proj1 (proj2 (disconnect_leaves_earlier_timer defaultOptions
                         (mounted defaultOptions) eq_refl eq_refl eq_refl))).
Defined.

End ChannelMore.

(** ** Realtime messages of the events route *)

Section RouteEvents.

Import useAdminRealtime.

(** X16. The events that the route sends, handled by [onmessage]: each is handed
    to [onEvent] once and none of them raises a notification (the order
    heartbeat carries the action [heartbeat], not [created]). The connection
    event leaves the cache as it is; a stats heartbeat marks stale every
    entry under [admin.dashboard.stats], whatever its time range, and
    nothing else; an order heartbeat marks stale the recent orders of the
    dashboard and every entry under [admin.orders]. *)
Theorem route_events_handled (sent : EventsRoute.Sent) (timestamp : string) (e : Env) :
  let e' := onmessage (Some (EventsRoute.payload sent timestamp)) e in
  toasts e' = toasts e
  /\ delivered e' = delivered e ++ [EventsRoute.payload sent timestamp]
  /\ cache e'
     = match sent with
       | EventsRoute.Connected => cache e
       | EventsRoute.StatsTick =>
           invalidateQueries [JStr "admin"; JStr "dashboard"; JStr "stats"] (cache e)
       | EventsRoute.OrderTick =>
           invalidateQueries [JStr "admin"; JStr "orders"]
             (invalidateQueries [JStr "admin"; JStr "dashboard"; JStr "recent-orders"]
                (cache e))
       end
  /\ (forall (timeRange : JsValue) (h : string) q,
        cache e !! h = Some q ->
        queryKey q = ADMIN_CACHE_KEYS.dashboard.stats timeRange ->
        cache (onmessage (Some (EventsRoute.payload EventsRoute.StatsTick timestamp)) e) !! h
        = Some (invalidate q))
  /\ (forall (h : string) q,
        cache e !! h = Some q ->
        matches [JStr "admin"; JStr "dashboard"; JStr "stats"] q = false ->
        cache (onmessage (Some (EventsRoute.payload EventsRoute.StatsTick timestamp)) e) !! h
        = Some q).
Proof.
  cbv zeta. split; [by destruct sent|]. split; [by destruct sent|].
  split; [by destruct sent|]. split.
  - intros timeRange h q Hq Hk. simpl.
    rewrite lookup_invalidateQueries, Hq; simpl.
    replace (matches [JStr "admin"; JStr "dashboard"; JStr "stats"] q) with true; [done|].
    unfold matches. rewrite Hk, dashboard_stats_cases. by destruct (Js.truthy timeRange).
  - intros h q Hq Hm. simpl. rewrite lookup_invalidateQueries, Hq; simpl. by rewrite Hm.
Qed.

End RouteEvents.

(** ** More on the API client *)

Section RequestMore.

Import ApiClient.

Lemma statusMessage_plain (status : Z) : includes "HTTP error!" (statusMessage status) = false.
Proof.
  unfold statusMessage.
  repeat match goal with |- context [if ?b then _ else _] => destruct b end;
    vm_compute; reflexivity.
Qed.

(** X17. [getUserFriendlyErrorMessage] on an error object: a non-empty string
    under [details.error] is returned as it is; otherwise the message
    returned never contains the text [HTTP error!], and it is the message of
    the status code when the object has no usable [error] or [message];
    reading from an object never throws. *)
Theorem friendly_message_priority (status : Z) (fields : list (string * JsValue)) :
  (forall s, nonEmptyString (optProp (Js.getField "details" fields) "error") = Some s ->
     getUserFriendlyErrorMessage status (JObj fields) = Some s)
  /\ (nonEmptyString (optProp (Js.getField "details" fields) "error") = None ->
      exists m, getUserFriendlyErrorMessage status (JObj fields) = Some m
                /\ includes "HTTP error!" m = false)
  /\ (plainMessage (Js.getField "error" fields) = None ->
      plainMessage (Js.getField "message" fields) = None ->
      nonEmptyString (optProp (Js.getField "details" fields) "error") = None ->
      getUserFriendlyErrorMessage status (JObj fields) = Some (statusMessage status))
  /\ getUserFriendlyErrorMessage status (JObj []) = Some (statusMessage status)
  /\ getUserFriendlyErrorMessage status JNull = None.
Proof.
  unfold getUserFriendlyErrorMessage; simpl.
  split; [by intros s ->|]. split; [|split; [by intros -> -> ->|done]].
  intros ->.
  assert (Hplain : forall v m, plainMessage v = Some m -> includes "HTTP error!" m = false).
  { intros v m. unfold plainMessage. destruct (nonEmptyString v) as [s|]; [|done].
    destruct (includes "HTTP error!" s) eqn:Hs; [done|]. by intros [= <-]. }
  destruct (plainMessage (Js.getField "error" fields)) as [m|] eqn:He;
    [exists m; eauto|].
  destruct (plainMessage (Js.getField "message" fields)) as [m|] eqn:Hm;
    [exists m; eauto|].
  exists (statusMessage status). split; [done|apply statusMessage_plain].
Qed.

Lemma friendly_message_priority_witness :
  getUserFriendlyErrorMessage 400
    (JObj [("message", JStr "Bad Request");
           ("details", JObj [("error", JStr "Stock too low")])])
  = Some "Stock too low".
Proof.
  exact (proj1 (friendly_message_priority 400
                  [("message", JStr "Bad Request");
                   ("details", JObj [("error", JStr "Stock too low")])])
           "Stock too low" eq_refl).
Defined.

(** [request], case by case. *)
Lemma request_eq (b : Backend) (hasWindow : bool) (baseUrl endpoint : string) (w : World) :
  let n := length (calls w) in
  let first := mkCall (baseUrl +:+ endpoint) (accessToken b n) in
  let refresh := mkCall (baseUrl +:+ "/auth/refresh-token") None in
  let retry := mkCall (baseUrl +:+ endpoint)
                 (match accessToken b (S (S n)) with
                  | Some t => Some t
                  | None => accessToken b n
                  end) in
  request b hasWindow baseUrl endpoint w
  = match network b n with
    | Throws t => (inr (caught t), mkWorld (calls w ++ [first]) (loggedOut w) (location w))
    | Responds resp =>
        if (status resp =? 401) && negb (includes "/auth/refresh-token" endpoint)
           && negb (includes "/auth/login" endpoint)
        then
          if answeredOk (network b (S n)) then
            (settle (network b (S (S n))),
             mkWorld (calls w ++ [first; refresh; retry]) (loggedOut w) (location w))
          else
            (inr sessionExpired,
             mkWorld (calls w ++ [first; refresh])
               (if hasWindow then true else loggedOut w)
               (if hasWindow then Some "/login" else location w))
        else
          (settle (Responds resp),
           mkWorld (calls w ++ [first]) (loggedOut w) (location w))
    end.
Proof.
  cbv zeta. unfold request, fetch.
  destruct (network b (length (calls w))) as [resp|t]; [|done].
  destruct ((status resp =? 401) && negb (includes "/auth/refresh-token" endpoint)
            && negb (includes "/auth/login" endpoint)); [|by destruct (ok resp) eqn:Hok; simpl; rewrite Hok].
  unfold refreshTokens, fetch; cbn [calls]. rewrite !length_snoc.
  destruct (network b (S (length (calls w)))) as [r|t]; simpl.
  - destruct (ok r); simpl.
    + unfold getAccessToken; cbn [calls]. rewrite !length_snoc.
      destruct (network b (S (S (length (calls w))))) as [r2|t2]; simpl.
      * destruct (ok r2); simpl; by rewrite <- !app_assoc.
      * by rewrite <- !app_assoc.
    + destruct hasWindow; simpl; by rewrite <- !app_assoc.
  - destruct hasWindow; simpl; by rewrite <- !app_assoc.
Qed.

Lemma settle_friendly (r : FetchResult) (err : ApiError) :
  settle r = inr err -> userFriendly err = true.
Proof.
  destruct r as [resp|t]; simpl.
  - destruct (ok resp).
    + unfold bodyOf. destruct (json resp); [done|]. by intros [= <-].
    + unfold errorOf. destruct (getUserFriendlyErrorMessage _ _); by intros [= <-].
  - destruct t; by intros [= <-].
Qed.

(** X18. Whatever the backend does, one call of [request] calls [fetch] once,
    twice or three times and no more: the request, then at most one token
    refresh, then at most one retry of the request. A first answer other
    than 401 is settled at once: no refresh, no retry, no logout. Every
    error that [request] throws is marked user friendly. *)
Theorem request_fetches_at_most_three_times (b : Backend) (hasWindow : bool)
    (baseUrl endpoint : string) (w : World) :
  let n := length (calls w) in
  let first := mkCall (baseUrl +:+ endpoint) (accessToken b n) in
  let refresh := mkCall (baseUrl +:+ "/auth/refresh-token") None in
  let result := fst (request b hasWindow baseUrl endpoint w) in
  let w' := snd (request b hasWindow baseUrl endpoint w) in
  (calls w' = calls w ++ [first]
   \/ calls w' = calls w ++ [first; refresh]
   \/ exists retry, calls w' = calls w ++ [first; refresh; retry]
                    /\ url retry = baseUrl +:+ endpoint)
  /\ (forall resp, network b n = Responds resp -> status resp <> 401 ->
        result = settle (Responds resp) /\ calls w' = calls w ++ [first]
        /\ loggedOut w' = loggedOut w /\ location w' = location w)
  /\ (forall t, network b n = Throws t ->
        result = inr (caught t) /\ calls w' = calls w ++ [first]
        /\ loggedOut w' = loggedOut w /\ location w' = location w)
  /\ (forall err, result = inr err -> userFriendly err = true).
Proof.
  cbv zeta. rewrite request_eq. cbv zeta.
  destruct (network b (length (calls w))) as [resp|t] eqn:Hnet.
  - destruct ((status resp =? 401) && negb (includes "/auth/refresh-token" endpoint)
              && negb (includes "/auth/login" endpoint)) eqn:Hgate.
    + destruct (answeredOk (network b (S (length (calls w))))); simpl.
      * split; [right; right; eexists; by split|].
        split; [|split; [done|apply settle_friendly]].
        intros resp' [= <-] Hne. apply andb_prop in Hgate as [Hgate _].
        apply andb_prop in Hgate as [Hgate _]. apply Z.eqb_eq in Hgate. done.
      * split; [right; by left|].
        split; [|split; [done|by intros err [= <-]]].
        intros resp' [= <-] Hne. apply andb_prop in Hgate as [Hgate _].
        apply andb_prop in Hgate as [Hgate _]. apply Z.eqb_eq in Hgate. done.
    + simpl. split; [by left|]. split; [by intros resp' [= <-] _|].
      split; [done|apply (settle_friendly (Responds resp))].
  - simpl. split; [by left|]. split; [done|]. split; [by intros t' [= <-]|].
    intros err [= <-]. by destruct t.
Qed.

(** X19. The client logs the user out and redirects to [/login] in one case
    only: in a browser, when the first answer is 401, the endpoint is neither
    the refresh nor the login endpoint, and the token refresh does not
    answer with an ok status. In every other case the logout flag and the
    location are as before. *)
Theorem request_logs_out_only_on_failed_refresh (b : Backend) (hasWindow : bool)
    (baseUrl endpoint : string) (w : World) :
  let n := length (calls w) in
  let expired :=
    hasWindow
    && match network b n with
       | Responds resp => status resp =? 401
       | Throws _ => false
       end
    && negb (includes "/auth/refresh-token" endpoint)
    && negb (includes "/auth/login" endpoint)
    && negb (answeredOk (network b (S n))) in
  let w' := snd (request b hasWindow baseUrl endpoint w) in
  loggedOut w' = (if expired then true else loggedOut w)
  /\ location w' = (if expired then Some "/login" else location w)
  /\ (expired = true -> fst (request b hasWindow baseUrl endpoint w) = inr sessionExpired).
Proof.
  cbv zeta. rewrite request_eq. cbv zeta.
  destruct (network b (length (calls w))) as [resp|t]; simpl;
    [|by rewrite andb_false_r].
  destruct (status resp =? 401); simpl; [|by rewrite andb_false_r].
  destruct (includes "/auth/refresh-token" endpoint); simpl; [by rewrite andb_false_r|].
  destruct (includes "/auth/login" endpoint); simpl; [by rewrite andb_false_r|].
  rewrite !andb_true_r.
  destruct (answeredOk (network b (S (length (calls w))))); simpl;
    [by rewrite andb_false_r|].
  rewrite andb_true_r. by destruct hasWindow.
Qed.

End RequestMore.

(** ** Methods built on [request] *)

Section Methods.

Import ApiClient ApiMethods.

(** X20. [getAdminOrderStatsEnhanced] never throws: it returns the body that
    the backend sent with an ok status, or else the fallback object, whose
    [success] is [true] and whose figures are zero; the calls, the logout
    and the redirect are those of the underlying [get]. In particular, when
    the session has expired (401 and a failed token refresh), the client
    logs out and redirects to [/login] while the caller receives the
    fallback object as a success. [updateAdminOrderStatusEnhanced], in
    contrast, passes every error on. *)
Theorem order_stats_fallback_hides_errors (b : Backend) (hasWindow : bool)
    (baseUrl : string) (timeRange : option string) (timestamp : string) (w : World) :
  let endpoint := "/admin/orders/stats" +:+ timeRangeParams timeRange in
  let got := get b hasWindow baseUrl endpoint w in
  let answer := getAdminOrderStatsEnhanced b hasWindow baseUrl timeRange timestamp w in
  snd answer = snd got
  /\ (forall v, fst got = inl v -> fst answer = v)
  /\ (forall err, fst got = inr err -> fst answer = orderStatsFallback timestamp)
  /\ optProp (orderStatsFallback timestamp) "success" = JBool true
  /\ (forall resp,
        network b (length (calls w)) = Responds resp -> status resp = 401 ->
        includes "/auth/refresh-token" endpoint = false ->
        includes "/auth/login" endpoint = false ->
        answeredOk (network b (S (length (calls w)))) = false ->
        fst answer = orderStatsFallback timestamp
        /\ loggedOut (snd answer) = (if hasWindow then true else loggedOut w)
        /\ location (snd answer) = (if hasWindow then Some "/login" else location w))
  /\ (forall id,
        updateAdminOrderStatusEnhanced b hasWindow baseUrl id w
        = request b hasWindow baseUrl ("/admin/orders/" +:+ id +:+ "/status") w).
Proof.
  cbv zeta. unfold getAdminOrderStatsEnhanced, updateAdminOrderStatusEnhanced, put.
  split; [by destruct (get _ _ _ _ _) as [[v|err] w']|].
  split; [by destruct (get _ _ _ _ _) as [[v|err] w']; simpl; intros ? [= <-]|].
  split; [by destruct (get _ _ _ _ _) as [[v|err] w']; simpl; intros ? [=]|].
  split; [done|]. split.
  - intros resp Hnet H401 Hr Hl Hrefresh. unfold get.
    rewrite request_eq; cbv zeta. rewrite Hnet, H401, Hr, Hl, Hrefresh. by simpl.
  - intros id. by destruct (request _ _ _ _ _) as [[v|err] w'].
Qed.

Lemma order_stats_fallback_hides_errors_witness :
  let b := mkBackend (fun _ => Responds (mkResponse 401 None)) (fun _ => None) in
  network b (length (calls start)) = Responds (mkResponse 401 None)
  /\ status (mkResponse 401 None) = 401
  /\ answeredOk (network b 1) = false
  /\ fst (getAdminOrderStatsEnhanced b true "/api" None "2025-01-01T00:00:00Z" start)
     = orderStatsFallback "2025-01-01T00:00:00Z".
Proof.
  split; [reflexivity|]. split; [reflexivity|]. split; [reflexivity|].
  exact (proj1 (proj1 (proj2 (proj2 (proj2 (proj2
           (order_stats_fallback_hides_errors
              (mkBackend (fun _ => Responds (mkResponse 401 None)) (fun _ => None))
              true "/api" None "2025-01-01T00:00:00Z" start)))))
           (mkResponse 401 None) eq_refl eq_refl eq_refl eq_refl eq_refl)).
Defined.

End Methods.

(** ** Many users of the singleton hook *)

Section ManyMounts.

Import Singleton SingletonUse.

Lemma mount_registered (n : nat) (h : Heap) (m : nat) :
  adminCacheManager h = Some m ->
  mount n h = (replicate n m,
               {| clients := clients h ++ replicate n ∅; managers := managers h;
                  adminCacheManager := Some m |}).
Proof.
  revert h. induction n as [|n IH]; intros h Hm; simpl.
  - rewrite app_nil_r. destruct h; simpl in *; by subst.
  - rewrite (useAdminCacheManager_registered h m Hm).
    rewrite IH by done. simpl. by rewrite <- app_assoc.
Qed.

(** X21. When [n + 1] components call [useAdminCacheManager] and no manager
    exists yet, all of them receive the same manager, the one created for
    the first; that manager is bound to the client constructed by the first
    call, and the [n] clients constructed by the later calls are empty caches
    that no manager refers to. *)
Theorem all_mounts_share_first_manager (n : nat) (h : Heap) :
  adminCacheManager h = None ->
  let m := length (managers h) in
  let first := length (clients h) in
  mount (S n) h
  = (replicate (S n) m,
     {| clients := clients h ++ replicate (S n) ∅;
        managers := managers h ++ [first];
        adminCacheManager := Some m |})
  /\ managers (snd (mount (S n) h)) !! m = Some first
  /\ length (managers (snd (mount (S n) h))) = S (length (managers h))
  /\ (forall k, (first < k < first + S n)%nat ->
        clients (snd (mount (S n) h)) !! k = Some ∅
        /\ forall method, clients (call m method (snd (mount (S n) h))) !! k = Some ∅).
Proof.
  intros Hnone. cbv zeta.
  assert (Hmount : mount (S n) h
            = (replicate (S n) (length (managers h)),
               {| clients := clients h ++ replicate (S n) ∅;
                  managers := managers h ++ [length (clients h)];
                  adminCacheManager := Some (length (managers h)) |})).
  { cbn [mount]. unfold useAdminCacheManager, getAdminCacheManager; simpl.
    rewrite Hnone; simpl.
    erewrite (mount_registered n _ (length (managers h))) by reflexivity. simpl.
    by rewrite <- app_assoc. }
  rewrite Hmount; simpl. split; [done|]. split; [by apply list_lookup_middle|].
  split; [rewrite length_app; simpl; lia|].
  intros k Hk.
  assert (Hlook : (clients h ++ ∅ :: replicate n ∅) !! k = Some (∅ : gmap string Query)).
  { rewrite lookup_app_r by lia.
    change (∅ :: replicate n ∅) with (replicate (S n) (∅ : gmap string Query)).
    apply lookup_replicate_2. lia. }
  split; [exact Hlook|]. intros method. unfold call; simpl.
  rewrite list_lookup_middle by done. simpl.
  rewrite list_lookup_alter_ne by lia. exact Hlook.
Qed.

Lemma all_mounts_share_first_manager_witness :
  adminCacheManager Singleton.empty = None
  /\ fst (mount 3 Singleton.empty) = [0; 0; 0]%nat.
Proof.
  split; [reflexivity|].
  exact (f_equal fst (proj1 (all_mounts_share_first_manager 2 Singleton.empty eq_refl))).
Defined.

End ManyMounts.

(** ** The dashboard hook *)

Section Dashboard.

Import useAdminDashboard.

Lemma getQueryData_setQueryData_ne (key key' : list JsValue) u (c : gmap string Query) :
  hashKey key <> hashKey key' ->
  getQueryData key (setQueryData key' u c) = getQueryData key c.
Proof.
  intros Hne. unfold setQueryData.
  destruct (functionalUpdate u (getQueryData key' c)); [|done].
  unfold getQueryData. by rewrite lookup_insert_ne.
Qed.

Lemma getQueryData_setQueryData_value (key : list JsValue) (x : option JsValue)
    (c : gmap string Query) :
  getQueryData key (setQueryData key (UValue x) c)
  = match x with Some v => Some v | None => getQueryData key c end.
Proof. destruct x; [apply getQueryData_setQueryData|done]. Qed.

Lemma stats_hash_not_fixed (timeRange : string) (key : list JsValue) :
  key = ADMIN_CACHE_KEYS.dashboard.overview
  \/ key = ADMIN_CACHE_KEYS.dashboard.recentOrders
  \/ key = ADMIN_CACHE_KEYS.dashboard.topProducts
  \/ key = ADMIN_CACHE_KEYS.dashboard.recentCustomers ->
  hashKey (ADMIN_CACHE_KEYS.dashboard.stats (JStr timeRange)) <> hashKey key.
Proof.
  intros Hkey. rewrite dashboard_stats_cases.
  destruct timeRange as [|ch rest];
    destruct Hkey as [->|[->|[->| ->]]]; cbn; discriminate.
Qed.

Lemma stats_hash_with_range (timeRange : string) :
  timeRange <> EmptyString ->
  hashKey (ADMIN_CACHE_KEYS.dashboard.stats (JStr timeRange))
  <> hashKey ADMIN_QUERY_KEYS.stats.
Proof.
  intros Hne. rewrite dashboard_stats_cases.
  destruct timeRange as [|ch rest]; [done|]. cbn. discriminate.
Qed.

Lemma getQueryData_hash (key key' : list JsValue) (c : gmap string Query) :
  hashKey key = hashKey key' -> getQueryData key c = getQueryData key' c.
Proof. intros H. unfold getQueryData. by rewrite H. Qed.

(** What the seeding block leaves under the five keys for an admin. *)
Lemma seed_reads_back (d : AdminDashboardData) (timeRange : string) (c : gmap string Query) :
  let c' := seed true (Some d) timeRange c in
  getQueryData (statsQueryKey timeRange) c'
    = from_option Some (getQueryData (statsQueryKey timeRange) c) (stats d)
  /\ getQueryData ADMIN_CACHE_KEYS.dashboard.overview c'
     = from_option Some (getQueryData ADMIN_CACHE_KEYS.dashboard.overview c) (overview d)
  /\ getQueryData ADMIN_CACHE_KEYS.dashboard.recentOrders c'
     = from_option Some (getQueryData ADMIN_CACHE_KEYS.dashboard.recentOrders c)
         (recentOrders d)
  /\ getQueryData ADMIN_CACHE_KEYS.dashboard.topProducts c'
     = from_option Some (getQueryData ADMIN_CACHE_KEYS.dashboard.topProducts c)
         (topProducts d)
  /\ getQueryData ADMIN_CACHE_KEYS.dashboard.recentCustomers c'
     = from_option Some (getQueryData ADMIN_CACHE_KEYS.dashboard.recentCustomers c)
         (recentCustomers d).
Proof.
  cbv zeta. unfold seed, statsQueryKey.
  pose proof (stats_hash_not_fixed timeRange) as Hs.
  assert (Hs' : forall key,
            key = ADMIN_CACHE_KEYS.dashboard.overview
            \/ key = ADMIN_CACHE_KEYS.dashboard.recentOrders
            \/ key = ADMIN_CACHE_KEYS.dashboard.topProducts
            \/ key = ADMIN_CACHE_KEYS.dashboard.recentCustomers ->
            hashKey key <> hashKey (ADMIN_CACHE_KEYS.dashboard.stats (JStr timeRange))).
  { intros key Hk Heq. by apply (Hs key Hk). }
  repeat split.
  + rewrite !getQueryData_setQueryData_ne by (apply Hs; tauto).
    rewrite getQueryData_setQueryData_value. by destruct (stats d).
  + rewrite !getQueryData_setQueryData_ne by (vm_compute; discriminate).
    rewrite getQueryData_setQueryData_value.
    rewrite getQueryData_setQueryData_ne by (apply Hs'; tauto).
    by destruct (overview d).
  + rewrite !getQueryData_setQueryData_ne by (vm_compute; discriminate).
    rewrite getQueryData_setQueryData_value.
    rewrite getQueryData_setQueryData_ne by (vm_compute; discriminate).
    rewrite getQueryData_setQueryData_ne by (apply Hs'; tauto).
    by destruct (recentOrders d).
  + rewrite !getQueryData_setQueryData_ne by (vm_compute; discriminate).
    rewrite getQueryData_setQueryData_value.
    rewrite !getQueryData_setQueryData_ne by (vm_compute; discriminate).
    rewrite getQueryData_setQueryData_ne by (apply Hs'; tauto).
    by destruct (topProducts d).
  + rewrite getQueryData_setQueryData_value.
    rewrite !getQueryData_setQueryData_ne by (vm_compute; discriminate).
    rewrite getQueryData_setQueryData_ne by (apply Hs'; tauto).
    by destruct (recentCustomers d).
Qed.

Section Mounting.

Variable useQuery : UseQuery.
Hypothesis Hmount : MountsQueries useQuery.

Lemma mountAll_other (qs : list (list JsValue * option JsValue)) (c : gmap string Query)
    (h : string) :
  (forall q, q ∈ qs -> h <> hashKey (fst q)) -> mountAll useQuery c qs !! h = c !! h.
Proof.
  revert c. induction qs as [|q qs IH]; intros c Hh; [done|].
  cbn [mountAll foldl]. fold (mountAll useQuery (useQuery (fst q) (snd q) c) qs).
  rewrite IH by (intros q' Hq'; apply Hh; by right).
  apply (mount_other _ Hmount). apply Hh. by left.
Qed.

Lemma mountAll_undefined (qs : list (list JsValue * option JsValue)) (c : gmap string Query)
    (key : list JsValue) :
  (forall q, q ∈ qs -> snd q = None) ->
  getQueryData key (mountAll useQuery c qs) = getQueryData key c.
Proof.
  revert c. induction qs as [|[k0 i0] qs IH]; intros c Hq; [done|].
  cbn [mountAll foldl fst snd]. fold (mountAll useQuery (useQuery k0 i0 c) qs).
  rewrite IH by (intros q' Hq'; apply Hq; by right).
  assert (i0 = None) as -> by (apply (Hq (k0, i0)); by left).
  destruct (decide (hashKey key = hashKey k0)) as [He|Hne].
  - rewrite !(getQueryData_hash key k0) by done. apply (mount_undefined _ Hmount).
  - unfold getQueryData. by rewrite (mount_other _ Hmount).
Qed.

(** After several queries with distinct keys are mounted, each key reads
    as after the mounting of its own query. *)
Lemma mountAll_at (qs : list (list JsValue * option JsValue)) (c : gmap string Query)
    (key : list JsValue) (init : option JsValue) :
  NoDup ((fun q => hashKey (fst q)) <$> qs) -> (key, init) ∈ qs ->
  (forall v, getQueryData key c = Some v ->
     getQueryData key (mountAll useQuery c qs) = Some v)
  /\ (init = None -> getQueryData key (mountAll useQuery c qs) = getQueryData key c)
  /\ (c !! hashKey key = None -> getQueryData key (mountAll useQuery c qs) = init).
Proof.
  revert c. induction qs as [|[k0 i0] qs IH]; intros c Hnd Hin.
  { by apply elem_of_nil in Hin. }
  apply NoDup_cons in Hnd as [Hfresh Hnd].
  cbn [mountAll foldl fst snd]. fold (mountAll useQuery (useQuery k0 i0 c) qs).
  apply elem_of_cons in Hin as [Heq|Hin].
  - injection Heq as <- <-.
    assert (Hsame : getQueryData key (mountAll useQuery (useQuery key init c) qs)
                    = getQueryData key (useQuery key init c)).
    { unfold getQueryData. rewrite mountAll_other; [done|].
      intros q Hq Heq. apply Hfresh. cbn [fst]. rewrite Heq.
      by apply (list_elem_of_fmap_2 (fun q => hashKey (fst q))). }
    rewrite Hsame. split; [|split].
    + intros v Hv. by apply (mount_keeps _ Hmount).
    + intros ->. apply (mount_undefined _ Hmount).
    + intros Hnone. by apply (mount_new _ Hmount).
  - assert (Hne : hashKey key <> hashKey k0).
    { intros Heq. apply Hfresh. cbn [fst]. rewrite <- Heq.
      by apply (list_elem_of_fmap_2 (fun q => hashKey (fst q)) _ (key, init)). }
    assert (Hlook : useQuery k0 i0 c !! hashKey key = c !! hashKey key).
    { by apply (mount_other _ Hmount). }
    assert (Hdata : getQueryData key (useQuery k0 i0 c) = getQueryData key c).
    { unfold getQueryData. by rewrite Hlook. }
    destruct (IH (useQuery k0 i0 c) Hnd Hin) as (Hkeep & Hundef & Hnew).
    split; [|split].
    + intros v Hv. apply Hkeep. by rewrite Hdata.
    + intros Hi. by rewrite Hundef, Hdata.
    + intros Hnone. apply Hnew. by rewrite Hlook.
Qed.

End Mounting.

Lemma queries_NoDup (initialData : option AdminDashboardData) (timeRange : string) :
  NoDup ((fun q => hashKey (fst q)) <$> queries initialData timeRange).
Proof.
  unfold queries, statsQueryKey. cbn [fmap list_fmap fst].
  pose proof (stats_hash_not_fixed timeRange) as Hs.
  apply NoDup_cons. split.
  { intros Hin. repeat (apply elem_of_cons in Hin as [Hin|Hin]);
      [eapply Hs; [|exact Hin]; tauto..|by apply elem_of_nil in Hin]. }
  repeat (apply NoDup_cons; split;
          [intros Hin; repeat (apply elem_of_cons in Hin as [Hin|Hin]);
             [discriminate Hin..|by apply elem_of_nil in Hin]|]).
  apply NoDup_nil_2.
Qed.

Lemma recentCustomers_not_queried (initialData : option AdminDashboardData)
    (timeRange : string) q :
  q ∈ queries initialData timeRange ->
  hashKey ADMIN_CACHE_KEYS.dashboard.recentCustomers <> hashKey (fst q).
Proof.
  unfold queries, statsQueryKey. intros Hin Heq.
  repeat (apply elem_of_cons in Hin as [->|Hin]); cbn [fst] in Heq.
  - symmetry in Heq. eapply stats_hash_not_fixed; [|exact Heq]. tauto.
  - discriminate Heq.
  - discriminate Heq.
  - discriminate Heq.
  - by apply elem_of_nil in Hin.
Qed.

Lemma mountQuery_mounts : MountsQueries mountQuery.
Proof.
  split.
  - intros key init c h Hne. unfold mountQuery.
    destruct (c !! hashKey key); [done|]. by rewrite lookup_insert_ne.
  - intros key init c v Hv. unfold mountQuery, getQueryData in *.
    destruct (c !! hashKey key) eqn:Hq; [by rewrite Hq|done].
  - intros key c. unfold mountQuery, getQueryData.
    destruct (c !! hashKey key) eqn:Hq; [by rewrite Hq|]. by rewrite lookup_insert_eq.
  - intros key init c Hnone. unfold mountQuery, getQueryData.
    by rewrite Hnone, lookup_insert_eq.
Qed.

(** X22. Initial data reaches the cache whatever the role. [useQuery] is
    library code; assumed of it is that mounting a query leaves the other
    entries alone, keeps the data of a query that has data, adds no data
    without [initialData], and gives a new query its [initialData]. After
    the first render of [useAdminDashboard] with initial data: for an
    admin, each of the five dashboard keys reads back the given value (for
    the stats, under the key of the given time range), and a field that is
    [undefined] leaves what its key held. For a user who is not an admin
    the seeding block is skipped, yet the four queries are passed the same
    initial data: a queried key that has data keeps it, a queried key that
    is not in the cache reads back the initial value, and only the recent
    customers, which no query reads, stay as they were. Without initial
    data no key changes its data. *)
Theorem initial_data_reaches_cache (useQuery : UseQuery) (isAdmin : bool)
    (d : AdminDashboardData) (timeRange : string) (c : gmap string Query) :
  MountsQueries useQuery ->
  let c' := render useQuery isAdmin (Some d) timeRange c in
  (isAdmin = true ->
     getQueryData (statsQueryKey timeRange) c'
       = from_option Some (getQueryData (statsQueryKey timeRange) c) (stats d)
     /\ getQueryData ADMIN_CACHE_KEYS.dashboard.overview c'
        = from_option Some (getQueryData ADMIN_CACHE_KEYS.dashboard.overview c) (overview d)
     /\ getQueryData ADMIN_CACHE_KEYS.dashboard.recentOrders c'
        = from_option Some (getQueryData ADMIN_CACHE_KEYS.dashboard.recentOrders c)
            (recentOrders d)
     /\ getQueryData ADMIN_CACHE_KEYS.dashboard.topProducts c'
        = from_option Some (getQueryData ADMIN_CACHE_KEYS.dashboard.topProducts c)
            (topProducts d)
     /\ getQueryData ADMIN_CACHE_KEYS.dashboard.recentCustomers c'
        = from_option Some (getQueryData ADMIN_CACHE_KEYS.dashboard.recentCustomers c)
            (recentCustomers d))
  /\ (isAdmin = false ->
      (forall key init, (key, init) ∈ queries (Some d) timeRange ->
         (forall v, getQueryData key c = Some v -> getQueryData key c' = Some v)
         /\ (c !! hashKey key = None -> getQueryData key c' = init))
      /\ getQueryData ADMIN_CACHE_KEYS.dashboard.recentCustomers c'
         = getQueryData ADMIN_CACHE_KEYS.dashboard.recentCustomers c)
  /\ (forall key,
        getQueryData key (render useQuery isAdmin None timeRange c) = getQueryData key c).
Proof.
  intros Hmount. cbv zeta. unfold render.
  pose proof (queries_NoDup (Some d) timeRange) as Hnd.
  split; [|split].
  - intros ->. destruct (seed_reads_back d timeRange c) as (H1 & H2 & H3 & H4 & H5).
    assert (Hq : forall key init old,
              (key, init) ∈ queries (Some d) timeRange ->
              getQueryData key (seed true (Some d) timeRange c) = from_option Some old init ->
              getQueryData key (mountAll useQuery (seed true (Some d) timeRange c)
                                  (queries (Some d) timeRange))
              = from_option Some old init).
    { intros key init old Hin Hseed.
      destruct (mountAll_at useQuery Hmount _ (seed true (Some d) timeRange c) key init
                  Hnd Hin) as (Hkeep & Hundef & _).
      destruct init as [x|]; cbn [from_option] in *.
      - by apply Hkeep.
      - by rewrite Hundef. }
    split; [|split; [|split; [|split]]].
    + apply (Hq _ (stats d)); [|exact H1]. apply list_elem_of_here.
    + apply (Hq ADMIN_QUERY_KEYS.overview (overview d)); [|exact H2].
      apply list_elem_of_further, list_elem_of_here.
    + apply (Hq ADMIN_QUERY_KEYS.recentOrders (recentOrders d)); [|exact H3].
      do 2 apply list_elem_of_further. apply list_elem_of_here.
    + apply (Hq ADMIN_QUERY_KEYS.topProducts (topProducts d)); [|exact H4].
      do 3 apply list_elem_of_further. apply list_elem_of_here.
    + rewrite <- H5. unfold getQueryData at 1.
      rewrite (mountAll_other useQuery Hmount); [done|].
      apply recentCustomers_not_queried.
  - intros ->. cbn [seed]. split.
    + intros key init Hin.
      destruct (mountAll_at useQuery Hmount _ c key init Hnd Hin) as (Hkeep & _ & Hnew).
      by split.
    + unfold getQueryData at 1. rewrite (mountAll_other useQuery Hmount); [done|].
      apply recentCustomers_not_queried.
  - intros key. cbn [seed]. apply (mountAll_undefined useQuery Hmount).
    intros q Hq. unfold queries in Hq. cbn in Hq.
    repeat (apply elem_of_cons in Hq as [->|Hq]); try done. by apply elem_of_nil in Hq.
Qed.

Lemma initial_data_reaches_cache_witness :
  getQueryData ADMIN_QUERY_KEYS.overview
    (render mountQuery false (Some (mkData (Some (JNum 1)) (Some (JNum 2)) None None None))
       "7" ∅)
  = Some (JNum 2).
Proof.
  pose proof (initial_data_reaches_cache mountQuery false
    (mkData (Some (JNum 1)) (Some (JNum 2)) None None None) "7" ∅ mountQuery_mounts) as H.
  refine (proj2 (proj1 (proj1 (proj2 H) eq_refl) ADMIN_QUERY_KEYS.overview (Some (JNum 2)) _)
            (lookup_empty _)).
  apply list_elem_of_further, list_elem_of_here.
Defined.

(** X23. [updateStatsOptimistically] writes under the stats key without a time
    range. For every non-empty time range (the default is 30) the stats
    query of [useAdminDashboard] reads under another key, so it never sees
    the optimistic value; with the empty time range the two keys coincide.
    [updateOrdersOptimistically] and [updateProductsOptimistically] write
    under the keys that the dashboard reads. *)
Theorem optimistic_stats_update_misses_query (timeRange : string)
    (updater : option JsValue -> option JsValue) (c : gmap string Query) :
  (timeRange <> EmptyString ->
     getQueryData (statsQueryKey timeRange) (updateStatsOptimistically updater c)
     = getQueryData (statsQueryKey timeRange) c)
  /\ statsQueryKey EmptyString = ADMIN_QUERY_KEYS.stats
  /\ (forall v, updater (getQueryData ADMIN_CACHE_KEYS.dashboard.recentOrders c) = Some v ->
        getQueryData ADMIN_CACHE_KEYS.dashboard.recentOrders
          (updateOrdersOptimistically updater c) = Some v)
  /\ (forall v, updater (getQueryData ADMIN_CACHE_KEYS.dashboard.topProducts c) = Some v ->
        getQueryData ADMIN_CACHE_KEYS.dashboard.topProducts
          (updateProductsOptimistically updater c) = Some v).
Proof.
  split; [|split; [reflexivity|split]].
  - intros Hne. apply getQueryData_setQueryData_ne. by apply stats_hash_with_range.
  - intros v Hv. by apply getQueryData_update.
  - intros v Hv. by apply getQueryData_update.
Qed.

Lemma optimistic_stats_update_misses_query_witness :
  "30" <> EmptyString
  /\ getQueryData (statsQueryKey "30")
       (updateStatsOptimistically (fun _ => Some (JNum 1))
          (seed true (Some (mkData (Some (JNum 0)) None None None None)) "30" ∅))
     = getQueryData (statsQueryKey "30")
         (seed true (Some (mkData (Some (JNum 0)) None None None None)) "30" ∅).
Proof.
  assert (Hne : "30" <> EmptyString) by discriminate.
  split; [exact Hne|].
  exact (proj1 (optimistic_stats_update_misses_query "30" (fun _ => Some (JNum 1))
                  (seed true (Some (mkData (Some (JNum 0)) None None None None)) "30" ∅))
           Hne).
Defined.

End Dashboard.

(** ** Cleanup *)

Section Cleanup.

Import CacheCleanup.
Implicit Types (c : gmap string Query) (q : Query) (usage : gmap string Usage).

Lemma JsValue_fields_ind (P : JsValue -> Prop) :
  P JUndefined -> P JNull -> (forall b, P (JBool b)) -> (forall n, P (JNum n)) ->
  (forall s, P (JStr s)) ->
  (forall fs, Forall (fun kv => P (snd kv)) fs -> P (JObj fs)) ->
  forall v, P v.
Proof.
  intros Hu Hn Hb Hz Hs Ho. fix IH 1.
  intros [| |b|n|s|fs]; [exact Hu|exact Hn|apply Hb|apply Hz|apply Hs|].
  apply Ho. induction fs as [|[k x] fs IHfs]; constructor; [apply IH|apply IHfs].
Qed.

Lemma getField_elem (k : string) (x : JsValue) (fs : list (string * JsValue)) :
  NoDup fs.*1 -> (k, x) ∈ fs -> Js.getField k fs = x.
Proof.
  induction fs as [|[k' y] fs IH]; csimpl; intros Hnd Hin.
  - by apply elem_of_nil in Hin.
  - apply NoDup_cons in Hnd as [Hk Hnd].
    apply elem_of_cons in Hin as [Hin|Hin].
    + simplify_eq. by rewrite String.eqb_refl.
    + destruct (String.eqb k k') eqn:Hkk; [|by apply IH].
      apply String.eqb_eq in Hkk as ->. destruct Hk.
      apply list_elem_of_fmap. by exists (k', x).
Qed.

Lemma partialMatchValue_fields (l fa : list (string * JsValue)) :
  (forall k x, (k, x) ∈ l -> partialMatchValue x (Js.getField k fa) = true) ->
  partialMatchValue (JObj l) (JObj fa) = true.
Proof.
  induction l as [|[k x] l IH]; intros Hall; [done|].
  change (partialMatchValue x (Js.getField k fa) && partialMatchValue (JObj l) (JObj fa)
          = true).
  rewrite Hall by (by left). apply IH. intros k' x' Hin. apply Hall. by right.
Qed.

Lemma wellFormed_fields (fs : list (string * JsValue)) :
  JsShape.wellFormed (JObj fs) ->
  NoDup fs.*1 /\ Forall (fun kv => JsShape.wellFormed (snd kv)) fs.
Proof.
  intros [Hnd Heach]. split; [done|]. clear Hnd.
  induction fs as [|[k x] fs IH]; constructor; [apply Heach|apply IH, Heach].
Qed.

(** A well-formed value matches itself. *)
Lemma partialMatchValue_refl (v : JsValue) :
  JsShape.wellFormed v -> partialMatchValue v v = true.
Proof.
  induction v as [| |b|n|s|fs IH] using JsValue_fields_ind; intros Hwf; simpl.
  - done.
  - done.
  - by destruct b.
  - apply Z.eqb_refl.
  - apply String.eqb_refl.
  - apply wellFormed_fields in Hwf as [Hnd Hwf].
    apply partialMatchValue_fields. intros k x Hin.
    rewrite (getField_elem k x fs Hnd Hin).
    rewrite Forall_forall in IH, Hwf.
    by apply (IH (k, x)), (Hwf (k, x)).
Qed.

Lemma partialMatchKey_refl (key : list JsValue) :
  Forall JsShape.wellFormed key -> partialMatchKey key key = true.
Proof.
  induction 1 as [|v key Hv _ IH]; simpl; [done|].
  by rewrite partialMatchValue_refl.
Qed.

Lemma cleanup_perform now usage c :
  cleanup now usage c
  = InvalidationPolicy.perform (InvalidationPolicy.Evict <$> expiredKeys now usage c) c.
Proof.
  unfold cleanup, InvalidationPolicy.perform.
  generalize (expiredKeys now usage c). intros keys. revert c.
  induction keys as [|key keys IH]; intros c; simpl; [done|apply IH].
Qed.

Lemma onEntry_evictions (keys : list (list JsValue)) q :
  InvalidationPolicy.onEntry (InvalidationPolicy.Evict <$> keys) q
  = if existsb (fun key => matches key q) keys then None else Some q.
Proof.
  unfold InvalidationPolicy.onEntry.
  replace (InvalidationPolicy.evicts (InvalidationPolicy.Evict <$> keys) q)
    with (existsb (fun key => matches key q) keys).
  - destruct (existsb _ keys); [done|].
    replace (InvalidationPolicy.invalidates (InvalidationPolicy.Evict <$> keys) q)
      with false; [done|].
    induction keys as [|key keys IH]; [done|exact IH].
  - induction keys as [|key keys IH]; [done|]. simpl. by rewrite IH.
Qed.

Lemma expiredKeys_elem now usage c (key : list JsValue) :
  key ∈ expiredKeys now usage c
  <-> exists h q, c !! h = Some q /\ expired now usage h = true /\ queryKey q = key.
Proof.
  unfold expiredKeys. rewrite list_elem_of_omap. split.
  - intros [[h q] [Hin Hf]]. apply elem_of_map_to_list in Hin. simpl in Hf.
    destruct (expired now usage h) eqn:He; [|done]. exists h, q. by simplify_eq.
  - intros (h & q & Hq & He & <-). exists (h, q). split; [by apply elem_of_map_to_list|].
    simpl. by rewrite He.
Qed.

(** X24. [cleanup] removes by prefix. An entry goes exactly when its key starts
    with the key of some entry that has no observer and was last updated
    more than an hour ago: the expired entries themselves go, and with them
    every entry whose key extends the key of an expired one, even when it is
    observed or recent. Every other entry stays exactly as it was, and when
    no entry is expired the cache is unchanged. *)
Theorem cleanup_removes_by_prefix now usage c :
  (forall h : string,
     cleanup now usage c !! h
     = c !! h ≫= fun q =>
         if existsb (fun key => matches key q) (expiredKeys now usage c) then None
         else Some q)
  /\ (forall (h0 h : string) q0 q,
        c !! h0 = Some q0 -> expired now usage h0 = true ->
        c !! h = Some q -> matches (queryKey q0) q = true ->
        cleanup now usage c !! h = None)
  /\ (forall (h0 : string) q0,
        c !! h0 = Some q0 -> expired now usage h0 = true ->
        Forall JsShape.wellFormed (queryKey q0) ->
        cleanup now usage c !! h0 = None)
  /\ (forall (h : string) q,
        c !! h = Some q ->
        (forall (h0 : string) q0, c !! h0 = Some q0 -> expired now usage h0 = true ->
           matches (queryKey q0) q = false) ->
        cleanup now usage c !! h = Some q)
  /\ ((forall (h0 : string) q0, c !! h0 = Some q0 -> expired now usage h0 = false) ->
      cleanup now usage c = c).
Proof.
  assert (Hchar : forall h : string,
            cleanup now usage c !! h
            = c !! h ≫= fun q =>
                if existsb (fun key => matches key q) (expiredKeys now usage c) then None
                else Some q).
  { intros h. rewrite cleanup_perform, lookup_run_effects.
    destruct (c !! h) as [q|]; simpl; [|done]. apply onEntry_evictions. }
  assert (Hgone : forall (h0 h : string) q0 q,
            c !! h0 = Some q0 -> expired now usage h0 = true ->
            c !! h = Some q -> matches (queryKey q0) q = true ->
            cleanup now usage c !! h = None).
  { intros h0 h q0 q Hq0 He Hq Hm. rewrite Hchar, Hq; simpl.
    replace (existsb (fun key => matches key q) (expiredKeys now usage c)) with true;
      [done|].
    symmetry. apply existsb_exists. exists (queryKey q0). split; [|done].
    apply list_elem_of_In, expiredKeys_elem. by exists h0, q0. }
  assert (Hstay : forall (h : string) q,
            c !! h = Some q ->
            (forall (h0 : string) q0, c !! h0 = Some q0 -> expired now usage h0 = true ->
               matches (queryKey q0) q = false) ->
            cleanup now usage c !! h = Some q).
  { intros h q Hq Hnone. rewrite Hchar, Hq; simpl.
    destruct (existsb _ _) eqn:Hex; [|done].
    apply existsb_exists in Hex as (key & Hin & Hm).
    apply list_elem_of_In, expiredKeys_elem in Hin as (h0 & q0 & Hq0 & He & <-).
    rewrite (Hnone h0 q0 Hq0 He) in Hm. discriminate. }
  split; [exact Hchar|]. split; [exact Hgone|]. split; [|split; [exact Hstay|]].
  - intros h0 q0 Hq0 He Hwf. apply (Hgone h0 h0 q0 q0 Hq0 He Hq0).
    by apply partialMatchKey_refl.
  - intros Hfresh. apply map_eq; intros h.
    destruct (c !! h) as [q|] eqn:Hq.
    + apply Hstay; [done|]. intros h0 q0 Hq0 He. rewrite (Hfresh h0 q0 Hq0) in He.
      discriminate.
    + by rewrite Hchar, Hq.
Qed.

Lemma cleanup_removes_by_prefix_witness :
  CleanupExample.cache !! hashKey CleanupExample.bare
    = Some (mkQuery CleanupExample.bare (Some (JNum 1)) false)
  /\ expired CleanupExample.now CleanupExample.usage (hashKey CleanupExample.bare) = true
  /\ CleanupExample.cache !! hashKey CleanupExample.ranged
     = Some (mkQuery CleanupExample.ranged (Some (JNum 2)) false)
  /\ expired CleanupExample.now CleanupExample.usage (hashKey CleanupExample.ranged) = false
  /\ cleanup CleanupExample.now CleanupExample.usage CleanupExample.cache
       !! hashKey CleanupExample.ranged = None.
Proof.
  assert (H0 : CleanupExample.cache !! hashKey CleanupExample.bare
               = Some (mkQuery CleanupExample.bare (Some (JNum 1)) false))
    by (vm_compute; reflexivity).
  assert (H1 : CleanupExample.cache !! hashKey CleanupExample.ranged
               = Some (mkQuery CleanupExample.ranged (Some (JNum 2)) false))
    by (vm_compute; reflexivity).
  assert (He : expired CleanupExample.now CleanupExample.usage
                 (hashKey CleanupExample.bare) = true) by (vm_compute; reflexivity).
  split; [exact H0|]. split; [exact He|]. split; [exact H1|].
  split; [vm_compute; reflexivity|].
  exact (proj1 (proj2 (cleanup_removes_by_prefix CleanupExample.now CleanupExample.usage
                         CleanupExample.cache))
           _ _ _ _ H0 He H1 eq_refl).
Defined.

End Cleanup.

(** ** The access token cookie *)

Section AccessTokenFacts.

Import AccessToken.

Lemma append_cons (a : Ascii.ascii) (s t : string) :
  String a s +:+ t = String a (s +:+ t).
Proof. reflexivity. Qed.

Lemma append_empty_r (s : string) : s +:+ EmptyString = s.
Proof. induction s as [|a s IH]; [done|]. by rewrite append_cons, IH. Qed.

Lemma append_snoc (acc : string) (c : Ascii.ascii) (s : string) :
  (acc +:+ String c EmptyString) +:+ s = acc +:+ String c s.
Proof. induction acc as [|a acc IH]; [done|]. by rewrite !append_cons, IH. Qed.

Lemma splitFrom_without_separator (sep acc s : string) :
  includes sep s = false -> splitFrom sep 0 acc s = [acc +:+ s].
Proof.
  revert acc. induction s as [|c s IH]; intros acc H.
  - cbn. by rewrite append_empty_r.
  - cbn [includes] in H. apply orb_false_iff in H as [Hp Hi].
    cbn [splitFrom]. by rewrite Hp, (IH _ Hi), append_snoc.
Qed.

(** X25. A token that [getAccessToken] returns is never one its own payload
    dates as expired: the call returns a token only if the cookie was not
    deleted, the token is not empty, its payload segment decodes, and an
    [exp] that is a number is zero or not before [now]. Conversely a call
    that deleted the cookie returns [null]. *)
Theorem getAccessToken_never_returns_expired (P : Platform) (hasDocument : bool)
    (cookie : string) (now : Z) (t : string) :
  token (getAccessToken P hasDocument cookie now) = Some t ->
  hasDocument = true /\
  cookieDeleted (getAccessToken P hasDocument cookie now) = false /\
  t <> EmptyString /\
  (exists payload, decode P (payloadSegment t) = Some payload /\
     payload <> JNull /\
     forall fields n, payload = JObj fields -> Js.getField "exp" fields = JNum n ->
       n = 0 \/ now <= n).
Proof.
  unfold getAccessToken. destruct hasDocument; cbn [negb]; [|discriminate].
  cbv zeta. destruct (_ =? _)%nat; [|discriminate].
  set (v := default EmptyString _).
  destruct (String.eqb v EmptyString) eqn:Hv; cbn [negb]; [discriminate|].
  unfold checkToken. destruct (decode P (payloadSegment v)) as [payload|] eqn:Hd;
    [|discriminate].
  destruct (expOf payload) as [exp|] eqn:He; [|discriminate].
  destruct (Js.truthy exp && lessThan P exp now) eqn:Hx; [discriminate|].
  cbn. intros [= <-]. split; [done|]. split; [done|]. split.
  { intros ->. by rewrite String.eqb_refl in Hv. }
  exists payload. split; [done|]. split; [by intros ->|].
  intros fields n -> Hn. cbn in He. injection He as <-. rewrite Hn in Hx.
  cbn in Hx. destruct (n =? 0) eqn:H0; [lia|]. cbn in Hx. lia.
Qed.

Lemma getAccessToken_never_returns_expired_witness :
  cookieDeleted (getAccessToken TokenExample.platform true TokenExample.jar 1000) = false.
Proof.
  exact (proj1 (proj2 (getAccessToken_never_returns_expired TokenExample.platform true
    TokenExample.jar 1000 "a.b.c" eq_refl))).
Defined.

(** X26. Without an [accessToken] cookie in the jar, [getAccessToken]
    returns [null] and deletes nothing, whatever the platform decodes; the
    same holds where there is no [document]. *)
Theorem getAccessToken_without_cookie (P : Platform) (hasDocument : bool)
    (cookie : string) (now : Z) :
  hasDocument = false \/ includes "; accessToken=" ("; " +:+ cookie) = false ->
  getAccessToken P hasDocument cookie now = nothing.
Proof.
  intros [->|H]; [done|]. unfold getAccessToken. destruct hasDocument; [|done].
  cbn [negb]. unfold split. rewrite (splitFrom_without_separator _ _ _ H). done.
Qed.

Lemma getAccessToken_without_cookie_witness :
  getAccessToken TokenExample.platform true "theme=dark; xaccessToken=a.b.c" 1000 = nothing.
Proof.
  apply getAccessToken_without_cookie. right. vm_compute. reflexivity.
Defined.

End AccessTokenFacts.

(** ** Which keys name the same cache entry *)

Section KeyIdentity.

Import AdminCacheManager.

Lemma length_append (s t : string) :
  String.length (s +:+ t) = (String.length s + String.length t)%nat.
Proof. induction s as [|a s IH]; [done|]. rewrite append_cons. cbn. by rewrite IH. Qed.

Lemma append_inv_tail (s s' t : string) : s +:+ t = s' +:+ t -> s = s'.
Proof.
  revert s'. induction s as [|a s IH]; intros [|a' s'] H.
  - done.
  - apply (f_equal String.length) in H. rewrite !length_append in H. cbn in H. lia.
  - apply (f_equal String.length) in H. rewrite !length_append in H. cbn in H. lia.
  - rewrite !append_cons in H. injection H as -> H. f_equal. by apply IH.
Qed.

Lemma escape_cons (c : Ascii.ascii) (s : string) :
  Js.escape (String c s)
  = if Ascii.eqb c (Ascii.ascii_of_nat 34)
    then String (Ascii.ascii_of_nat 92) (String (Ascii.ascii_of_nat 34) (Js.escape s))
    else if Ascii.eqb c (Ascii.ascii_of_nat 92)
    then String (Ascii.ascii_of_nat 92) (String (Ascii.ascii_of_nat 92) (Js.escape s))
    else String c (Js.escape s).
Proof. reflexivity. Qed.

Lemma escape_inj (s s' : string) : Js.escape s = Js.escape s' -> s = s'.
Proof.
  revert s'. induction s as [|c s IH]; intros [|c' s'] H.
  - done.
  - rewrite escape_cons in H. cbn [Js.escape] in H.
    destruct (Ascii.eqb c' _); [discriminate|]. destruct (Ascii.eqb c' _); discriminate.
  - rewrite escape_cons in H. cbn [Js.escape] in H.
    destruct (Ascii.eqb c _); [discriminate|]. destruct (Ascii.eqb c _); discriminate.
  - rewrite !escape_cons in H.
    destruct (Ascii.eqb_spec c (Ascii.ascii_of_nat 34)) as [->|Hq];
      destruct (Ascii.eqb_spec c' (Ascii.ascii_of_nat 34)) as [->|Hq'].
    + injection H as H. f_equal. by apply IH.
    + destruct (Ascii.eqb_spec c' (Ascii.ascii_of_nat 92)) as [->|Hb'].
      * discriminate.
      * injection H as Hc H; congruence.
    + destruct (Ascii.eqb_spec c (Ascii.ascii_of_nat 92)) as [->|Hb].
      * discriminate.
      * injection H as Hc H; congruence.
    + destruct (Ascii.eqb_spec c (Ascii.ascii_of_nat 92)) as [->|Hb];
        destruct (Ascii.eqb_spec c' (Ascii.ascii_of_nat 92)) as [->|Hb'].
      * injection H as H. f_equal. by apply IH.
      * injection H as Hc H; congruence.
      * injection H as Hc H; congruence.
      * injection H as -> H. f_equal. by apply IH.
Qed.

Lemma detail_hash (r : Resource) (id : string) :
  hashKey (ADMIN_CACHE_KEYS.detail r id)
  = ("[" +:+ Js.jsonString "admin" +:+ "," +:+ Js.jsonString (resourceName r) +:+ ","
       +:+ Js.jsonString "detail" +:+ "," +:+ Js.quote)
    +:+ ((Js.escape id +:+ Js.quote) +:+ "]").
Proof. destruct r; reflexivity. Qed.

Lemma detail_hash_inj (r r' : Resource) (id id' : string) :
  hashKey (ADMIN_CACHE_KEYS.detail r id) = hashKey (ADMIN_CACHE_KEYS.detail r' id') ->
  r = r' /\ id = id'.
Proof.
  rewrite !detail_hash. intros H.
  destruct r, r';
    try (split; [reflexivity|]; apply (inj (String.append _)) in H;
         by apply escape_inj, (append_inv_tail _ _ Js.quote), (append_inv_tail _ _ "]"));
    exfalso; discriminate H.
Qed.

Lemma detail_hash_not_list (r r' : Resource) (id : string) (params : JsValue) :
  hashKey (ADMIN_CACHE_KEYS.detail r id) <> hashKey (ADMIN_CACHE_KEYS.list r' params).
Proof.
  rewrite list_key_cases.
  destruct (Js.truthy params); destruct r, r'; intros H; discriminate H.
Qed.

Lemma detail_hash_not_stats (r r' : Resource) (id : string) :
  hashKey (ADMIN_CACHE_KEYS.detail r id) <> hashKey (ADMIN_CACHE_KEYS.stats r').
Proof. destruct r, r'; intros H; discriminate H. Qed.

(** X27. The detail keys of the registry are free of collisions: two of
    them name the same cache entry only for the same resource and the same
    id, and none names the entry of a list or stats key. So the optimistic
    patch of one item's detail entry, and its rollback, change the cached
    data of no other item, list or statistic. *)
Theorem detail_patch_touches_one_entry (r r' : Resource) (id id' : string)
    (updateFn : option JsValue -> option JsValue)
    (rollbackFn : option (option JsValue -> option JsValue))
    (c : gmap string Query) :
  r <> r' \/ id <> id' ->
  let (handle, patched) :=
    updateOptimistically (ADMIN_CACHE_KEYS.detail r id) updateFn rollbackFn c in
  hashKey (ADMIN_CACHE_KEYS.detail r id) <> hashKey (ADMIN_CACHE_KEYS.detail r' id') /\
  (forall key, key = ADMIN_CACHE_KEYS.detail r' id'
        \/ (exists r'' params, key = ADMIN_CACHE_KEYS.list r'' params)
        \/ (exists r'', key = ADMIN_CACHE_KEYS.stats r'') ->
     getQueryData key patched = getQueryData key c /\
     forall c', getQueryData key (rollback handle c') = getQueryData key c').
Proof.
  intros Hne. unfold updateOptimistically. cbv zeta.
  assert (hashKey (ADMIN_CACHE_KEYS.detail r id)
          <> hashKey (ADMIN_CACHE_KEYS.detail r' id')) as Hh.
  { intros [? ?]%detail_hash_inj. destruct Hne; congruence. }
  split; [exact Hh|].
  intros key Hkey.
  assert (hashKey key <> hashKey (ADMIN_CACHE_KEYS.detail r id)) as Hk.
  { destruct Hkey as [->|[(r'' & params & ->)|(r'' & ->)]]; intros E; symmetry in E.
    - by apply Hh.
    - by apply detail_hash_not_list in E.
    - by apply detail_hash_not_stats in E. }
  split; [by apply getQueryData_setQueryData_ne|].
  intros c'. cbn [rollback]. destruct rollbackFn; by apply getQueryData_setQueryData_ne.
Qed.

Lemma detail_patch_touches_one_entry_witness :
  hashKey (ADMIN_CACHE_KEYS.detail orders "o-1")
  <> hashKey (ADMIN_CACHE_KEYS.detail orders "o-2").
Proof.
  assert (Hne : orders <> orders \/ "o-1" <> "o-2") by (right; discriminate).
  pose proof (detail_patch_touches_one_entry orders orders "o-1" "o-2"
    (fun d => d) None ∅ Hne) as H.
  exact (proj1 H).
Defined.

(** X28. [filter(Boolean)] drops falsy list parameters from the key: with
    [undefined], [null], [false], [0] or the empty string the key is the
    bare list key, hence the same cache entry; with an object, even one
    without fields, it is another entry, which the bare key still has as a
    prefix. *)
Theorem list_key_drops_falsy_params (r : Resource) :
  (forall params, Js.truthy params = false ->
     ADMIN_CACHE_KEYS.list r params = ADMIN_CACHE_KEYS.list r JUndefined) /\
  (forall fields,
     hashKey (ADMIN_CACHE_KEYS.list r (JObj fields))
     <> hashKey (ADMIN_CACHE_KEYS.list r JUndefined) /\
     partialMatchKey (ADMIN_CACHE_KEYS.list r (JObj fields))
       (ADMIN_CACHE_KEYS.list r JUndefined) = true).
Proof.
  split.
  - intros params Hp. by rewrite !list_key_cases, Hp.
  - intros fields. rewrite !list_key_cases. cbn [Js.truthy]. split.
    + destruct r; intros H; discriminate H.
    + by destruct r.
Qed.

End KeyIdentity.
